(** * vertitab side panel: rendered tree, reconciler and drag-and-drop engine

    A shallow embedding of [src/js/sidepanel.js].  The DOM below
    [Tabs.getMainList()] is a list of nodes (tab items, group items with a
    header and a body of tab items, and the synthetic drop zone); the
    static fields of the classes [Tabs], [DnD] and [Groups] are the fields
    of one [State] record; [setTimeout]/[clearTimeout] are a queue of
    pending handles driven by a millisecond tick; what the host answers
    to queries is an explicit [World]; the mutating calls into the
    [chrome.*] API made by the drag-and-drop engine are recorded as a
    trace, and their outcome (return value or rejection) is read from a
    [Host].  Every [async] function is run to completion as one step.
    Text is kept as UTF-8.  A group item that a drop puts into the body
    of another group is a DOM that the list of nodes does not hold:
    [DnD.moveGroup] and [DnD.drop] then give the calls and no state. *)

From stdpp Require Import gmap list strings.
From Stdlib Require Import ZArith.

Local Open Scope Z_scope.

(** ** Data of the host: tabs and groups *)

(** [chrome.tabs.Tab], the fields the side panel reads. *)
Record Tab := mkTab {
  tab_id : Z;
  tab_windowId : Z;
  tab_index : Z;
  tab_groupId : Z;
  tab_pinned : bool;
  tab_active : bool;
  tab_title : string
}.

(** [chrome.tabGroups.TabGroup]. *)
Record Group := mkGroup {
  grp_id : Z;
  grp_windowId : Z;
  grp_title : string;
  grp_color : string;
  grp_collapsed : bool
}.

(** ** Rendered nodes *)

(** A [.tab-item] element: its id [tab-<id>], [dataset.group], and the
    classes [tab-active], [tab-pin], [dragging], [drop-zone], [drag-over]. *)
Record TabNode := mkTabNode {
  tn_id : Z;
  tn_group : Z;
  tn_active : bool;
  tn_pin : bool;
  tn_title : string;
  tn_dragging : bool;
  tn_drop_zone : bool;
  tn_drag_over : bool
}.

(** A [.group-header-outer] element and its classes. *)
Record Header := mkHeader {
  h_dragging : bool;
  h_collapse : bool;
  h_drop_zone : bool;
  h_drag_over : bool
}.

(** A [.group-item] element: id [group-<id>], colour class, label, class
    [collapse], [dataset.collapse], its header and the children of its
    [.group-body]. *)
Record GroupNode := mkGroupNode {
  gn_id : Z;
  gn_color : string;
  gn_title : string;
  gn_collapse : bool;
  gn_mark : bool;
  gn_header : Header;
  gn_body : list TabNode
}.

(** Children of the main list.  [NFake] is [DnD.fakeBottom] when attached. *)
Inductive Node :=
  | NTab (t : TabNode)
  | NGroup (g : GroupNode)
  | NFake.

(** ** Timers *)

(** [pending] holds the handles armed with [setTimeout(Tabs.build, _)]
    together with the time at which they are due. *)
Record Timers := mkTimers {
  now : nat;
  next_handle : nat;
  pending : list (nat * nat)
}.

Definition setTimeout (delay : nat) (tm : Timers) : Timers * nat :=
  (mkTimers (now tm) (S (next_handle tm))
            (pending tm ++ [(next_handle tm, (now tm + delay)%nat)]),
   next_handle tm).

Definition clearTimeout (h : nat) (tm : Timers) : Timers :=
  mkTimers (now tm) (next_handle tm)
           (filter (λ p, p.1 ≠ h) (pending tm)).

(** ** The state of the side panel *)

Record State := mkState {
  WindowId : Z;
  mainList : list Node;
  cache : gmap Z Group;
  dragging : bool;
  fakeBottom : option bool;
  delayTimeoutId : nat;
  timers : Timers
}.

Definition set_mainList (l : list Node) (st : State) : State :=
  mkState (WindowId st) l (cache st) (dragging st) (fakeBottom st)
          (delayTimeoutId st) (timers st).

Definition set_cache (c : gmap Z Group) (st : State) : State :=
  mkState (WindowId st) (mainList st) c (dragging st) (fakeBottom st)
          (delayTimeoutId st) (timers st).

Definition set_WindowId (w : Z) (st : State) : State :=
  mkState w (mainList st) (cache st) (dragging st) (fakeBottom st)
          (delayTimeoutId st) (timers st).

Definition set_dragging (b : bool) (st : State) : State :=
  mkState (WindowId st) (mainList st) (cache st) b (fakeBottom st)
          (delayTimeoutId st) (timers st).

Definition set_fakeBottom (f : option bool) (st : State) : State :=
  mkState (WindowId st) (mainList st) (cache st) (dragging st) f
          (delayTimeoutId st) (timers st).

Definition set_timers (tm : Timers) (st : State) : State :=
  mkState (WindowId st) (mainList st) (cache st) (dragging st) (fakeBottom st)
          (delayTimeoutId st) tm.

(** What the host answers when queried: the current window with its tabs
    in order, and [chrome.tabGroups.get] ([None] when it throws). *)
Record World := mkWorld {
  w_windowId : Z;
  w_tabs : list Tab;
  w_group : Z → option Group
}.

(** ** Tabs.delayRebuild *)

(** The delay handed to [setTimeout], in milliseconds. *)
Definition rebuildDelay : nat := 400.

Definition Tabs_delayRebuild (st : State) : State :=
  let tm1 := clearTimeout (delayTimeoutId st) (timers st) in
  let '(tm2, h) := setTimeout rebuildDelay tm1 in
  mkState (WindowId st) (mainList st) (cache st) (dragging st) (fakeBottom st)
          h tm2.

(** ** Groups.get, Groups.createGroup, Tabs.createTab *)

Definition Groups_get (w : World) (groupId : Z) (c : gmap Z Group)
  : gmap Z Group * option Group :=
  match c !! groupId with
  | Some g => (c, Some g)
  | None =>
      match w_group w groupId with
      | Some g => (<[grp_id g := g]> c, Some g)
      | None => (c, None)
      end
  end.

(** [String.prototype.trim] and [Groups.updateTitle].  A title is kept
    as its UTF-8 text.  The white space and line terminators that [trim]
    strips are U+0009 to U+000D, U+0020, U+00A0, U+1680, U+2000 to
    U+200A, U+2028, U+2029, U+202F, U+205F, U+3000 and U+FEFF. *)
Definition utf8 (bytes : list nat) : list Ascii.ascii := Ascii.ascii_of_nat <$> bytes.

Definition js_white_space : list (list Ascii.ascii) :=
  utf8 <$> ([[9]; [10]; [11]; [12]; [13]; [32]; [194; 160]; [225; 154; 128]]
            ++ ((λ b, [226; 128; b]) <$> seq 128 11)
            ++ [[226; 128; 168]; [226; 128; 169]; [226; 128; 175];
                [226; 129; 159]; [227; 128; 128]; [239; 187; 191]])%nat.

(** What is left of [s] after the prefix [p]. *)
Fixpoint after_prefix (p s : list Ascii.ascii) : option (list Ascii.ascii) :=
  match p, s with
  | [], _ => Some s
  | a :: p', b :: s' => if bool_decide (a = b) then after_prefix p' s' else None
  | _ :: _, [] => None
  end.

(** [s] without its first character, when that is one of [spaces]. *)
Definition strip_space (spaces : list (list Ascii.ascii)) (s : list Ascii.ascii)
  : option (list Ascii.ascii) :=
  foldr (λ p found, match after_prefix p s with
                    | Some rest => Some rest
                    | None => found
                    end) None spaces.

Fixpoint strip_spaces (spaces : list (list Ascii.ascii)) (fuel : nat)
    (s : list Ascii.ascii) : list Ascii.ascii :=
  match fuel with
  | O => s
  | S fuel' =>
      match strip_space spaces s with
      | Some rest => strip_spaces spaces fuel' rest
      | None => s
      end
  end.

Definition trim_start (s : list Ascii.ascii) : list Ascii.ascii :=
  strip_spaces js_white_space (length s) s.

Definition trim_end (s : list Ascii.ascii) : list Ascii.ascii :=
  reverse (strip_spaces (reverse <$> js_white_space) (length s) (reverse s)).

Definition String_trim (s : string) : string :=
  String.string_of_list_ascii (trim_end (trim_start (String.list_ascii_of_string s))).

(** U+200B, the zero-width space. *)
Definition zero_width_space : string :=
  String.string_of_list_ascii (utf8 [226; 128; 139]%nat).

(** The text that [Groups.updateTitle] writes into the label. *)
Definition Groups_updateTitle (title : string) : string :=
  let title := String_trim title in
  if bool_decide (String.length title = 0%nat) then zero_width_space
  else title.

Definition Groups_createGroup (g : Group) : GroupNode :=
  mkGroupNode (grp_id g) (grp_color g) (Groups_updateTitle (grp_title g))
              (grp_collapsed g) false
              (mkHeader false false false false) [].

Definition Tabs_createTab (t : Tab) : TabNode :=
  mkTabNode (tab_id t) (tab_groupId t) (tab_active t) (tab_pinned t)
            (tab_title t) false false false.

(** [currentGroupElement.appendChild(tabElement)], where the current group
    body is the one of the node at position [i] of the container. *)
Definition append_to_body (tn : TabNode) (n : Node) : Node :=
  match n with
  | NGroup g =>
      NGroup (mkGroupNode (gn_id g) (gn_color g) (gn_title g) (gn_collapse g)
                          (gn_mark g) (gn_header g) (gn_body g ++ [tn]))
  | _ => n
  end.

(** ** Queries over the rendered tree *)

Definition node_tabs (n : Node) : list TabNode :=
  match n with
  | NTab t => [t]
  | NGroup g => gn_body g
  | NFake => []
  end.

(** [querySelectorAll(".tab-item")]: the tab items in document order. *)
Definition flat_tabs (l : list Node) : list TabNode := l ≫= node_tabs.

(** [querySelectorAll(".group-item")]. *)
Definition group_nodes (l : list Node) : list GroupNode :=
  omap (λ n, match n with NGroup g => Some g | _ => None end) l.

(** [allTabElements[i]] for a JavaScript number [i]. *)
Definition flat_get (l : list Node) (i : Z) : option TabNode :=
  if bool_decide (0 ≤ i) then flat_tabs l !! Z.to_nat i else None.

(** [document.getElementById(`tab-${id}`)] and
    [document.getElementById(`group-${id}`)] as tests. *)
Definition has_tab (id : Z) (l : list Node) : bool :=
  bool_decide (id ∈ tn_id <$> flat_tabs l).

Definition has_group (id : Z) (l : list Node) : bool :=
  bool_decide (id ∈ gn_id <$> group_nodes l).

Definition set_body (b : list TabNode) (g : GroupNode) : GroupNode :=
  mkGroupNode (gn_id g) (gn_color g) (gn_title g) (gn_collapse g) (gn_mark g)
              (gn_header g) b.

(** Apply [f] to every tab item. *)
Definition map_tabs (f : TabNode → TabNode) (l : list Node) : list Node :=
  (λ n, match n with
        | NTab t => NTab (f t)
        | NGroup g => NGroup (set_body (f <$> gn_body g) g)
        | NFake => NFake
        end) <$> l.

(** Apply [f] to the first tab item with the given id. *)
Fixpoint alter_tab_in (id : Z) (f : TabNode → TabNode) (b : list TabNode)
  : list TabNode :=
  match b with
  | [] => []
  | t :: rest =>
      if bool_decide (tn_id t = id) then f t :: rest
      else t :: alter_tab_in id f rest
  end.

Fixpoint alter_tab (id : Z) (f : TabNode → TabNode) (l : list Node)
  : list Node :=
  match l with
  | [] => []
  | NTab t :: rest =>
      if bool_decide (tn_id t = id) then NTab (f t) :: rest
      else NTab t :: alter_tab id f rest
  | NGroup g :: rest =>
      if bool_decide (id ∈ tn_id <$> gn_body g)
      then NGroup (set_body (alter_tab_in id f (gn_body g)) g) :: rest
      else NGroup g :: alter_tab id f rest
  | NFake :: rest => NFake :: alter_tab id f rest
  end.

(** [element.remove()] for the first tab item with the given id. *)
Fixpoint remove_tab_in (id : Z) (b : list TabNode) : list TabNode :=
  match b with
  | [] => []
  | t :: rest =>
      if bool_decide (tn_id t = id) then rest else t :: remove_tab_in id rest
  end.

Fixpoint remove_tab (id : Z) (l : list Node) : list Node :=
  match l with
  | [] => []
  | NTab t :: rest =>
      if bool_decide (tn_id t = id) then rest
      else NTab t :: remove_tab id rest
  | NGroup g :: rest =>
      if bool_decide (id ∈ tn_id <$> gn_body g)
      then NGroup (set_body (remove_tab_in id (gn_body g)) g) :: rest
      else NGroup g :: remove_tab id rest
  | NFake :: rest => NFake :: remove_tab id rest
  end.

(** [mainList.insertBefore(new, ref)] when the [k]-th tab item [ref] is a
    child of the main list, and
    [mainList.insertBefore(new, ref.closest(".group-item"))] when it sits
    in a group body. *)
Fixpoint insert_before_flat (k : nat) (new : Node) (l : list Node)
  : list Node :=
  match l with
  | [] => []
  | NTab t :: rest =>
      match k with
      | O => new :: NTab t :: rest
      | S k' => NTab t :: insert_before_flat k' new rest
      end
  | NGroup g :: rest =>
      if bool_decide (k < length (gn_body g))%nat
      then new :: NGroup g :: rest
      else NGroup g :: insert_before_flat (k - length (gn_body g)) new rest
  | NFake :: rest => NFake :: insert_before_flat k new rest
  end.

(** [previousTab.after(new)], [previousTab] being the [k]-th tab item. *)
Fixpoint insert_after_flat (k : nat) (new : TabNode) (l : list Node)
  : list Node :=
  match l with
  | [] => []
  | NTab t :: rest =>
      match k with
      | O => NTab t :: NTab new :: rest
      | S k' => NTab t :: insert_after_flat k' new rest
      end
  | NGroup g :: rest =>
      if bool_decide (k < length (gn_body g))%nat
      then NGroup (set_body (take (S k) (gn_body g) ++ new :: drop (S k) (gn_body g)) g)
             :: rest
      else NGroup g :: insert_after_flat (k - length (gn_body g)) new rest
  | NFake :: rest => NFake :: insert_after_flat k new rest
  end.

(** ** Drag sessions: start, hover, end *)

Definition set_tab_marks (dragging_ drop_zone drag_over : bool) (t : TabNode)
  : TabNode :=
  mkTabNode (tn_id t) (tn_group t) (tn_active t) (tn_pin t) (tn_title t)
            dragging_ drop_zone drag_over.

Definition set_header (h : Header) (g : GroupNode) : GroupNode :=
  mkGroupNode (gn_id g) (gn_color g) (gn_title g) (gn_collapse g) (gn_mark g)
              h (gn_body g).

Definition set_collapse (b : bool) (g : GroupNode) : GroupNode :=
  mkGroupNode (gn_id g) (gn_color g) (gn_title g) b (gn_mark g)
              (gn_header g) (gn_body g).

Definition set_mark (b : bool) (g : GroupNode) : GroupNode :=
  mkGroupNode (gn_id g) (gn_color g) (gn_title g) (gn_collapse g) b
              (gn_header g) (gn_body g).

Definition map_groups (f : GroupNode → GroupNode) (l : list Node) : list Node :=
  (λ n, match n with NGroup g => NGroup (f g) | _ => n end) <$> l.

(** Apply [f] to the first group item with the given id. *)
Fixpoint alter_group (id : Z) (f : GroupNode → GroupNode) (l : list Node)
  : list Node :=
  match l with
  | [] => []
  | NGroup g :: rest =>
      if bool_decide (gn_id g = id) then NGroup (f g) :: rest
      else NGroup g :: alter_group id f rest
  | n :: rest => n :: alter_group id f rest
  end.

(** [for (target of querySelectorAll(".tab-item, .group-header-outer"))
    target.classList.add("drop-zone")]. *)
Definition add_drop_zone (l : list Node) : list Node :=
  map_groups
    (λ g, set_header (mkHeader (h_dragging (gn_header g)) (h_collapse (gn_header g))
                               true (h_drag_over (gn_header g))) g)
    (map_tabs (λ t, set_tab_marks (tn_dragging t) true (tn_drag_over t) t) l).

(** [target.classList.remove("drop-zone", "drag-over")] on the same set. *)
Definition strip_zones (l : list Node) : list Node :=
  map_groups
    (λ g, set_header (mkHeader (h_dragging (gn_header g)) (h_collapse (gn_header g))
                               false false) g)
    (map_tabs (λ t, set_tab_marks (tn_dragging t) false false t) l).

Definition is_fake (n : Node) : bool :=
  match n with NFake => true | _ => false end.

Definition without_fake (l : list Node) : list Node :=
  filter (λ n, is_fake n = false) l.

(** [DnD.insertFakeBottom]: create the element once, then append it to the
    main list (which detaches it from wherever it was). *)
Definition DnD_insertFakeBottom (st : State) : State :=
  let f := match fakeBottom st with Some over => Some over | None => Some false end in
  set_mainList (without_fake (mainList st) ++ [NFake]) (set_fakeBottom f st).

(** [DnD.dragStart], up to [requestAnimationFrame]. *)
Definition DnD_dragStart (tabId : Z) (st : State) : State :=
  let st1 := set_dragging true st in
  let l1 := alter_tab tabId
              (λ t, set_tab_marks true (tn_drop_zone t) (tn_drag_over t) t)
              (mainList st1) in
  set_mainList (add_drop_zone l1) st1.

(** The callback that [DnD.dragStart] hands to [requestAnimationFrame]. *)
Definition DnD_dragStart_frame (st : State) : State :=
  DnD_insertFakeBottom st.

(** [DnD.groupDragStart], up to [requestAnimationFrame]; [groupId] names
    the group whose header is [event.currentTarget]. *)
Definition DnD_groupDragStart (groupId : Z) (st : State) : State :=
  let st1 := set_dragging true st in
  let l1 := alter_group groupId
              (λ g, set_header (mkHeader true true (h_drop_zone (gn_header g))
                                         (h_drag_over (gn_header g))) g)
              (mainList st1) in
  let l2 := add_drop_zone l1 in
  let l3 := map_groups (λ g, if gn_collapse g then set_mark true g else g) l2 in
  set_mainList l3 st1.

(** The callback that [DnD.groupDragStart] hands to
    [requestAnimationFrame]. *)
Definition DnD_groupDragStart_frame (st : State) : State :=
  DnD_insertFakeBottom
    (set_mainList (map_groups (set_collapse true) (mainList st)) st).

(** The element an event of the drag protocol is delivered to. *)
Inductive Zone :=
  | ZTab (id : Z)
  | ZHeader (groupId : Z)
  | ZFake.

Definition set_over (b : bool) (z : Zone) (st : State) : State :=
  match z with
  | ZTab id =>
      set_mainList
        (alter_tab id (λ t, set_tab_marks (tn_dragging t) (tn_drop_zone t) b t)
                   (mainList st)) st
  | ZHeader gid =>
      set_mainList
        (alter_group gid
           (λ g, set_header (mkHeader (h_dragging (gn_header g))
                                      (h_collapse (gn_header g))
                                      (h_drop_zone (gn_header g)) b) g)
           (mainList st)) st
  | ZFake =>
      match fakeBottom st with
      | Some _ => set_fakeBottom (Some b) st
      | None => st
      end
  end.

(** [DnD.dragEnter] and [DnD.dragLeave] for a drag that carries ["tab-id"]. *)
Definition DnD_dragEnter (z : Zone) (st : State) : State := set_over true z st.
Definition DnD_dragLeave (z : Zone) (st : State) : State := set_over false z st.

(** The last two statements of both end handlers.  When [DnD.fakeBottom]
    was never created they throw, after everything else has been done. *)
Definition remove_fakeBottom (st : State) : State :=
  match fakeBottom st with
  | Some _ =>
      set_mainList (without_fake (mainList st)) (set_fakeBottom (Some false) st)
  | None => st
  end.

Definition DnD_dragEnd (tabId : Z) (st : State) : State :=
  let st1 := set_dragging false st in
  let l1 := alter_tab tabId
              (λ t, set_tab_marks false (tn_drop_zone t) (tn_drag_over t) t)
              (mainList st1) in
  remove_fakeBottom (set_mainList (strip_zones l1) st1).

Definition DnD_groupDragEnd (groupId : Z) (st : State) : State :=
  let st1 := set_dragging false st in
  let l1 := alter_group groupId
              (λ g, set_header (mkHeader false false (h_drop_zone (gn_header g))
                                         (h_drag_over (gn_header g))) g)
              (mainList st1) in
  let l2 := strip_zones l1 in
  let l3 := map_groups
              (λ g, if gn_mark g then set_mark false g else set_collapse false g)
              l2 in
  remove_fakeBottom (set_mainList l3 st1).

Section Build.

Variable NoGroup : Z.

(** ** Tabs.build *)

(** The [for (const tab of currentWindow.tabs)] loop.  [acc] is
    [tabListContainer], [cur] the position in it of the group whose body
    is [currentGroupElement], [last] is [lastGroupId].  [None] is the
    early [return] taken when [Groups.get] finds nothing.  [cur] is set
    whenever [last] is, so the branch for [cur = None] under an unchanged
    group id never runs. *)
Fixpoint build_loop (w : World) (tabs : list Tab) (c : gmap Z Group)
    (acc : list Node) (cur : option nat) (last : option Z)
  : gmap Z Group * option (list Node) :=
  match tabs with
  | [] => (c, Some acc)
  | tab :: rest =>
      let tabGroupId := tab_groupId tab in
      if bool_decide (tabGroupId ≠ NoGroup) then
        if bool_decide (last ≠ Some tabGroupId) then
          match Groups_get w tabGroupId c with
          | (c', Some groupInfo) =>
              let acc1 := acc ++ [NGroup (Groups_createGroup groupInfo)] in
              let i := length acc in
              build_loop w rest c'
                (alter (append_to_body (Tabs_createTab tab)) i acc1)
                (Some i) (Some tabGroupId)
          | (c', None) => (c', None)
          end
        else
          match cur with
          | Some i =>
              build_loop w rest c
                (alter (append_to_body (Tabs_createTab tab)) i acc) cur last
          | None => build_loop w rest c acc cur last
          end
      else
        build_loop w rest c (acc ++ [NTab (Tabs_createTab tab)]) cur last
  end.

Definition Tabs_build (w : World) (st : State) : State :=
  if dragging st then st
  else
    let st1 := set_WindowId (w_windowId w) st in
    match build_loop w (w_tabs w) (cache st1) [] None None with
    | (c', Some tabListContainer) =>
        set_mainList tabListContainer (set_cache c' st1)
    | (c', None) => Tabs_delayRebuild (set_cache c' st1)
    end.

(** ** Tabs.insertTab *)

Definition Tabs_insertTab (tabInfo : Tab) (st : State) : State :=
  let l := mainList st in
  if bool_decide (tab_groupId tabInfo = NoGroup) then
    let newTabElement := Tabs_createTab tabInfo in
    let allTabElements := flat_tabs l in
    if bool_decide (tab_index tabInfo = Z.of_nat (length allTabElements)) then
      set_mainList (l ++ [NTab newTabElement]) st
    else if bool_decide (tab_index tabInfo < Z.of_nat (length allTabElements)) then
      match flat_get l (tab_index tabInfo) with
      | Some referenceTab =>
          set_mainList
            (insert_before_flat (Z.to_nat (tab_index tabInfo))
                                (NTab newTabElement) l) st
      | None => Tabs_delayRebuild st
      end
    else Tabs_delayRebuild st
  else
    if has_group (tab_groupId tabInfo) l then
      match flat_get l (tab_index tabInfo - 1) with
      | Some previousTab =>
          if bool_decide (tn_group previousTab = tab_groupId tabInfo) then
            set_mainList
              (insert_after_flat (Z.to_nat (tab_index tabInfo - 1))
                                 (Tabs_createTab tabInfo) l) st
          else Tabs_delayRebuild st
      | None => Tabs_delayRebuild st
      end
    else Tabs_delayRebuild st.

(** ** Tab event handlers *)

Definition Tabs_onCreated (tab : Tab) (st : State) : State :=
  if bool_decide (tab_windowId tab = WindowId st) then
    if has_tab (tab_id tab) (mainList st) then st
    else Tabs_insertTab tab st
  else st.

Definition Tabs_onTabRemoved (tabId : Z) (st : State) : State :=
  set_mainList (remove_tab tabId (mainList st)) st.

Definition set_active (b : bool) (t : TabNode) : TabNode :=
  mkTabNode (tn_id t) (tn_group t) b (tn_pin t) (tn_title t)
            (tn_dragging t) (tn_drop_zone t) (tn_drag_over t).

(** The argument of [chrome.tabs.onActivated]. *)
Record ActiveInfo := mkActiveInfo {
  ai_tabId : Z;
  ai_windowId : Z
}.

Definition Tabs_onActivated (a : ActiveInfo) (st : State) : State :=
  if bool_decide (ai_windowId a = WindowId st) then
    let cleared := map_tabs (set_active false) (mainList st) in
    if has_tab (ai_tabId a) cleared
    then set_mainList (alter_tab (ai_tabId a) (set_active true) cleared) st
    else set_mainList cleared st
  else st.

(** The [changeInfo] argument of [chrome.tabs.onUpdated]; [None] is an
    absent property. *)
Record ChangeInfo := mkChangeInfo {
  ci_title : option string;
  ci_url : option string;
  ci_pinned : option bool;
  ci_groupId : option Z
}.

Definition truthy (s : option string) : bool :=
  match s with
  | Some s => negb (bool_decide (s = ""))
  | None => false
  end.

Definition set_title (s : string) (t : TabNode) : TabNode :=
  mkTabNode (tn_id t) (tn_group t) (tn_active t) (tn_pin t) s
            (tn_dragging t) (tn_drop_zone t) (tn_drag_over t).

Definition set_pin (b : bool) (t : TabNode) : TabNode :=
  mkTabNode (tn_id t) (tn_group t) (tn_active t) b (tn_title t)
            (tn_dragging t) (tn_drop_zone t) (tn_drag_over t).

Definition set_group (g : Z) (t : TabNode) : TabNode :=
  mkTabNode (tn_id t) g (tn_active t) (tn_pin t) (tn_title t)
            (tn_dragging t) (tn_drop_zone t) (tn_drag_over t).

(** [Tabs.updateGroup]: retag, then ask for a rebuild. *)
Definition Tabs_updateGroup (tabId : Z) (newGroupId : Z) (st : State) : State :=
  Tabs_delayRebuild
    (set_mainList (alter_tab tabId (set_group newGroupId) (mainList st)) st).

Definition Tabs_onUpdated (tabId : Z) (changeInfo : ChangeInfo) (tab : Tab)
    (st : State) : State :=
  if bool_decide (tab_windowId tab ≠ WindowId st) then st
  else if negb (has_tab tabId (mainList st)) then Tabs_delayRebuild st
  else
    let st1 :=
      if truthy (ci_title changeInfo)
         || (truthy (ci_url changeInfo) && truthy (Some (tab_title tab)))
      then set_mainList
             (alter_tab tabId (set_title (tab_title tab)) (mainList st)) st
      else st in
    let st2 :=
      match ci_pinned changeInfo with
      | Some _ =>
          set_mainList
            (alter_tab tabId (set_pin (tab_pinned tab)) (mainList st1)) st1
      | None => st1
      end in
    match ci_groupId changeInfo with
    | Some g => Tabs_updateGroup tabId g st2
    | None => st2
    end.

(** ** Groups.onRemoved *)

(** [groupElement.before(...tabs); groupElement.remove()] for the first
    group item with the given id. *)
Fixpoint unwrap_group (id : Z) (l : list Node) : list Node :=
  match l with
  | [] => []
  | NGroup g :: rest =>
      if bool_decide (gn_id g = id) then (NTab <$> gn_body g) ++ rest
      else NGroup g :: unwrap_group id rest
  | n :: rest => n :: unwrap_group id rest
  end.

Definition Groups_onRemoved (group : Group) (st : State) : State :=
  let st1 := set_cache (delete (grp_id group) (cache st)) st in
  if has_group (grp_id group) (mainList st1)
  then set_mainList (unwrap_group (grp_id group) (mainList st1)) st1
  else st1.

(** ** Element references and DOM moves *)

(** An element of the main list by its id: [tab-<id>], [group-<id>], or
    the synthetic drop zone.  Ids are unique in a rendered document, so
    the first element with an id is the element. *)
Inductive Ref :=
  | RTab (id : Z)
  | RGroup (id : Z)
  | RFake.

Global Instance Ref_eq_dec : EqDecision Ref.
Proof. solve_decision. Defined.

Definition node_ref (n : Node) : Ref :=
  match n with
  | NTab t => RTab (tn_id t)
  | NGroup g => RGroup (gn_id g)
  | NFake => RFake
  end.

Definition in_body (id : Z) (g : GroupNode) : bool :=
  bool_decide (id ∈ tn_id <$> gn_body g).

Fixpoint find_tab (id : Z) (l : list TabNode) : option TabNode :=
  match l with
  | [] => None
  | t :: rest => if bool_decide (tn_id t = id) then Some t else find_tab id rest
  end.

Fixpoint find_group (id : Z) (l : list GroupNode) : option GroupNode :=
  match l with
  | [] => None
  | g :: rest => if bool_decide (gn_id g = id) then Some g else find_group id rest
  end.

(** Is the referenced element in the document? *)
Definition ref_exists (r : Ref) (l : list Node) : bool :=
  match r with
  | RTab id => has_tab id l
  | RGroup id => has_group id l
  | RFake => existsb is_fake l
  end.

(** [element.nextElementSibling]. *)
Fixpoint next_in_body (id : Z) (b : list TabNode) : option Ref :=
  match b with
  | [] => None
  | t :: rest =>
      if bool_decide (tn_id t = id) then (λ t', RTab (tn_id t')) <$> head rest
      else next_in_body id rest
  end.

Fixpoint next_sibling (r : Ref) (l : list Node) : option Ref :=
  match l with
  | [] => None
  | n :: rest =>
      if bool_decide (node_ref n = r) then node_ref <$> head rest
      else
        match n, r with
        | NGroup g, RTab id =>
            if in_body id g then next_in_body id (gn_body g)
            else next_sibling r rest
        | _, _ => next_sibling r rest
        end
  end.

(** [Groups.isInGroup]: the parent of the element is a [.group-body]. *)
Fixpoint Groups_isInGroup (r : Ref) (l : list Node) : bool :=
  match l with
  | [] => false
  | n :: rest =>
      if bool_decide (node_ref n = r) then false
      else
        match n, r with
        | NGroup g, RTab id => if in_body id g then true else Groups_isInGroup r rest
        | _, _ => Groups_isInGroup r rest
        end
  end.

(** [Groups.isAfterGroup]: the previous sibling of the tab item is a
    [.group-item]; [prev] tells whether the node just passed was one. *)
Fixpoint after_group (id : Z) (prev : bool) (l : list Node) : bool :=
  match l with
  | [] => false
  | NTab t :: rest =>
      if bool_decide (tn_id t = id) then prev else after_group id false rest
  | NGroup g :: rest =>
      if in_body id g then false else after_group id true rest
  | NFake :: rest => after_group id false rest
  end.

Definition Groups_isAfterGroup (id : Z) (l : list Node) : bool :=
  after_group id false l.

(** [dropTarget.before(tabElement)], once [tabElement] is detached. *)
Fixpoint insert_in_body (target : Z) (t : TabNode) (b : list TabNode)
  : list TabNode :=
  match b with
  | [] => []
  | x :: rest =>
      if bool_decide (tn_id x = target) then t :: x :: rest
      else x :: insert_in_body target t rest
  end.

Fixpoint insert_tab_before (target : Ref) (t : TabNode) (l : list Node)
  : list Node :=
  match l with
  | [] => []
  | n :: rest =>
      if bool_decide (node_ref n = target) then NTab t :: n :: rest
      else
        match n, target with
        | NGroup g, RTab id =>
            if in_body id g
            then NGroup (set_body (insert_in_body id t (gn_body g)) g) :: rest
            else n :: insert_tab_before target t rest
        | _, _ => n :: insert_tab_before target t rest
        end
  end.

Definition tab_before (target : Ref) (tabId : Z) (l : list Node) : list Node :=
  match find_tab tabId (flat_tabs l) with
  | Some t => insert_tab_before target t (remove_tab tabId l)
  | None => l
  end.

Fixpoint remove_group (id : Z) (l : list Node) : list Node :=
  match l with
  | [] => []
  | NGroup g :: rest =>
      if bool_decide (gn_id g = id) then rest
      else NGroup g :: remove_group id rest
  | n :: rest => n :: remove_group id rest
  end.

Fixpoint insert_node_before (target : Ref) (new : Node) (l : list Node)
  : list Node :=
  match l with
  | [] => []
  | n :: rest =>
      if bool_decide (node_ref n = target) then new :: n :: rest
      else n :: insert_node_before target new rest
  end.

(** Where [dropTarget.before(groupElement)] leaves the group item: among
    the children of the main list, which then is [l1], or next to the
    drop target in the body of another group.  A group item inside a
    body is a DOM that the tree type does not hold. *)
Inductive Placed :=
  | placed (l1 : list Node)
  | nested.

(** [dropTarget.before(groupElement)].  [None]: the call throws, the drop
    target being inside the group that is moved.  A group item put
    before itself stays where it is. *)
Definition group_before (target : Ref) (groupId : Z) (l : list Node)
  : option Placed :=
  match find_group groupId (group_nodes l) with
  | Some g =>
      match target with
      | RTab id =>
          if in_body id g then None
          else if Groups_isInGroup target l then Some nested
          else Some (placed (insert_node_before target (NGroup g)
                                                (remove_group groupId l)))
      | RGroup id =>
          if bool_decide (id = groupId) then Some (placed l)
          else Some (placed (insert_node_before target (NGroup g)
                                                (remove_group groupId l)))
      | RFake =>
          Some (placed (insert_node_before target (NGroup g)
                                           (remove_group groupId l)))
      end
  | None => Some (placed l)
  end.

(** [Array.prototype.indexOf.call(allTabs, element)]. *)
Fixpoint index_from (id : Z) (i : Z) (l : list TabNode) : Z :=
  match l with
  | [] => -1
  | t :: rest => if bool_decide (tn_id t = id) then i else index_from id (i + 1) rest
  end.

Definition index_of_tab (id : Z) (l : list Node) : Z :=
  index_from id 0 (flat_tabs l).

(** ** Calls into the host *)

Inductive Op :=
  | tabs_move (tabId : Z) (index : Z)
  | tabs_ungroup (tabIds : list Z)
  | tabs_group (groupId : option Z) (tabIds : list Z)
  | tabGroups_update (groupId : Z) (collapsed : bool) (color title : string)
  | tabGroups_move (groupId : Z) (index : Z)
  | full_rebuild.

(** The host: what a call returns after the calls made so far; [None]
    when the promise is rejected. *)
Definition Host := list Op → Op → option Z.

(** Computations that issue calls and may throw. *)
Definition Eff (A : Type) : Type := list Op → list Op * option A.

Global Instance Eff_ret : MRet Eff := λ A a h, (h, Some a).

Global Instance Eff_bind : MBind Eff :=
  λ A B k m h, match m h with
               | (h', Some a) => k a h'
               | (h', None) => (h', None)
               end.

Definition throw {A} : Eff A := λ h, (h, None).

Definition await (api : Host) (op : Op) : Eff Z :=
  λ h, (h ++ [op], api h op).

(** [try { m } catch (error) { console.log(error) }]. *)
Definition try_catch (m : Eff unit) : Eff unit :=
  λ h, ((m h).1, Some tt).

Definition note (op : Op) : Eff unit := λ h, (h ++ [op], Some tt).

Fixpoint for_each {A} (f : A → Eff Z) (l : list A) : Eff unit :=
  match l with
  | [] => mret tt
  | a :: rest => f a ;; for_each f rest
  end.

(** ** DnD.moveTab *)

Definition tab_drop_calls (api : Host) (numericTabId newIndex : Z)
    (isDropTargetGroup shouldUngroup : bool) (targetGroupId : option Z)
  : Eff unit :=
  try_catch
    (await api (tabs_move numericTabId newIndex) ;;
     if isDropTargetGroup || shouldUngroup then
       await api (tabs_ungroup [numericTabId]) ;; mret tt
     else
       match targetGroupId with
       | Some g =>
           if bool_decide (g ≠ 0) then
             await api (tabs_group (Some g) [numericTabId]) ;; mret tt
           else mret tt
       | None => mret tt
       end) ;;
  note full_rebuild.

Definition DnD_moveTab (w : World) (api : Host) (tabId : Z) (dropTarget : Ref)
    (st : State) : State * list Op :=
  let isDropTargetGroup :=
    match dropTarget with RGroup _ => true | _ => false end in
  let l1 := tab_before dropTarget tabId (mainList st) in
  let inGroup := negb isDropTargetGroup && Groups_isInGroup dropTarget l1 in
  let targetGroupId :=
    if inGroup then
      match dropTarget with
      | RTab d => tn_group <$> find_tab d (flat_tabs l1)
      | _ => None
      end
    else None in
  let shouldUngroup :=
    negb isDropTargetGroup && negb inGroup && Groups_isAfterGroup tabId l1 in
  let newIndex := index_of_tab tabId l1 in
  (Tabs_build w (set_mainList l1 st),
   (tab_drop_calls api tabId newIndex isDropTargetGroup shouldUngroup
                   targetGroupId [ ]).1).

(** ** DnD.moveGroup *)

Definition first_tab_index (g : option GroupNode) (l : list Node) : Z :=
  match g with
  | Some g =>
      match gn_body g with
      | t :: _ => index_of_tab (tn_id t) l
      | [] => -1
      end
  | None => -1
  end.

(** [oldIndex] and [newIndex] of [DnD.moveGroup], taken from the rendered
    order before the move. *)
Definition group_oldIndex (groupId : Z) (l : list Node) : Z :=
  first_tab_index (find_group groupId (group_nodes l)) l.

Definition group_newIndex (dropTarget : Ref) (l : list Node) : Z :=
  match dropTarget with
  | RTab id => index_of_tab id l
  | RGroup id => first_tab_index (find_group id (group_nodes l)) l
  | RFake => -1
  end.

Definition group_recreate_calls (api : Host) (tabIds : list Z)
    (targetIndex : Z) (groupInfo : option Group) : Eff unit :=
  try_catch
    (await api (tabs_ungroup tabIds) ;;
     for_each (λ tabId, await api (tabs_move tabId targetIndex)) tabIds ;;
     newGroupId ← await api (tabs_group None tabIds);
     match groupInfo with
     | Some info =>
         await api (tabGroups_update newGroupId (grp_collapsed info)
                                     (grp_color info) (grp_title info)) ;;
         mret tt
     | None => throw
     end).

(** The side panel after [Tabs.build] has run on what the move left.
    [None]: the group item sits in the body of another group, which is
    none of the trees of this model; the state is then not followed. *)
Definition build_after_move (w : World) (p : Placed) (st : State)
  : option State :=
  match p with
  | placed l1 => Some (Tabs_build w (set_mainList l1 st))
  | nested => None
  end.

Definition DnD_moveGroup (w : World) (api : Host) (groupId : Z)
    (dropTarget : Ref) (st : State) : option State * list Op :=
  let l := mainList st in
  let tabsInGroup :=
    match find_group groupId (group_nodes l) with
    | Some g => gn_body g
    | None => []
    end in
  let oldIndex := group_oldIndex groupId l in
  let newIndex := group_newIndex dropTarget l in
  match group_before dropTarget groupId l with
  | None => (Some (Tabs_build w st), [full_rebuild])
  | Some p =>
      if bool_decide (newIndex = -1) || bool_decide (oldIndex < newIndex) then
        let tabIds := tn_id <$> tabsInGroup in
        let targetIndex := if bool_decide (newIndex = -1) then newIndex
                           else newIndex - 1 in
        let '(c', groupInfo) := Groups_get w groupId (cache st) in
        (build_after_move w p (set_cache c' st),
         ((group_recreate_calls api tabIds targetIndex groupInfo ;;
           note full_rebuild) [ ]).1)
      else if bool_decide (newIndex < oldIndex) then
        (build_after_move w p st,
         ((try_catch (await api (tabGroups_move groupId newIndex) ;; mret tt) ;;
           note full_rebuild) [ ]).1)
      else (build_after_move w p st, [full_rebuild])
  end.

(** ** DnD.drop *)

(** [event.dataTransfer.getData("tab-id")]: ["tab-<n>"] or ["group-<n>"]. *)
Inductive DragId :=
  | drag_tab (n : Z)
  | drag_group (n : Z).

Definition drag_ref (d : DragId) : Ref :=
  match d with
  | drag_tab n => RTab n
  | drag_group n => RGroup n
  end.

Definition zone_target (z : Zone) : Ref :=
  match z with
  | ZTab id => RTab id
  | ZHeader g => RGroup g
  | ZFake => RFake
  end.

(** An event can only be delivered to an element of the document. *)
Definition zone_exists (z : Zone) (l : list Node) : bool :=
  ref_exists (zone_target z) l.

(** [DnD.drop].  The state is [None] when [DnD.moveGroup] leaves a DOM
    that this model does not hold. *)
Definition DnD_drop (w : World) (api : Host) (draggedId : option DragId)
    (currentTarget : Zone) (st : State) : option State * list Op :=
  match draggedId with
  | None => (Some st, [])
  | Some d =>
      let draggedElement := drag_ref d in
      if negb (ref_exists draggedElement (mainList st)) then (Some st, [])
      else
        let dropTarget := zone_target currentTarget in
        if bool_decide (draggedElement = dropTarget)
           || bool_decide (next_sibling draggedElement (mainList st)
                           = Some dropTarget)
        then (Some st, [])
        else
          match d with
          | drag_group n => DnD_moveGroup w api n dropTarget st
          | drag_tab n =>
              (Some (DnD_moveTab w api n dropTarget st).1,
               (DnD_moveTab w api n dropTarget st).2)
          end
  end.

(** ** The event loop: time and the debounce timer *)

(** One due handle fires: it leaves the queue and [Tabs.build] runs. *)
Definition fire (w : World) (h : nat) (st : State) : State :=
  Tabs_build w (set_timers (clearTimeout h (timers st)) st).

Definition due (t : nat) (p : nat * nat) : bool := bool_decide (p.2 ≤ t)%nat.

(** One millisecond passes; the handles that are due fire in the order in
    which they were armed.  The result also lists the times at which
    [Tabs.build] was run. *)
Definition tick (w : World) (st : State) : State * list nat :=
  let tm := timers st in
  let t := S (now tm) in
  let st1 := set_timers (mkTimers t (next_handle tm) (pending tm)) st in
  let hs := (filter (λ p, due t p = true) (pending tm)).*1 in
  (foldl (λ s h, if bool_decide (h ∈ (pending (timers s)).*1)
                 then fire w h s else s) st1 hs,
   (λ _, t) <$> hs).

(** What the side panel is fed: a millisecond of silence, an event whose
    handler is [Tabs.delayRebuild] ([chrome.tabs.onMoved] and the like),
    or the end of a drag. *)
Inductive Input :=
  | Tick
  | Request
  | TabDragEnd (tabId : Z)
  | GroupDragEnd (groupId : Z).

Definition step (w : nat → World) (st : State) (i : Input) : State * list nat :=
  match i with
  | Tick => tick (w (now (timers st))) st
  | Request => (Tabs_delayRebuild st, [])
  | TabDragEnd tabId => (DnD_dragEnd tabId st, [])
  | GroupDragEnd groupId => (DnD_groupDragEnd groupId st, [])
  end.

Fixpoint run (w : nat → World) (st : State) (inputs : list Input)
  : State * list nat :=
  match inputs with
  | [] => (st, [])
  | i :: rest =>
      let '(st1, out1) := step w st i in
      let '(st2, out2) := run w st1 rest in
      (st2, out1 ++ out2)
  end.

(** ** ContextMenu: bulk close *)

(** What a bulk close ends in: [chrome.tabs.remove(ids)] at once, or
    [CloseConfirm.show(ids)]. *)
Inductive CloseOutcome :=
  | tabs_remove (ids : list Z)
  | CloseConfirm_show (ids : list Z).

Definition ContextMenu_showCloseConfirm (tabIds : list Z) : CloseOutcome :=
  if bool_decide (10 < length tabIds)%nat then CloseConfirm_show tabIds
  else tabs_remove tabIds.

(** [ContextMenu.stepOne]: the tab id of the [.context-focus] element. *)
Definition ContextMenu_stepOne (focusedElement : option TabNode) : option Z :=
  tn_id <$> focusedElement.

(** [tabs.find((tab) => tab.id === tabId)]. *)
Fixpoint find_live (tabId : Z) (tabs : list Tab) : option Tab :=
  match tabs with
  | [] => None
  | tab :: rest =>
      if bool_decide (tab_id tab = tabId) then Some tab else find_live tabId rest
  end.

(** In each operation [tabs] is the answer to
    [chrome.tabs.query({ currentWindow: true })]; [None] is a [return]
    taken before anything is closed. *)
Definition ContextMenu_closeOthers (focusedElement : option TabNode)
    (tabs : list Tab) : option CloseOutcome :=
  match ContextMenu_stepOne focusedElement with
  | Some tabId =>
      if bool_decide (tabId = 0) then None
      else
        Some (ContextMenu_showCloseConfirm
                (tab_id <$> filter (λ tab, tab_id tab ≠ tabId
                                           ∧ tab_pinned tab = false) tabs))
  | None => None
  end.

Definition ContextMenu_closeLeft (focusedElement : option TabNode)
    (tabs : list Tab) : option CloseOutcome :=
  match ContextMenu_stepOne focusedElement with
  | Some tabId =>
      if bool_decide (tabId = 0) then None
      else
        match find_live tabId tabs with
        | Some selectedTab =>
            Some (ContextMenu_showCloseConfirm
                    (tab_id <$> filter (λ tab, tab_index tab < tab_index selectedTab
                                               ∧ tab_pinned tab = false) tabs))
        | None => None
        end
  | None => None
  end.

Definition ContextMenu_closeRight (focusedElement : option TabNode)
    (tabs : list Tab) : option CloseOutcome :=
  match ContextMenu_stepOne focusedElement with
  | Some tabId =>
      if bool_decide (tabId = 0) then None
      else
        match find_live tabId tabs with
        | Some selectedTab =>
            Some (ContextMenu_showCloseConfirm
                    (tab_id <$> filter (λ tab, tab_index selectedTab < tab_index tab
                                               ∧ tab_pinned tab = false) tabs))
        | None => None
        end
  | None => None
  end.

Definition ContextMenu_closeGroupAbove (focusedElement : option TabNode)
    (tabs : list Tab) : option CloseOutcome :=
  match focusedElement with
  | Some focused =>
      let tabId := tn_id focused in
      if bool_decide (tabId = 0) then None
      else
        let groupId := tn_group focused in
        if bool_decide (groupId = NoGroup) then None
        else
          match find_live tabId tabs with
          | Some selectedTab =>
              Some (ContextMenu_showCloseConfirm
                      (tab_id <$> filter (λ tab, tab_groupId tab = groupId
                                                 ∧ tab_index tab < tab_index selectedTab
                                                 ∧ tab_pinned tab = false) tabs))
          | None => None
          end
  | None => None
  end.

Definition ContextMenu_closeGroupBelow (focusedElement : option TabNode)
    (tabs : list Tab) : option CloseOutcome :=
  match focusedElement with
  | Some focused =>
      let tabId := tn_id focused in
      if bool_decide (tabId = 0) then None
      else
        let groupId := tn_group focused in
        if bool_decide (groupId = NoGroup) then None
        else
          match find_live tabId tabs with
          | Some selectedTab =>
              Some (ContextMenu_showCloseConfirm
                      (tab_id <$> filter (λ tab, tab_groupId tab = groupId
                                                 ∧ tab_index selectedTab < tab_index tab
                                                 ∧ tab_pinned tab = false) tabs))
          | None => None
          end
  | None => None
  end.

(** ** Groups: the other registry handlers *)

(** [Groups.init], once [chrome.tabGroups.query({})] has answered. *)
Definition Groups_init (allGroups : list Group) (st : State) : State :=
  set_cache (foldl (λ c group, <[grp_id group := group]> c) ∅ allGroups) st.

Definition Groups_onCreated (group : Group) (st : State) : State :=
  set_cache (<[grp_id group := group]> (cache st)) st.

(** [Groups.updateColor], [Groups.updateTitle] and the [collapse] class,
    as [Groups.onUpdated] applies them to the group item. *)
Definition mirror_group (group : Group) (g : GroupNode) : GroupNode :=
  mkGroupNode (gn_id g) (grp_color group) (Groups_updateTitle (grp_title group))
              (grp_collapsed group) (gn_mark g) (gn_header g) (gn_body g).

Definition Groups_onUpdated (group : Group) (st : State) : State :=
  let st1 := set_cache (<[grp_id group := group]> (cache st)) st in
  if bool_decide (grp_windowId group ≠ WindowId st1) then st1
  else if negb (has_group (grp_id group) (mainList st1)) then st1
  else set_mainList
         (alter_group (grp_id group) (mirror_group group) (mainList st1)) st1.

Definition Groups_onMoved (group : Group) (st : State) : State :=
  if bool_decide (grp_windowId group = WindowId st) then Tabs_delayRebuild st
  else st.

(** ** ContextMenu and Groups: the closes that ask no confirmation *)

(** [ContextMenu.closeSelf]. *)
Definition ContextMenu_closeSelf (focusedElement : option TabNode)
  : option CloseOutcome :=
  match ContextMenu_stepOne focusedElement with
  | Some tabId =>
      if bool_decide (tabId = 0) then None else Some (tabs_remove [tabId])
  | None => None
  end.

(** [ContextMenu.closeGroupByTabMenu]. *)
Definition ContextMenu_closeGroupByTabMenu (focusedElement : option TabNode)
    (tabs : list Tab) : option CloseOutcome :=
  match focusedElement with
  | Some focused =>
      let groupId := tn_group focused in
      if bool_decide (groupId = NoGroup) then None
      else Some (tabs_remove
                   (tab_id <$> filter (λ tab, tab_groupId tab = groupId) tabs))
  | None => None
  end.

(** [Groups.onCloseClick] on the close icon of the group [groupId]. *)
Definition Groups_onCloseClick (groupId : Z) (tabs : list Tab)
  : option CloseOutcome :=
  let tabsToClose := tab_id <$> filter (λ tab, tab_groupId tab = groupId) tabs in
  if bool_decide (0 < length tabsToClose)%nat then Some (tabs_remove tabsToClose)
  else None.

End Build.

(** * Vocabulary of the properties *)

(** [chrome.tabGroups.get(id)] answers with the group of that id. *)
Definition host_consistent (w : World) : Prop :=
  ∀ g grp, w_group w g = Some grp → grp_id grp = g.

(** The registry has nothing for [g]: not cached, and the host throws. *)
Definition registry_miss (w : World) (c : gmap Z Group) (g : Z) : Prop :=
  c !! g = None ∧ w_group w g = None.

(** A debounced rebuild is armed: the handle kept in
    [Tabs.delayTimeoutId] is pending and due 400ms from now. *)
Definition rebuild_scheduled (st : State) : Prop :=
  (delayTimeoutId st, (now (timers st) + rebuildDelay)%nat) ∈ pending (timers st).

(** While the loop runs, [currentGroupElement] is the body of a group item
    of the container whenever [lastGroupId] has been set. *)
Definition cursor_ok (acc : list Node) (cur : option nat) (last : option Z)
  : Prop :=
  (∀ g, last = Some g → is_Some cur)
  ∧ (∀ i, cur = Some i → ∃ g, acc !! i = Some (NGroup g)).

(** The only handle ever pending is the one kept in [Tabs.delayTimeoutId]. *)
Definition single_handle (st : State) : Prop :=
  ∀ p, p ∈ pending (timers st) → p.1 = delayTimeoutId st.

(** Exactly one rebuild is pending, due at [d]. *)
Definition armed (st : State) (d : nat) : Prop :=
  pending (timers st) = [(delayTimeoutId st, d)].

(** [N = 1 + length gaps] requests, each [g < 400] ms after the one
    before, followed by 400 ms of silence. *)
Definition burst (gaps : list nat) : list Input :=
  Request :: (gaps ≫= λ g, replicate g Tick ++ [Request])
          ++ replicate rebuildDelay Tick.

(** What happens between the start and the end of a group drag: the
    pointer enters and leaves drop zones, and the group may be dropped.
    An event is delivered only to an element of the document.  A drop
    that puts the group item into the body of another group leaves a DOM
    that the tree type does not hold; the session is then followed on
    the tree as it was before that drop. *)
Inductive DragStep :=
  | Enter (z : Zone)
  | Leave (z : Zone)
  | Drop (z : Zone).

Definition group_drag_step (NoGroup : Z) (w : World) (api : Host)
    (groupId : Z) (st : State) (s : DragStep) : State :=
  match s with
  | Enter z => DnD_dragEnter z st
  | Leave z => DnD_dragLeave z st
  | Drop z =>
      if zone_exists z (mainList st)
      then default st (DnD_drop NoGroup w api (Some (drag_group groupId)) z st).1
      else st
  end.

Definition group_drag_session (NoGroup : Z) (w : World) (api : Host)
    (groupId : Z) (steps : list DragStep) (st : State) : State :=
  DnD_groupDragEnd groupId
    (foldl (group_drag_step NoGroup w api groupId)
           (DnD_groupDragStart_frame (DnD_groupDragStart groupId st)) steps).

(** Per group item: its id, whether it has class [collapse], and whether
    it carries [dataset.collapse]. *)
Definition gstate (g : GroupNode) : Z * bool * bool :=
  (gn_id g, gn_collapse g, gn_mark g).

Definition gstates (l : list Node) : list (Z * bool * bool) :=
  gstate <$> group_nodes l.

Definition collapse_state (l : list Node) : list (Z * bool) :=
  (λ g, (gn_id g, gn_collapse g)) <$> group_nodes l.

Definition mark_state (l : list Node) : list (Z * bool) :=
  (λ g, (gn_id g, gn_mark g)) <$> group_nodes l.

(** No drop-zone or drag-over marker, no [dataset.collapse], and the
    node is not the synthetic drop zone. *)
Definition tab_unmarked (t : TabNode) : Prop :=
  tn_drop_zone t = false ∧ tn_drag_over t = false.

Definition node_unmarked (n : Node) : Prop :=
  match n with
  | NTab t => tab_unmarked t
  | NGroup g =>
      h_drop_zone (gn_header g) = false ∧ h_drag_over (gn_header g) = false
      ∧ gn_mark g = false ∧ Forall tab_unmarked (gn_body g)
  | NFake => False
  end.

(** The drop target is a child of the main list. *)
Definition at_root (target : Ref) (l : list Node) : Prop :=
  Exists (λ n, node_ref n = target) l.

(** State of a group item after [DnD.groupDragStart], after the frame
    callback, and after [DnD.groupDragEnd]. *)
Definition gstate_start (s : Z * bool * bool) : Z * bool * bool :=
  let '(id, c, m) := s in (id, c, if c then true else m).

Definition gstate_frame (s : Z * bool * bool) : Z * bool * bool :=
  let '(id, c, m) := s in (id, true, m).

Definition gstate_end (s : Z * bool * bool) : Z * bool * bool :=
  let '(id, c, m) := s in (id, if m then c else false, false).




Definition close_ids (o : CloseOutcome) : list Z :=
  match o with
  | tabs_remove ids => ids
  | CloseConfirm_show ids => ids
  end.


(** [new] sits right before the child of the main list that holds the
    [k]-th tab item: the item itself, or the group around it. *)
Definition inserted_before_holder (k : nat) (new : Node) (l l' : list Node)
  : Prop :=
  ∃ pre x post,
    l = pre ++ x :: post
    ∧ (length (flat_tabs pre) ≤ k
       < length (flat_tabs pre) + length (node_tabs x))%nat
    ∧ l' = pre ++ new :: x :: post.

(** [new] sits right after the [k]-th tab item, under the same parent. *)
Definition inserted_after (k : nat) (new : TabNode) (l l' : list Node) : Prop :=
  ∃ pre x post,
    l = pre ++ x :: post
    ∧ (length (flat_tabs pre) ≤ k
       < length (flat_tabs pre) + length (node_tabs x))%nat
    ∧ match x with
      | NTab prev => l' = pre ++ NTab prev :: NTab new :: post
      | NGroup g =>
          let j := (k - length (flat_tabs pre))%nat in
          l' = pre ++ NGroup (set_body (take (S j) (gn_body g)
                                        ++ new :: drop (S j) (gn_body g)) g)
                   :: post
      | NFake => False
      end.

(** The grouped case is taken up only when the group is rendered and the
    tab item at [index - 1] is tagged with the same group. *)
Definition neighbour_in_group (tab : Tab) (l : list Node) : Prop :=
  has_group (tab_groupId tab) l = true
  ∧ ∃ prev, flat_get l (tab_index tab - 1) = Some prev
            ∧ tn_group prev = tab_groupId tab.

(** The calls of a tab drop in the order the specification gives them:
    ungroup or group first, then the move, then the rebuild. *)
Definition spec_tab_drop_calls (tabId newIndex : Z) (ungroup : bool)
    (targetGroupId : option Z) : list Op :=
  (if ungroup then [tabs_ungroup [tabId]]
   else match targetGroupId with
        | Some g => [tabs_group (Some g) [tabId]]
        | None => []
        end)
  ++ [tabs_move tabId newIndex; full_rebuild].

(** Case analysis on what the host answers to each remaining call. *)
Local Ltac run_calls :=
  cbn;
  repeat match goal with
         | |- context [match ?api ?h ?op with Some _ => _ | None => _ end] =>
             destruct (api h op)
         end;
  try done.

(** What [DnD.moveTab] decides from the tree after the optimistic move. *)
Definition drop_on_group (dropTarget : Ref) : bool :=
  match dropTarget with RGroup _ => true | _ => false end.

Definition drop_exits_group (dropTarget : Ref) (tabId : Z) (l1 : list Node)
  : bool :=
  negb (drop_on_group dropTarget) && negb (Groups_isInGroup dropTarget l1)
  && Groups_isAfterGroup tabId l1.

Definition drop_joins_group (dropTarget : Ref) (l1 : list Node) : option Z :=
  match dropTarget with
  | RTab d =>
      if Groups_isInGroup dropTarget l1
      then tn_group <$> find_tab d (flat_tabs l1)
      else None
  | _ => None
  end.

(** At most one rebuild is pending, and its handle is the one kept in
    [Tabs.delayTimeoutId]. *)
Definition tidy (st : State) : Prop :=
  pending (timers st) = [] ∨ ∃ d, armed st d.

(** No ungrouped tab sits between two tabs of one group. *)
Definition runs_unbroken (NoGroup : Z) (tabs : list Tab) : Prop :=
  ∀ i j k ti tj tk,
    (i < j < k)%nat →
    tabs !! i = Some ti → tabs !! j = Some tj → tabs !! k = Some tk →
    tab_groupId ti ≠ NoGroup → tab_groupId tk = tab_groupId ti →
    tab_groupId tj ≠ NoGroup.

(** Once the loop has passed an ungrouped tab, [lastGroupId] does not come
    back. *)
Definition last_not_back (NoGroup : Z) (last : option Z) (tabs : list Tab)
  : Prop :=
  ∀ g j k tj tk,
    last = Some g → (j < k)%nat →
    tabs !! j = Some tj → tabs !! k = Some tk →
    tab_groupId tj = NoGroup → tab_groupId tk ≠ g.

(** [currentGroupElement] is the body of the last child of the container. *)
Definition cursor_at_end (acc : list Node) (cur : option nat) : Prop :=
  ∃ pre g, acc = pre ++ [NGroup g] ∧ cur = Some (length pre).

(** The registry files every group under its own id. *)
Definition cache_consistent (c : gmap Z Group) : Prop :=
  ∀ k g, c !! k = Some g → grp_id g = k.

(** A tab item at the top level is tagged as ungrouped; a tab item in a
    group body is tagged with the id of that group; no group is empty. *)
Definition node_contained (NoGroup : Z) (n : Node) : Prop :=
  match n with
  | NTab t => tn_group t = NoGroup
  | NGroup g =>
      gn_body g ≠ []
      ∧ Forall (λ t, tn_group t = gn_id g ∧ tn_group t ≠ NoGroup) (gn_body g)
  | NFake => True
  end.

(** The host's window once the tab [tabId] is gone. *)
Definition world_without (tabId : Z) (w : World) : World :=
  mkWorld (w_windowId w) (filter (λ tab, tab_id tab ≠ tabId) (w_tabs w))
          (w_group w).

(** Which nodes the main list has and which tab items each holds. *)
Definition skeleton (l : list Node) : list (Ref * list Z) :=
  (λ n, (node_ref n, tn_id <$> node_tabs n)) <$> l.

(** Where in the flat order the top-level child that holds the [k]-th tab
    item begins. *)
Fixpoint holder_start (k : nat) (l : list Node) : nat :=
  match l with
  | [] => 0
  | NTab t :: rest =>
      match k with
      | O => 0
      | S k' => S (holder_start k' rest)
      end
  | NGroup g :: rest =>
      if bool_decide (k < length (gn_body g))%nat then 0%nat
      else (length (gn_body g) + holder_start (k - length (gn_body g)) rest)%nat
  | NFake :: rest => holder_start k rest
  end.

(** The flat order with one more item at position [i]. *)
Definition placed_at (i : nat) (new : TabNode) (F : list TabNode)
  : list TabNode :=
  take i F ++ new :: drop i F.

(** The conditions under which [DnD.drop] returns before moving
    anything: no drag payload, the dragged element is gone, it is its own
    drop target, or the drop target is already its next sibling. *)
Definition drop_ignored (d : option DragId) (z : Zone) (l : list Node) : Prop :=
  match d with
  | None => True
  | Some d =>
      ref_exists (drag_ref d) l = false
      ∨ drag_ref d = zone_target z
      ∨ next_sibling (drag_ref d) l = Some (zone_target z)
  end.

(** A computation that only adds host calls to the trace, never a
    rebuild. *)
Definition host_calls_only {A} (m : Eff A) : Prop :=
  ∀ h, ∃ ops, (m h).1 = h ++ ops ∧ full_rebuild ∉ ops.

(** What happens between the start and the end of a tab drag. *)
Definition tab_drag_step (NoGroup : Z) (w : World) (api : Host)
    (tabId : Z) (st : State) (s : DragStep) : State :=
  match s with
  | Enter z => DnD_dragEnter z st
  | Leave z => DnD_dragLeave z st
  | Drop z =>
      if zone_exists z (mainList st)
      then default st (DnD_drop NoGroup w api (Some (drag_tab tabId)) z st).1
      else st
  end.

Definition tab_drag_session (NoGroup : Z) (w : World) (api : Host)
    (tabId : Z) (steps : list DragStep) (st : State) : State :=
  DnD_dragEnd tabId
    (foldl (tab_drag_step NoGroup w api tabId)
           (DnD_dragStart_frame (DnD_dragStart tabId st)) steps).

(** The pointer only passes over drop zones; nothing is dropped. *)
Definition is_hover (s : DragStep) : Prop :=
  match s with Drop _ => False | _ => True end.

(** A tree outside any drag: no dragging, drop-zone or drag-over class
    and no synthetic drop zone. *)
Definition tab_clean (t : TabNode) : Prop :=
  tn_dragging t = false ∧ tn_drop_zone t = false ∧ tn_drag_over t = false.

Definition node_clean (n : Node) : Prop :=
  match n with
  | NTab t => tab_clean t
  | NGroup g =>
      h_drop_zone (gn_header g) = false ∧ h_drag_over (gn_header g) = false
      ∧ Forall tab_clean (gn_body g)
  | NFake => False
  end.

(** The tree with the classes of a tab drag and the synthetic drop zone
    taken away. *)
Definition erase_tab (t : TabNode) : TabNode := set_tab_marks false false false t.

Definition erase_group (g : GroupNode) : GroupNode :=
  mkGroupNode (gn_id g) (gn_color g) (gn_title g) (gn_collapse g) (gn_mark g)
              (mkHeader (h_dragging (gn_header g)) (h_collapse (gn_header g))
                        false false)
              (erase_tab <$> gn_body g).

Definition erase (l : list Node) : list Node :=
  l ≫= λ n, match n with
            | NTab t => [NTab (erase_tab t)]
            | NGroup g => [NGroup (erase_group g)]
            | NFake => []
            end.

(** Only the tab item that the drag picked up may carry the dragging
    class. *)
Definition only_dragged (tabId : Z) (L : list TabNode) : Prop :=
  Forall (λ t, tn_dragging t = false)
         (alter_tab_in tabId
            (λ t, set_tab_marks false (tn_drop_zone t) (tn_drag_over t) t) L).

(** The tab item that [Tabs.onUpdated] leaves in place of [t]. *)
Definition onUpdated_patch (changeInfo : ChangeInfo) (tab : Tab) (t : TabNode)
  : TabNode :=
  mkTabNode (tn_id t)
            (default (tn_group t) (ci_groupId changeInfo))
            (tn_active t)
            (match ci_pinned changeInfo with
             | Some _ => tab_pinned tab
             | None => tn_pin t
             end)
            (if truthy (ci_title changeInfo)
                || (truthy (ci_url changeInfo) && truthy (Some (tab_title tab)))
             then tab_title tab else tn_title t)
            (tn_dragging t) (tn_drop_zone t) (tn_drag_over t).

(** The tree shows the tabs of the window: a full rebuild has been
    executed on what the host answers. *)
Definition shows_window (w : World) (st : State) : Prop :=
  flat_tabs (mainList st) ≡ₚ Tabs_createTab <$> w_tabs w.


(** * A sample window *)

(** Four tabs, the two in the middle in a blue group: the scenario of the
    specification, [T1, G1{T2, T3}, T4]. *)
Definition ex_tab (id index groupId : Z) : Tab :=
  mkTab id 1 index groupId false false "tab".

Definition ex_G1 : Group := mkGroup 7 1 "work" "blue" false.

Definition ex_world : World :=
  mkWorld 1 [ex_tab 1 0 (-1); ex_tab 2 1 7; ex_tab 3 2 7; ex_tab 4 3 (-1)]
          (λ g, if bool_decide (g = 7) then Some ex_G1 else None).

(** The same window when the host no longer knows the group. *)
Definition ex_world_stale : World :=
  mkWorld 1 (w_tabs ex_world) (λ _, None).

(** The side panel after [Tabs.init], before the first build. *)
Definition ex_init : State := mkState 0 [] ∅ false None 0 (mkTimers 0 1 []).

Definition ex_built : State := Tabs_build (-1) ex_world ex_init.

(** The group item of G1 in [ex_built]. *)
Definition ex_G1_node : GroupNode :=
  set_body [Tabs_createTab (ex_tab 2 1 7); Tabs_createTab (ex_tab 3 2 7)]
           (Groups_createGroup ex_G1).

(** The side panel after the host has reported G1 removed. *)
Definition ex_ungrouped : State := Groups_onRemoved ex_G1 ex_built.

(** A host that accepts every call; [chrome.tabs.group] answers 99. *)
Definition ok_host : Host :=
  λ _ op, match op with tabs_group _ _ => Some 99 | _ => Some 0 end.

(** Mid-drag, one millisecond before the debounce timer is due. *)
Definition ex_dragging : State :=
  mkState 1 (mainList ex_built) (cache ex_built) true (Some false) 1
          (mkTimers 399 2 [(1%nat, 400%nat)]).

(** The side panel in the middle of a drag, its main list not yet built. *)
Definition ex_init_dragging : State :=
  mkState 1 [] ∅ true (Some false) 0 (mkTimers 0 1 []).

(** * Properties *)

(** ** Full build: all or nothing *)

Lemma Groups_get_miss w c g :
  registry_miss w c g → Groups_get w g c = (c, None).
Proof. intros [Hc Hw]. unfold Groups_get. by rewrite Hc, Hw. Qed.

Lemma Groups_get_hit w c g :
  ¬ registry_miss w c g → ∃ c' grp, Groups_get w g c = (c', Some grp).
Proof.
  intros Hm. unfold Groups_get.
  destruct (c !! g) as [grp|] eqn:Hc; [by eauto|].
  destruct (w_group w g) as [grp|] eqn:Hw; [by eauto|].
  destruct Hm. by split.
Qed.

Lemma Groups_get_keeps_miss w c c' g g' r :
  host_consistent w → Groups_get w g' c = (c', r) →
  registry_miss w c g → registry_miss w c' g.
Proof.
  intros Hw. unfold Groups_get.
  destruct (c !! g') as [grp|] eqn:Hc; [by intros [= <- <-]|].
  destruct (w_group w g') as [grp|] eqn:Hg; [|by intros [= <- <-]].
  intros [= <- <-] [Hmc Hmw]. split; [|done].
  apply Hw in Hg as Hid. rewrite lookup_insert_ne; [done|].
  intros Heq. rewrite Hid in Heq. congruence.
Qed.

Lemma Groups_get_keeps_hit w c c' g g' r :
  Groups_get w g' c = (c', r) →
  ¬ registry_miss w c g → ¬ registry_miss w c' g.
Proof.
  unfold Groups_get.
  destruct (c !! g') as [grp|] eqn:Hc; [by intros [= <- <-]|].
  destruct (w_group w g') as [grp|] eqn:Hg; [|by intros [= <- <-]].
  intros [= <- <-] Hn [Hmc Hmw]. apply Hn. split; [|done].
  destruct (decide (grp_id grp = g)) as [Heq|Hne].
  - by rewrite Heq, lookup_insert_eq in Hmc.
  - by rewrite lookup_insert_ne in Hmc.
Qed.

Lemma Groups_get_resolves w c c' g grp :
  Groups_get w g c = (c', Some grp) → ¬ registry_miss w c g.
Proof.
  unfold Groups_get. intros H [Hc Hw]. rewrite Hc, Hw in H. congruence.
Qed.

Section BuildFacts.

Variable NoGroup : Z.
Variable w : World.

Lemma build_loop_miss tabs : ∀ c acc cur last,
  host_consistent w →
  (∀ g, last = Some g → ¬ registry_miss w c g) →
  Exists (λ tab, tab_groupId tab ≠ NoGroup
                 ∧ registry_miss w c (tab_groupId tab)) tabs →
  (build_loop NoGroup w tabs c acc cur last).2 = None.
Proof.
  induction tabs as [|tab rest IH]; intros c acc cur last Hw Hlast Hex.
  { by apply Exists_nil in Hex. }
  simpl. case_bool_decide as Hg.
  - case_bool_decide as Hl.
    + destruct (Groups_get w (tab_groupId tab) c) as [c' [info|]] eqn:Hget;
        [|done].
      apply Exists_cons in Hex as [[_ Hmiss]|Hex].
      { rewrite Groups_get_miss in Hget by done. congruence. }
      apply IH; [done| |].
      * intros g [= <-].
        eapply Groups_get_keeps_hit; [done|].
        by eapply Groups_get_resolves.
      * eapply Exists_impl; [done|]. intros tab' [? ?]. split; [done|].
        by eapply Groups_get_keeps_miss.
    + apply Exists_cons in Hex as [[_ Hmiss]|Hex].
      { by destruct (Hlast _ Hl). }
      destruct cur; by apply IH.
  - apply Exists_cons in Hex as [[Hne _]|Hex]; [done|]. by apply IH.
Qed.

Lemma build_loop_hit tabs : ∀ c acc cur last,
  Forall (λ tab, tab_groupId tab ≠ NoGroup
                 → ¬ registry_miss w c (tab_groupId tab)) tabs →
  ∃ c' l, build_loop NoGroup w tabs c acc cur last = (c', Some l).
Proof.
  induction tabs as [|tab rest IH]; intros c acc cur last Hall; [by eauto|].
  apply Forall_cons in Hall as [Hhd Hall].
  simpl. case_bool_decide as Hg.
  - case_bool_decide as Hl.
    + destruct (Groups_get_hit w c _ (Hhd Hg)) as (c' & grp & Hget).
      rewrite Hget. apply IH.
      eapply Forall_impl; [done|]. intros tab' Hn Hne.
      eapply Groups_get_keeps_hit; [done|]. by apply Hn.
    + destruct cur; by apply IH.
  - by apply IH.
Qed.

End BuildFacts.

Lemma flat_tabs_app l1 l2 : flat_tabs (l1 ++ l2) = flat_tabs l1 ++ flat_tabs l2.
Proof. unfold flat_tabs. by rewrite bind_app. Qed.

Lemma flat_tabs_cons n l : flat_tabs (n :: l) = node_tabs n ++ flat_tabs l.
Proof. done. Qed.

Lemma flat_tabs_append_to_body tn acc : ∀ i g,
  acc !! i = Some (NGroup g) →
  flat_tabs (alter (append_to_body tn) i acc) ≡ₚ flat_tabs acc ++ [tn].
Proof.
  induction acc as [|n acc IH]; intros [|i] g Hi; simplify_eq/=.
  - rewrite <- !(assoc_L (++)). apply Permutation_app_head, Permutation_app_comm.
  - rewrite <- (assoc_L (++)).
    apply Permutation_app_head. by eapply IH.
Qed.

Lemma cursor_ok_alter f acc cur last i :
  cursor_ok acc cur last →
  cursor_ok (alter (append_to_body f) i acc) cur last.
Proof.
  intros [H1 H2]. split; [done|]. intros j Hj.
  destruct (H2 j Hj) as [g Hg].
  destruct (decide (i = j)) as [->|Hne].
  - rewrite list_lookup_alter_eq, Hg. simpl. eauto.
  - rewrite list_lookup_alter_ne by done. eauto.
Qed.

Lemma build_loop_tabs NoGroup w tabs : ∀ c acc cur last c' l,
  cursor_ok acc cur last →
  build_loop NoGroup w tabs c acc cur last = (c', Some l) →
  flat_tabs l ≡ₚ flat_tabs acc ++ (Tabs_createTab <$> tabs).
Proof.
  induction tabs as [|tab rest IH]; intros c acc cur last c' l Hok; simpl.
  { intros [= <- <-]. by rewrite app_nil_r. }
  case_bool_decide as Hg.
  - case_bool_decide as Hl.
    + destruct (Groups_get w (tab_groupId tab) c) as [c1 [info|]] eqn:Hget;
        [|done].
      intros Hb. apply IH in Hb.
      * rewrite Hb.
        rewrite (flat_tabs_append_to_body _ _ _ (Groups_createGroup info)).
        -- rewrite flat_tabs_app. simpl.
           rewrite !app_nil_r, <- (assoc_L (++)). done.
        -- by rewrite lookup_app_r, Nat.sub_diag.
      * split; [by eauto|]. intros i [= <-].
        eexists. rewrite list_lookup_alter_eq.
        by rewrite lookup_app_r, Nat.sub_diag.
    + destruct Hok as [H1 H2]. destruct (H1 _ Hl) as [i ->].
      destruct (H2 i eq_refl) as [g Hi].
      intros Hb. apply IH in Hb; [|by apply cursor_ok_alter].
      rewrite Hb, (flat_tabs_append_to_body _ _ _ g Hi).
      by rewrite <- (assoc_L (++)).
  - intros Hb. apply IH in Hb.
    + rewrite Hb, flat_tabs_app. simpl. by rewrite <- (assoc_L (++)).
    + destruct Hok as [H1 H2]. split; [done|]. intros i Hi.
      destruct (H2 i Hi) as [g Hgi]. exists g.
      by apply lookup_app_l_Some.
Qed.

Lemma Tabs_delayRebuild_scheduled st : rebuild_scheduled (Tabs_delayRebuild st).
Proof.
  unfold rebuild_scheduled, Tabs_delayRebuild. simpl.
  apply elem_of_app. right. by apply list_elem_of_singleton.
Qed.

(** C3. A build that is not suppressed by a drag either aborts or
    replaces: when the registry has nothing for the group of some tab of
    the window, the main list is left exactly as it was and a debounced
    rebuild is armed; when every referenced group resolves, the main list
    becomes the newly built container, which holds one tab item for each
    tab of the window, and no timer is touched. *)
Theorem Tabs_build_abort_or_replace (NoGroup : Z) (w : World) (st : State) :
  dragging st = false →
  host_consistent w →
  (Exists (λ tab, tab_groupId tab ≠ NoGroup
                  ∧ registry_miss w (cache st) (tab_groupId tab)) (w_tabs w) →
   mainList (Tabs_build NoGroup w st) = mainList st
   ∧ rebuild_scheduled (Tabs_build NoGroup w st))
  ∧ (Forall (λ tab, tab_groupId tab ≠ NoGroup
                    → ¬ registry_miss w (cache st) (tab_groupId tab)) (w_tabs w) →
     ∃ l, (build_loop NoGroup w (w_tabs w) (cache st) [] None None).2 = Some l
          ∧ mainList (Tabs_build NoGroup w st) = l
          ∧ timers (Tabs_build NoGroup w st) = timers st
          ∧ delayTimeoutId (Tabs_build NoGroup w st) = delayTimeoutId st
          ∧ flat_tabs l ≡ₚ Tabs_createTab <$> w_tabs w).
Proof.
  intros Hdrag Hw. unfold Tabs_build. rewrite Hdrag. simpl. split.
  - intros Hex.
    pose proof (build_loop_miss NoGroup w (w_tabs w) (cache st) [] None None
                  Hw ltac:(done) Hex) as Hnone.
    destruct (build_loop NoGroup w (w_tabs w) (cache st) [] None None)
      as [c' [l|]]; [done|].
    split; [done|]. apply Tabs_delayRebuild_scheduled.
  - intros Hall.
    destruct (build_loop_hit NoGroup w (w_tabs w) (cache st) [] None None Hall)
      as (c' & l & Hb).
    rewrite Hb. exists l. repeat split; try done.
    apply build_loop_tabs in Hb; [done|].
    split; [done|]. done.
Qed.

(** ** Debounce *)

Lemma filter_all_out {A} (P : A → Prop) `{∀ x, Decision (P x)} (l : list A) :
  (∀ x, x ∈ l → ¬ P x) → filter P l = [].
Proof.
  induction l as [|x l IH]; intros Hall; [done|].
  rewrite filter_cons_False by (apply Hall; left).
  apply IH. intros y Hy. apply Hall. by right.
Qed.

Lemma Tabs_delayRebuild_armed st :
  single_handle st →
  armed (Tabs_delayRebuild st) (now (timers st) + rebuildDelay)
  ∧ now (timers (Tabs_delayRebuild st)) = now (timers st).
Proof.
  intros Hs. unfold armed, Tabs_delayRebuild. simpl. split; [|done].
  rewrite filter_all_out; [done|].
  intros p Hp Hne. by apply Hne, Hs.
Qed.

Lemma armed_single_handle st d : armed st d → single_handle st.
Proof.
  unfold armed, single_handle. intros -> p Hp.
  by apply list_elem_of_singleton in Hp as ->.
Qed.

Section Loop.

Variable NoGroup : Z.

Lemma tick_idle w st d :
  armed st d → (S (now (timers st)) < d)%nat →
  armed (tick NoGroup w st).1 d
  ∧ now (timers (tick NoGroup w st).1) = S (now (timers st))
  ∧ (tick NoGroup w st).2 = [].
Proof.
  intros Ha Hlt. unfold tick. rewrite Ha. simpl.
  rewrite filter_cons_False; [|unfold due; simpl; case_bool_decide; [lia|done]].
  rewrite filter_nil. simpl. by rewrite <- Ha.
Qed.

Lemma tick_fires w st d :
  armed st d → (d ≤ S (now (timers st)))%nat →
  (tick NoGroup w st).2 = [S (now (timers st))].
Proof.
  intros Ha Hle. unfold tick. rewrite Ha. simpl.
  rewrite filter_cons_True; [|unfold due; simpl; case_bool_decide; [done|lia]].
  by rewrite filter_nil.
Qed.

Lemma run_cons w st i rest :
  run NoGroup w st (i :: rest) =
  ((run NoGroup w (step NoGroup w st i).1 rest).1,
   (step NoGroup w st i).2 ++ (run NoGroup w (step NoGroup w st i).1 rest).2).
Proof.
  cbn [run]. destruct (step NoGroup w st i) as [st1 o1]. cbn [fst snd].
  by destruct (run NoGroup w st1 rest).
Qed.

Lemma run_app w st i1 i2 :
  run NoGroup w st (i1 ++ i2) =
  ((run NoGroup w (run NoGroup w st i1).1 i2).1,
   (run NoGroup w st i1).2 ++ (run NoGroup w (run NoGroup w st i1).1 i2).2).
Proof.
  revert st. induction i1 as [|i i1 IH]; intros st.
  { cbn [app run fst snd]. by destruct (run NoGroup w st i2). }
  rewrite <- app_comm_cons, !run_cons, IH. cbn [fst snd].
  by rewrite (assoc_L (++)).
Qed.

Lemma run_idle w n : ∀ st d,
  armed st d → (now (timers st) + n < d)%nat →
  armed (run NoGroup w st (replicate n Tick)).1 d
  ∧ now (timers (run NoGroup w st (replicate n Tick)).1)
    = (now (timers st) + n)%nat
  ∧ (run NoGroup w st (replicate n Tick)).2 = [].
Proof.
  induction n as [|n IH]; intros st d Ha Hlt.
  { cbn [replicate run fst snd]. by rewrite Nat.add_0_r. }
  cbn [replicate]. rewrite run_cons. cbn [fst snd step].
  destruct (tick_idle (w (now (timers st))) st d Ha ltac:(lia))
    as (Ha1 & Hn1 & ->).
  destruct (IH _ d Ha1 ltac:(lia)) as (Ha2 & Hn2 & ->).
  repeat split; [done|lia].
Qed.

Lemma run_until_due w st n :
  armed st (now (timers st) + S n) →
  (run NoGroup w st (replicate (S n) Tick)).2 = [(now (timers st) + S n)%nat].
Proof.
  intros Ha. rewrite replicate_S_end, run_app. cbn [fst snd].
  destruct (run_idle w n st _ Ha ltac:(lia)) as (Ha1 & Hn1 & ->).
  rewrite run_cons. cbn [fst snd step run app].
  rewrite (tick_fires _ _ _ Ha1) by lia.
  rewrite Hn1, app_nil_r. f_equal. lia.
Qed.

Lemma run_quiet_period w st :
  armed st (now (timers st) + rebuildDelay) →
  (run NoGroup w st (replicate rebuildDelay Tick)).2
  = [(now (timers st) + rebuildDelay)%nat].
Proof. apply (run_until_due w st 399). Qed.

Lemma run_burst_tail w gaps : ∀ st,
  armed st (now (timers st) + rebuildDelay) →
  Forall (λ g, g < rebuildDelay)%nat gaps →
  (run NoGroup w st
       ((gaps ≫= λ g, replicate g Tick ++ [Request])
        ++ replicate rebuildDelay Tick)).2
  = [(now (timers st) + sum_list gaps + rebuildDelay)%nat].
Proof.
  induction gaps as [|g gaps IH]; intros st Ha Hall.
  { change (sum_list []) with 0%nat. cbn [mbind list_bind app].
    rewrite run_quiet_period by done. f_equal. lia. }
  apply Forall_cons in Hall as [Hg Hall].
  rewrite bind_cons, <- !(assoc_L (++)), run_app. cbn [fst snd].
  destruct (run_idle w g st _ Ha ltac:(lia)) as (Ha1 & Hn1 & ->).
  cbn [app]. rewrite run_cons. cbn [fst snd step app].
  destruct (Tabs_delayRebuild_armed _ (armed_single_handle _ _ Ha1))
    as [Ha2 Hn2].
  rewrite <- Hn2 in Ha2.
  rewrite (IH _ Ha2 Hall), Hn2, Hn1.
  change (sum_list (g :: gaps)) with (g + sum_list gaps)%nat. f_equal. lia.
Qed.

Lemma tick_idle_state w st d :
  armed st d → (S (now (timers st)) < d)%nat →
  (tick NoGroup w st).1
  = set_timers (mkTimers (S (now (timers st))) (next_handle (timers st))
                         (pending (timers st))) st.
Proof.
  intros Ha Hlt. unfold tick. rewrite Ha. cbn [pending fst].
  rewrite filter_cons_False; [|unfold due; simpl; case_bool_decide; [lia|done]].
  by rewrite filter_nil.
Qed.

Lemma tick_fire_state w st d :
  armed st d → (d ≤ S (now (timers st)))%nat →
  (tick NoGroup w st).1
  = Tabs_build NoGroup w
      (set_timers (mkTimers (S (now (timers st))) (next_handle (timers st)) [])
                  st).
Proof.
  intros Ha Hle. unfold tick. rewrite Ha. cbn [pending fst].
  rewrite filter_cons_True
    by (unfold due; cbn [snd]; rewrite bool_decide_true; [done|lia]).
  rewrite filter_nil. cbn [fmap list_fmap foldl fst].
  rewrite bool_decide_true by (cbn [timers set_timers pending]; set_solver).
  unfold fire. f_equal. unfold clearTimeout.
  cbn [timers set_timers now next_handle pending].
  rewrite filter_cons_False by (cbn; intros H; by apply H).
  by rewrite filter_nil.
Qed.

Lemma run_idle_exact w n : ∀ st d,
  armed st d → (now (timers st) + n < d)%nat →
  (run NoGroup w st (replicate n Tick)).1
  = set_timers (mkTimers (now (timers st) + n) (next_handle (timers st))
                         (pending (timers st))) st.
Proof.
  induction n as [|n IH]; intros st d Ha Hlt.
  { cbn [replicate run fst]. rewrite Nat.add_0_r. by destruct st as [? ? ? ? ? ? []]. }
  cbn [replicate]. rewrite run_cons. cbn [fst step].
  destruct (tick_idle (w (now (timers st))) st d Ha ltac:(lia))
    as (Ha1 & Hn1 & _).
  rewrite (IH _ d Ha1) by lia.
  rewrite (tick_idle_state _ st d) by (done || lia).
  replace (now (timers st) + S n)%nat with (S (now (timers st)) + n)%nat
    by lia.
  done.
Qed.

(** The state in which the timer callback finds the side panel: the
    fields of [st] other than the timers, at time [t] with nothing
    pending. *)
Lemma run_until_due_exact w st n :
  armed st (now (timers st) + S n) →
  (run NoGroup w st (replicate (S n) Tick)).1
  = Tabs_build NoGroup (w (now (timers st) + n)%nat)
      (set_timers (mkTimers (now (timers st) + S n) (next_handle (timers st)) [])
                  st).
Proof.
  intros Ha. rewrite replicate_S_end, run_app. cbn [fst].
  destruct (run_idle w n st _ Ha ltac:(lia)) as (Ha2 & Hn2 & _).
  rewrite run_cons. cbn [fst step run].
  rewrite (tick_fire_state _ _ _ Ha2) by lia.
  rewrite Hn2. f_equal.
  rewrite (run_idle_exact w n st _ Ha) by lia.
  replace (now (timers st) + S n)%nat with (S (now (timers st) + n))%nat
    by lia.
  done.
Qed.

Lemma run_burst_tail_state w gaps : ∀ st,
  armed st (now (timers st) + rebuildDelay) →
  Forall (λ g, g < rebuildDelay)%nat gaps →
  ∃ h nh,
    (run NoGroup w st
         ((gaps ≫= λ g, replicate g Tick ++ [Request])
          ++ replicate rebuildDelay Tick)).1
    = Tabs_build NoGroup (w (now (timers st) + sum_list gaps + 399)%nat)
        (mkState (WindowId st) (mainList st) (cache st) (dragging st)
                 (fakeBottom st) h
                 (mkTimers (now (timers st) + sum_list gaps + rebuildDelay)
                           nh [])).
Proof.
  induction gaps as [|g gaps IH]; intros st Ha Hall.
  { change (sum_list []) with 0%nat. cbn [mbind list_bind app].
    exists (delayTimeoutId st), (next_handle (timers st)).
    etrans; [exact (run_until_due_exact w st 399 Ha)|].
    unfold set_timers. rewrite !Nat.add_0_r. done. }
  apply Forall_cons in Hall as [Hg Hall].
  rewrite bind_cons, <- !(assoc_L (++)), run_app. cbn [fst].
  destruct (run_idle w g st _ Ha ltac:(lia)) as (Ha1 & Hn1 & _).
  pose proof (run_idle_exact w g st _ Ha ltac:(lia)) as Hst1.
  set (st1 := (run NoGroup w st (replicate g Tick)).1) in *.
  cbn [app]. rewrite run_cons. cbn [fst step].
  destruct (Tabs_delayRebuild_armed _ (armed_single_handle _ _ Ha1))
    as [Ha2 Hn2].
  rewrite <- Hn2 in Ha2.
  destruct (IH _ Ha2 Hall) as (h & nh & ->).
  exists h, nh. rewrite Hn2, Hn1.
  change (sum_list (g :: gaps)) with (g + sum_list gaps)%nat.
  replace (now (timers st) + g + sum_list gaps + 399)%nat
    with (now (timers st) + (g + sum_list gaps) + 399)%nat by lia.
  replace (now (timers st) + g + sum_list gaps + rebuildDelay)%nat
    with (now (timers st) + (g + sum_list gaps) + rebuildDelay)%nat by lia.
  f_equal. unfold Tabs_delayRebuild. rewrite Hst1. done.
Qed.

Lemma run_burst_fires w st gaps :
  single_handle st →
  Forall (λ g, g < rebuildDelay)%nat gaps →
  (run NoGroup w st (burst gaps)).2
  = [(now (timers st) + sum_list gaps + rebuildDelay)%nat].
Proof.
  intros Hs Hall. unfold burst. rewrite run_cons. cbn [fst snd step app].
  destruct (Tabs_delayRebuild_armed st Hs) as [Ha Hn].
  rewrite <- Hn in Ha.
  by rewrite (run_burst_tail w gaps _ Ha Hall), Hn.
Qed.

Lemma run_burst_state w st gaps :
  single_handle st →
  Forall (λ g, g < rebuildDelay)%nat gaps →
  ∃ h nh,
    (run NoGroup w st (burst gaps)).1
    = Tabs_build NoGroup (w (now (timers st) + sum_list gaps + 399)%nat)
        (mkState (WindowId st) (mainList st) (cache st) (dragging st)
                 (fakeBottom st) h
                 (mkTimers (now (timers st) + sum_list gaps + rebuildDelay)
                           nh [])).
Proof.
  intros Hs Hall. unfold burst. rewrite run_cons. cbn [fst step].
  destruct (Tabs_delayRebuild_armed st Hs) as [Ha Hn].
  rewrite <- Hn in Ha.
  destruct (run_burst_tail_state w gaps _ Ha Hall) as (h & nh & ->).
  exists h, nh. by rewrite Hn.
Qed.

(** C4, as the code has it.  With no timer pending other than the one
    kept in [Tabs.delayTimeoutId], a burst of [N >= 1] rebuild requests,
    each less than 400 ms after the one before, runs [Tabs.build] exactly
    once, 400 ms after the last request of the burst, on what the host
    answers at that moment and with nothing left pending.  That run is a
    full rebuild when no drag is in progress and every group of the
    window resolves: the tree then shows the tabs of the window.  During
    a drag the run returns at once and the tree stays as it was; when a
    group does not resolve the tree stays as it was and the timer is
    armed again. *)
Theorem debounce_coalesces_burst (w : nat → World) (st : State)
    (gaps : list nat) :
  single_handle st →
  Forall (λ g, g < 400)%nat gaps →
  let t := (now (timers st) + sum_list gaps + 400)%nat in
  let host := w (now (timers st) + sum_list gaps + 399)%nat in
  let st' := (run NoGroup w st (burst gaps)).1 in
  (run NoGroup w st (burst gaps)).2 = [t]
  ∧ (∃ h nh,
       st' = Tabs_build NoGroup host
               (mkState (WindowId st) (mainList st) (cache st) (dragging st)
                        (fakeBottom st) h (mkTimers t nh [])))
  ∧ (dragging st = false →
     Forall (λ tab, tab_groupId tab ≠ NoGroup
                    → ¬ registry_miss host (cache st) (tab_groupId tab))
            (w_tabs host) →
     shows_window host st' ∧ pending (timers st') = [])
  ∧ (dragging st = true →
     mainList st' = mainList st ∧ pending (timers st') = [])
  ∧ (dragging st = false → host_consistent host →
     Exists (λ tab, tab_groupId tab ≠ NoGroup
                    ∧ registry_miss host (cache st) (tab_groupId tab))
            (w_tabs host) →
     mainList st' = mainList st ∧ rebuild_scheduled st').
Proof.
  intros Hs Hall t host st'. change 400%nat with rebuildDelay in *.
  split; [by apply run_burst_fires|].
  destruct (run_burst_state w st gaps Hs Hall) as (h & nh & Hst).
  fold host in Hst. fold t in Hst. fold st' in Hst.
  split; [by exists h, nh|].
  clearbody st' host t. subst st'.
  unfold Tabs_build. cbn [dragging].
  split; [|split].
  - intros Hd Hhit. rewrite Hd. cbn [set_WindowId cache].
    destruct (build_loop_hit NoGroup host (w_tabs host) (cache st) [] None None
                Hhit) as (c' & l & Hb).
    rewrite Hb. unfold shows_window. cbn. split; [|done].
    apply build_loop_tabs in Hb; [done|]. split; [done|]. done.
  - intros Hd. by rewrite Hd.
  - intros Hd Hhost Hmiss. rewrite Hd. cbn [set_WindowId cache].
    pose proof (build_loop_miss NoGroup host (w_tabs host) (cache st) [] None
                  None Hhost ltac:(done) Hmiss) as Hnone.
    destruct (build_loop NoGroup host (w_tabs host) (cache st) [] None None)
      as [c' [l|]]; [done|].
    split; [done|]. apply Tabs_delayRebuild_scheduled.
Qed.

(** ** A rebuild that comes due during a drag *)

Lemma remove_fakeBottom_timers st : timers (remove_fakeBottom st) = timers st.
Proof. unfold remove_fakeBottom. by destruct (fakeBottom st). Qed.

Lemma tick_quiet w st :
  pending (timers st) = [] →
  pending (timers (tick NoGroup w st).1) = []
  ∧ mainList (tick NoGroup w st).1 = mainList st
  ∧ (tick NoGroup w st).2 = [].
Proof. intros Hp. unfold tick. by rewrite Hp. Qed.

Lemma step_quiet w st i :
  pending (timers st) = [] → i ≠ Request →
  pending (timers (step NoGroup w st i).1) = []
  ∧ (step NoGroup w st i).2 = [].
Proof.
  intros Hp Hi. destruct i; cbn [step fst snd]; try done.
  - by destruct (tick_quiet (w (now (timers st))) st Hp) as (? & _ & ?).
  - unfold DnD_dragEnd. by rewrite remove_fakeBottom_timers.
  - unfold DnD_groupDragEnd. by rewrite remove_fakeBottom_timers.
Qed.

Lemma run_quiet w inputs : ∀ st,
  pending (timers st) = [] → Forall (λ i, i ≠ Request) inputs →
  (run NoGroup w st inputs).2 = [].
Proof.
  induction inputs as [|i inputs IH]; intros st Hp Hall; [done|].
  apply Forall_cons in Hall as [Hi Hall]. rewrite run_cons. cbn [fst snd].
  destruct (step_quiet w st i Hp Hi) as [Hp1 ->].
  by rewrite IH.
Qed.

(** C10. When the debounce timer comes due while a drag is active,
    [Tabs.build] runs and returns at once: the main list is untouched and
    nothing is pending afterwards.  From then on no rebuild runs, through
    the end of the drag and any amount of silence, until some event asks
    for one again. *)
Theorem rebuild_lost_during_drag (w : nat → World) (st : State) (d : nat)
    (inputs : list Input) :
  dragging st = true →
  armed st d →
  (d ≤ S (now (timers st)))%nat →
  Forall (λ i, i ≠ Request) inputs →
  (step NoGroup w st Tick).2 = [S (now (timers st))]
  ∧ mainList (step NoGroup w st Tick).1 = mainList st
  ∧ dragging (step NoGroup w st Tick).1 = true
  ∧ pending (timers (step NoGroup w st Tick).1) = []
  ∧ (run NoGroup w (step NoGroup w st Tick).1 inputs).2 = [].
Proof.
  intros Hdrag Ha Hd Hall. cbn [step].
  assert (pending (timers (tick NoGroup (w (now (timers st))) st).1) = []
          ∧ mainList (tick NoGroup (w (now (timers st))) st).1 = mainList st
          ∧ dragging (tick NoGroup (w (now (timers st))) st).1 = true)
    as (Hp & Hl & Hdr).
  { unfold tick. rewrite Ha. cbn [pending fst snd].
    rewrite filter_cons_True by (unfold due; simpl; by case_bool_decide).
    rewrite filter_nil. cbn [fmap list_fmap foldl fst].
    rewrite bool_decide_true by (simpl; set_solver).
    unfold fire, Tabs_build, clearTimeout. simpl. rewrite Hdrag. simpl.
    by rewrite filter_cons_False, filter_nil by (intros H; by apply H). }
  repeat split; try done.
  - by apply (tick_fires _ _ d).
  - by apply run_quiet.
Qed.

(** ** The handle invariant *)

(** [single_handle] holds when the side panel starts and is kept by
    everything the event loop does. *)
Lemma single_handle_clearTimeout h st :
  single_handle st →
  single_handle (set_timers (clearTimeout h (timers st)) st).
Proof.
  intros Hs p Hp. cbn in Hp. apply list_elem_of_filter in Hp as [_ Hp].
  by apply Hs.
Qed.

Lemma single_handle_build w st :
  single_handle st → single_handle (Tabs_build NoGroup w st).
Proof.
  intros Hs. unfold Tabs_build. destruct (dragging st); [done|].
  destruct (build_loop NoGroup w (w_tabs w) _ [] None None) as [c' [l|]];
    [done|].
  eapply armed_single_handle, Tabs_delayRebuild_armed. done.
Qed.

Lemma single_handle_tick w st :
  single_handle st → single_handle (tick NoGroup w st).1.
Proof.
  intros Hs. unfold tick. cbn [fst].
  generalize ((filter (λ p, due (S (now (timers st))) p = true)
                      (pending (timers st))).*1).
  assert (single_handle
            (set_timers (mkTimers (S (now (timers st)))
                                  (next_handle (timers st))
                                  (pending (timers st))) st)) as Hs1 by done.
  revert Hs1.
  generalize (set_timers (mkTimers (S (now (timers st)))
                                   (next_handle (timers st))
                                   (pending (timers st))) st).
  intros s Hs1 hs. revert s Hs1.
  induction hs as [|h hs IH]; intros s Hs1; [done|].
  cbn [foldl]. apply IH. case_bool_decide; [|done].
  by apply single_handle_build, single_handle_clearTimeout.
Qed.

Lemma single_handle_step w st i :
  single_handle st → single_handle (step NoGroup w st i).1.
Proof.
  intros Hs. destruct i; cbn [step fst].
  - by apply single_handle_tick.
  - eapply armed_single_handle, Tabs_delayRebuild_armed. done.
  - unfold DnD_dragEnd, remove_fakeBottom. cbn.
    by destruct (fakeBottom st).
  - unfold DnD_groupDragEnd, remove_fakeBottom. cbn.
    by destruct (fakeBottom st).
Qed.

Lemma single_handle_run w inputs : ∀ st,
  single_handle st → single_handle (run NoGroup w st inputs).1.
Proof.
  induction inputs as [|i inputs IH]; intros st Hs; [done|].
  rewrite run_cons. cbn [fst]. by apply IH, single_handle_step.
Qed.

End Loop.

(** ** Group drag sessions *)

(** A map over the nodes that keeps tab items tab items, the drop zone
    the drop zone, and turns the state of a group item by [F]. *)
Lemma gstates_fmap (h : Node → Node) (F : Z * bool * bool → Z * bool * bool)
    (l : list Node) :
  (∀ t, ∃ t', h (NTab t) = NTab t') →
  h NFake = NFake →
  (∀ g, ∃ g', h (NGroup g) = NGroup g' ∧ gstate g' = F (gstate g)) →
  gstates (h <$> l) = F <$> gstates l.
Proof.
  intros Ht Hf Hg. unfold gstates, group_nodes.
  induction l as [|n l IH]; [done|].
  destruct n as [t|g|]; cbn [fmap list_fmap omap list_omap].
  - destruct (Ht t) as [t' ->]. exact IH.
  - destruct (Hg g) as (g' & -> & Hs). cbn. by rewrite Hs, <- IH.
  - rewrite Hf. exact IH.
Qed.

Lemma gstates_map_tabs f l : gstates (map_tabs f l) = gstates l.
Proof.
  unfold map_tabs. rewrite (gstates_fmap _ id).
  - by rewrite list_fmap_id.
  - by eauto.
  - done.
  - intros g. by eexists.
Qed.

Lemma gstates_map_groups f F l :
  (∀ g, gstate (f g) = F (gstate g)) →
  gstates (map_groups f l) = F <$> gstates l.
Proof.
  intros Hf. unfold map_groups. apply gstates_fmap; [by eauto|done|].
  intros g. by eexists.
Qed.

Lemma gstates_map_groups_id f l :
  (∀ g, gstate (f g) = gstate g) → gstates (map_groups f l) = gstates l.
Proof.
  intros Hf. rewrite (gstates_map_groups f id) by done. by rewrite list_fmap_id.
Qed.

Lemma gstates_alter_group id f l :
  (∀ g, gstate (f g) = gstate g) → gstates (alter_group id f l) = gstates l.
Proof.
  intros Hf. unfold gstates, group_nodes.
  induction l as [|[t|g|] l IH]; cbn; try done.
  case_bool_decide; cbn; by rewrite ?Hf, ?IH.
Qed.

Lemma gstates_alter_tab id f l : gstates (alter_tab id f l) = gstates l.
Proof.
  unfold gstates, group_nodes.
  induction l as [|[t|g|] l IH]; cbn; try done.
  - case_bool_decide; cbn; by rewrite ?IH.
  - case_bool_decide; cbn; by rewrite ?IH.
Qed.

Lemma gstates_without_fake l : gstates (without_fake l) = gstates l.
Proof.
  unfold gstates, group_nodes, without_fake.
  induction l as [|n l IH]; [done|].
  destruct n as [t|g|];
    [rewrite filter_cons_True by done
    |rewrite filter_cons_True by done
    |rewrite filter_cons_False by done];
    cbn [omap list_omap fmap list_fmap]; by rewrite ?IH.
Qed.

Lemma gstates_snoc_fake l : gstates (l ++ [NFake]) = gstates l.
Proof.
  unfold gstates, group_nodes. rewrite omap_app. cbn. by rewrite app_nil_r.
Qed.

Lemma gstates_add_drop_zone l : gstates (add_drop_zone l) = gstates l.
Proof.
  unfold add_drop_zone. by rewrite gstates_map_groups_id, gstates_map_tabs.
Qed.

Lemma gstates_strip_zones l : gstates (strip_zones l) = gstates l.
Proof.
  unfold strip_zones. by rewrite gstates_map_groups_id, gstates_map_tabs.
Qed.

Lemma at_root_tab id l :
  has_tab id l = true → Groups_isInGroup (RTab id) l = false →
  at_root (RTab id) l.
Proof.
  unfold has_tab, at_root. rewrite bool_decide_eq_true.
  induction l as [|n l IH]; cbn.
  { by intros ?%elem_of_nil. }
  intros Hin Hg. case_bool_decide as Hn; [by left|]. right.
  rewrite fmap_app, elem_of_app in Hin.
  destruct n as [t|g|]; cbn in *.
  - apply IH; [|done]. destruct Hin as [Hin|]; [|done].
    apply list_elem_of_singleton in Hin. congruence.
  - unfold in_body in Hg. case_bool_decide as Hb; [done|].
    apply IH; [|done]. by destruct Hin.
  - apply IH; [|done]. destruct Hin as [Hin|]; [|done].
    by apply elem_of_nil in Hin.
Qed.

Lemma at_root_group id l : has_group id l = true → at_root (RGroup id) l.
Proof.
  unfold has_group, at_root, group_nodes. rewrite bool_decide_eq_true.
  induction l as [|n l IH]; cbn.
  { by intros ?%elem_of_nil. }
  destruct n as [t|g|]; cbn.
  - intros Hin. right. by apply IH.
  - intros [->|Hin]%elem_of_cons; [by left|]. right. by apply IH.
  - intros Hin. right. by apply IH.
Qed.

Lemma at_root_fake l : existsb is_fake l = true → at_root RFake l.
Proof.
  unfold at_root. induction l as [|n l IH]; cbn; [done|].
  destruct n; cbn; intros H; (by left) || (right; by apply IH).
Qed.

Lemma at_root_remove_group target id l :
  at_root target l → target ≠ RGroup id → at_root target (remove_group id l).
Proof.
  unfold at_root. intros Hex Hne.
  induction l as [|n l IH]; [done|].
  apply Exists_cons in Hex as [Hn|Hex].
  - destruct n as [t|g|]; cbn in *; try by left.
    case_bool_decide; [congruence|by left].
  - destruct n as [t|g|]; cbn; try (right; by apply IH).
    case_bool_decide; [done|]. right. by apply IH.
Qed.

Lemma insert_node_before_perm target new l :
  at_root target l → insert_node_before target new l ≡ₚ new :: l.
Proof.
  unfold at_root. induction l as [|n l IH]; intros Hex.
  { by apply Exists_nil in Hex. }
  cbn. case_bool_decide as Hn; [done|].
  apply Exists_cons in Hex as [?|Hex]; [done|].
  rewrite IH by done. apply Permutation_swap.
Qed.

Lemma remove_group_perm id g l :
  find_group id (group_nodes l) = Some g →
  NGroup g :: remove_group id l ≡ₚ l.
Proof.
  unfold group_nodes. induction l as [|n l IH]; [done|].
  destruct n as [t|g'|]; cbn.
  - intros Hf. rewrite <- (IH Hf) at 2. apply Permutation_swap.
  - case_bool_decide; [by intros [= ->]|].
    intros Hf. rewrite <- (IH Hf) at 2. apply Permutation_swap.
  - intros Hf. rewrite <- (IH Hf) at 2. apply Permutation_swap.
Qed.

Lemma group_before_perm target id l l1 :
  group_before target id l = Some (placed l1) →
  ref_exists target l = true → target ≠ RGroup id →
  l1 ≡ₚ l.
Proof.
  unfold group_before. intros Hb Hex Hne.
  destruct (find_group id (group_nodes l)) as [g|] eqn:Hf; [|by simplify_eq].
  assert (at_root target l →
          insert_node_before target (NGroup g) (remove_group id l) ≡ₚ l) as Hp.
  { intros Hr. rewrite insert_node_before_perm
      by (by apply at_root_remove_group).
    by apply remove_group_perm. }
  destruct target as [tid|gid|]; cbn in Hex.
  - destruct (in_body tid g); [done|].
    destruct (Groups_isInGroup (RTab tid) l) eqn:Hin; simplify_eq.
    by apply Hp, at_root_tab.
  - case_bool_decide; [congruence|].
    simplify_eq. by apply Hp, at_root_group.
  - simplify_eq. by apply Hp, at_root_fake.
Qed.

Lemma Tabs_build_dragging NoGroup w st :
  dragging st = true → Tabs_build NoGroup w st = st.
Proof. intros H. unfold Tabs_build. by rewrite H. Qed.

Lemma moveGroup_while_dragging NoGroup w api id target st st' :
  dragging st = true →
  (DnD_moveGroup NoGroup w api id target st).1 = Some st' →
  dragging st' = true
  ∧ fakeBottom st' = fakeBottom st
  ∧ (mainList st' = mainList st
     ∨ group_before target id (mainList st) = Some (placed (mainList st'))).
Proof.
  intros Hd. unfold DnD_moveGroup.
  destruct (group_before target id (mainList st)) as [[l1|]|] eqn:Hb.
  - destruct (Groups_get w id (cache st)) as [c' info].
    repeat case_match; cbn [fst build_after_move]; intros [= <-];
      rewrite Tabs_build_dragging by done; cbn; eauto.
  - destruct (Groups_get w id (cache st)) as [c' info].
    repeat case_match; cbn [fst build_after_move]; done.
  - cbn [fst]. intros [= <-]. rewrite Tabs_build_dragging by done. eauto.
Qed.

Lemma set_over_gstates b z st :
  gstates (mainList (set_over b z st)) = gstates (mainList st)
  ∧ dragging (set_over b z st) = dragging st
  ∧ (is_Some (fakeBottom st) → is_Some (fakeBottom (set_over b z st))).
Proof.
  destruct z as [id|gid|]; cbn -[gstates alter_tab alter_group].
  - by rewrite gstates_alter_tab.
  - by rewrite gstates_alter_group.
  - destruct (fakeBottom st) eqn:Hf; cbn; rewrite ?Hf; repeat split; eauto.
Qed.

Lemma group_drag_step_keeps NoGroup w api id st s :
  dragging st = true → is_Some (fakeBottom st) →
  dragging (group_drag_step NoGroup w api id st s) = true
  ∧ is_Some (fakeBottom (group_drag_step NoGroup w api id st s))
  ∧ gstates (mainList (group_drag_step NoGroup w api id st s))
    ≡ₚ gstates (mainList st).
Proof.
  intros Hd Hf. destruct s as [z|z|z]; cbn [group_drag_step].
  - unfold DnD_dragEnter.
    destruct (set_over_gstates true z st) as (-> & -> & Hfb). eauto.
  - unfold DnD_dragLeave.
    destruct (set_over_gstates false z st) as (-> & -> & Hfb). eauto.
  - destruct (zone_exists z (mainList st)) eqn:Hz; [|done].
    unfold DnD_drop. cbn [drag_ref].
    destruct (negb (ref_exists (RGroup id) (mainList st))); [done|].
    case_bool_decide as Hself; cbn [orb]; [done|].
    case_bool_decide as Hnext; [done|].
    destruct (DnD_moveGroup NoGroup w api id (zone_target z) st).1
      as [st'|] eqn:Hmove; [|done].
    change (default st (Some st')) with st'.
    destruct (moveGroup_while_dragging NoGroup w api id (zone_target z) st st'
                Hd Hmove) as (Hd' & Hf' & Hl).
    split; [done|]. split; [by rewrite Hf'|].
    destruct Hl as [->|Hb]; [done|].
    apply group_before_perm in Hb; [|done|congruence].
    unfold gstates, group_nodes. by rewrite Hb.
Qed.

Lemma group_drag_steps_keep NoGroup w api id steps : ∀ st,
  dragging st = true → is_Some (fakeBottom st) →
  is_Some (fakeBottom (foldl (group_drag_step NoGroup w api id) st steps))
  ∧ gstates (mainList (foldl (group_drag_step NoGroup w api id) st steps))
    ≡ₚ gstates (mainList st).
Proof.
  induction steps as [|s steps IH]; intros st Hd Hf; [done|].
  cbn [foldl].
  destruct (group_drag_step_keeps NoGroup w api id st s Hd Hf)
    as (Hd1 & Hf1 & Hp1).
  destruct (IH _ Hd1 Hf1) as [Hf2 Hp2].
  split; [done|]. by rewrite Hp2.
Qed.

Lemma groupDragStart_gstates id st :
  gstates (mainList (DnD_groupDragStart id st))
  = gstate_start <$> gstates (mainList st).
Proof.
  unfold DnD_groupDragStart. cbn -[gstates alter_group add_drop_zone map_groups].
  rewrite (gstates_map_groups _ gstate_start)
    by (intros g; unfold gstate, gstate_start;
        destruct (gn_collapse g) eqn:Hc; cbn; by rewrite ?Hc).
  by rewrite gstates_add_drop_zone, gstates_alter_group.
Qed.

Lemma groupDragStart_frame_gstates st :
  gstates (mainList (DnD_groupDragStart_frame st))
  = gstate_frame <$> gstates (mainList st).
Proof.
  unfold DnD_groupDragStart_frame, DnD_insertFakeBottom.
  cbn -[gstates without_fake map_groups].
  rewrite gstates_snoc_fake, gstates_without_fake.
  by apply gstates_map_groups.
Qed.

Lemma groupDragEnd_gstates id st :
  is_Some (fakeBottom st) →
  gstates (mainList (DnD_groupDragEnd id st))
  = gstate_end <$> gstates (mainList st).
Proof.
  intros [f Hf]. unfold DnD_groupDragEnd, remove_fakeBottom.
  cbn -[gstates without_fake map_groups strip_zones alter_group].
  rewrite Hf. cbn -[gstates without_fake map_groups strip_zones alter_group].
  rewrite gstates_without_fake.
  rewrite (gstates_map_groups _ gstate_end)
    by (intros g; unfold gstate, gstate_end;
        destruct (gn_mark g) eqn:Hm; cbn; by rewrite ?Hm).
  by rewrite gstates_strip_zones, gstates_alter_group.
Qed.

Lemma groupDragEnd_unmarked id st :
  is_Some (fakeBottom st) →
  Forall node_unmarked (mainList (DnD_groupDragEnd id st)).
Proof.
  intros [f Hf]. unfold DnD_groupDragEnd, remove_fakeBottom.
  cbn -[without_fake map_groups strip_zones alter_group].
  rewrite Hf. cbn -[without_fake map_groups strip_zones alter_group].
  unfold without_fake, strip_zones, map_groups, map_tabs.
  apply Forall_forall. intros n [Hnf Hn]%list_elem_of_filter.
  apply list_elem_of_fmap in Hn as (n1 & -> & Hn).
  apply list_elem_of_fmap in Hn as (n2 & -> & Hn).
  apply list_elem_of_fmap in Hn as (n3 & -> & Hn).
  destruct n3 as [t|g|]; cbn in *; [done| |done].
  assert (Forall tab_unmarked
            ((λ t, set_tab_marks (tn_dragging t) false false t) <$> gn_body g)).
  { apply Forall_fmap, Forall_true. done. }
  destruct (gn_mark g) eqn:Hm;
    (split; [done|split; [done|split; [by cbn|exact H]]]).
Qed.

Lemma groupDragEnd_dragging id st : dragging (DnD_groupDragEnd id st) = false.
Proof.
  unfold DnD_groupDragEnd, remove_fakeBottom. cbn.
  by destruct (fakeBottom st).
Qed.

Lemma collapse_state_gstates l :
  collapse_state l = (λ s, (s.1.1, s.1.2)) <$> gstates l.
Proof. unfold collapse_state, gstates. by rewrite <- list_fmap_compose. Qed.

Lemma mark_state_gstates l :
  mark_state l = (λ s, (s.1.1, s.2)) <$> gstates l.
Proof. unfold mark_state, gstates. by rewrite <- list_fmap_compose. Qed.

Lemma no_marks_gstates l :
  Forall (λ g, gn_mark g = false) (group_nodes l) →
  Forall (λ s, s.2 = false) (gstates l).
Proof. intros H. unfold gstates. by apply Forall_fmap. Qed.

(** ** Marks left by earlier drags *)

(** No group item carries [dataset.collapse] when it is created, so a
    tree that [Tabs.build] installs carries none. *)
Lemma group_nodes_append_to_body tn i acc :
  Forall (λ g, gn_mark g = false) (group_nodes acc) →
  Forall (λ g, gn_mark g = false)
         (group_nodes (alter (append_to_body tn) i acc)).
Proof.
  unfold group_nodes. revert i.
  induction acc as [|n acc IH]; intros i Hall; [by destruct i|].
  destruct i as [|i]; cbn.
  - destruct n as [t|g|]; cbn in *; try done.
    apply Forall_cons in Hall as [Hg Hall]. by constructor.
  - destruct n as [t|g|]; cbn in *; try by apply IH.
    apply Forall_cons in Hall as [Hg Hall]. constructor; [done|by apply IH].
Qed.

Lemma build_loop_no_marks NoGroup w tabs : ∀ c acc cur last c' l,
  Forall (λ g, gn_mark g = false) (group_nodes acc) →
  build_loop NoGroup w tabs c acc cur last = (c', Some l) →
  Forall (λ g, gn_mark g = false) (group_nodes l).
Proof.
  induction tabs as [|tab rest IH]; intros c acc cur last c' l Hall; cbn.
  { by intros [= <- <-]. }
  case_bool_decide.
  - case_bool_decide.
    + destruct (Groups_get w (tab_groupId tab) c) as [c1 [info|]]; [|done].
      apply IH, group_nodes_append_to_body.
      unfold group_nodes. rewrite omap_app. apply Forall_app. split; [done|].
      by repeat constructor.
    + destruct cur; [|by apply IH].
      by apply IH, group_nodes_append_to_body.
  - apply IH. unfold group_nodes. rewrite omap_app. apply Forall_app.
    by split.
Qed.

Lemma Tabs_build_no_marks NoGroup w st :
  Forall (λ g, gn_mark g = false) (group_nodes (mainList st)) →
  Forall (λ g, gn_mark g = false)
         (group_nodes (mainList (Tabs_build NoGroup w st))).
Proof.
  intros Hall. unfold Tabs_build. destruct (dragging st); [done|].
  destruct (build_loop NoGroup w (w_tabs w) _ [] None None) as [c' [l|]] eqn:Hb;
    [|done].
  cbn. by eapply build_loop_no_marks; [|exact Hb].
Qed.

(** C9. A group drag session on a tree that carries no [dataset.collapse]
    from before: the start records exactly the groups that are collapsed
    and the frame callback collapses every group; whatever is hovered or
    dropped in between and whatever the host answers, the end clears the
    session flag, leaves no drop-zone or drag-over marker, no
    [dataset.collapse] and no synthetic drop zone, and every group has
    the collapsed state it had before the drag. *)
Theorem group_drag_session_restores (NoGroup : Z) (w : World) (api : Host)
    (groupId : Z) (steps : list DragStep) (st : State) :
  Forall (λ g, gn_mark g = false) (group_nodes (mainList st)) →
  mark_state (mainList (DnD_groupDragStart groupId st))
  = collapse_state (mainList st)
  ∧ Forall (λ g, gn_collapse g = true)
      (group_nodes
         (mainList (DnD_groupDragStart_frame (DnD_groupDragStart groupId st))))
  ∧ dragging (DnD_groupDragStart_frame (DnD_groupDragStart groupId st)) = true
  ∧ dragging (group_drag_session NoGroup w api groupId steps st) = false
  ∧ Forall node_unmarked
      (mainList (group_drag_session NoGroup w api groupId steps st))
  ∧ collapse_state (mainList (group_drag_session NoGroup w api groupId steps st))
    ≡ₚ collapse_state (mainList st).
Proof.
  intros Hm%no_marks_gstates.
  set (started := DnD_groupDragStart groupId st).
  set (mid := DnD_groupDragStart_frame started).
  assert (dragging mid = true) as Hd by done.
  assert (is_Some (fakeBottom mid)) as Hf.
  { subst mid. unfold DnD_groupDragStart_frame, DnD_insertFakeBottom. cbn.
    by destruct (fakeBottom st); eauto. }
  destruct (group_drag_steps_keep NoGroup w api groupId steps mid Hd Hf)
    as [Hf' Hp].
  split; [|split; [|split; [done|split; [apply groupDragEnd_dragging|split]]]].
  - rewrite mark_state_gstates, collapse_state_gstates.
    subst started. rewrite groupDragStart_gstates, <- list_fmap_compose.
    apply Forall_fmap_ext. eapply Forall_impl; [exact Hm|].
    intros [[i c] m]; cbn. intros ->. by destruct c.
  - assert (Forall (λ s, s.1.2 = true) (gstates (mainList mid))) as Hall.
    { subst mid. rewrite groupDragStart_frame_gstates.
      apply Forall_fmap, Forall_true. by intros [[i c] m]. }
    unfold gstates in Hall. by apply Forall_fmap in Hall.
  - by apply groupDragEnd_unmarked.
  - unfold group_drag_session. fold started. fold mid.
    rewrite !collapse_state_gstates, groupDragEnd_gstates by done.
    rewrite Hp. subst mid started.
    rewrite groupDragStart_frame_gstates, groupDragStart_gstates.
    rewrite <- !list_fmap_compose.
    apply Permutation_refl'.
    apply Forall_fmap_ext. eapply Forall_impl; [exact Hm|].
    intros [[i c] m]; cbn. intros ->. by destruct c.
Qed.

(** ** Group removed *)

Lemma unwrap_group_split id l :
  has_group id l = true →
  ∃ pre g post,
    l = pre ++ NGroup g :: post
    ∧ gn_id g = id
    ∧ Forall (λ n, node_ref n ≠ RGroup id) pre
    ∧ unwrap_group id l = pre ++ (NTab <$> gn_body g) ++ post.
Proof.
  unfold has_group, group_nodes. rewrite bool_decide_eq_true.
  induction l as [|n l IH]; cbn.
  { by intros ?%elem_of_nil. }
  destruct n as [t|g|]; cbn.
  - intros (pre & g & post & -> & Hid & Hpre & Hu)%IH.
    exists (NTab t :: pre), g, post. rewrite Hu.
    repeat split; try done. by constructor.
  - case_bool_decide as Hg.
    + intros _. exists [], g, l. by repeat split.
    + intros [?|Hin]%elem_of_cons; [done|].
      destruct (IH Hin) as (pre & g' & post & -> & Hid & Hpre & Hu).
      exists (NGroup g :: pre), g', post. rewrite Hu.
      repeat split; try done. constructor; [|done]. cbn. congruence.
  - intros (pre & g & post & -> & Hid & Hpre & Hu)%IH.
    exists (NFake :: pre), g, post. rewrite Hu.
    repeat split; try done. by constructor.
Qed.

Lemma flat_tabs_fmap_NTab b : flat_tabs (NTab <$> b) = b.
Proof.
  induction b as [|t b IH]; [done|].
  rewrite fmap_cons, flat_tabs_cons. cbn [node_tabs app]. by rewrite IH.
Qed.

(** C7. When a removed group has a rendered group item, the handler
    drops the group from the registry cache and replaces the (first)
    group item, in place, by its tab items in their order; every node
    before and after it is kept as it is, the flat order of tab items is
    the same, and no rebuild is scheduled. *)
Theorem Groups_onRemoved_unwraps (group : Group) (st : State) :
  has_group (grp_id group) (mainList st) = true →
  ∃ pre g post,
    mainList st = pre ++ NGroup g :: post
    ∧ gn_id g = grp_id group
    ∧ Forall (λ n, node_ref n ≠ RGroup (grp_id group)) pre
    ∧ mainList (Groups_onRemoved group st) = pre ++ (NTab <$> gn_body g) ++ post
    ∧ flat_tabs (mainList (Groups_onRemoved group st)) = flat_tabs (mainList st)
    ∧ cache (Groups_onRemoved group st) = delete (grp_id group) (cache st)
    ∧ timers (Groups_onRemoved group st) = timers st
    ∧ delayTimeoutId (Groups_onRemoved group st) = delayTimeoutId st.
Proof.
  intros Hg. unfold Groups_onRemoved. cbn. rewrite Hg. cbn.
  destruct (unwrap_group_split _ _ Hg) as (pre & g & post & Hl & Hid & Hpre & Hu).
  exists pre, g, post. rewrite Hu. repeat split; try done.
  rewrite Hl, !flat_tabs_app, flat_tabs_cons. f_equal. f_equal.
  apply flat_tabs_fmap_NTab.
Qed.

(** ** Bulk close *)






(** ** Incremental insert *)

Lemma insert_before_flat_spec new l : ∀ k,
  (k < length (flat_tabs l))%nat →
  inserted_before_holder k new l (insert_before_flat k new l).
Proof.
  induction l as [|n l IH]; intros k Hk; [cbn in Hk; lia|].
  rewrite flat_tabs_cons, length_app in Hk.
  destruct n as [t|g|]; cbn [insert_before_flat node_tabs length] in *.
  - destruct k as [|k].
    + exists [], (NTab t), l. cbn. repeat split; lia || done.
    + destruct (IH k ltac:(lia)) as (pre & x & post & -> & Hr & ->).
      exists (NTab t :: pre), x, post. rewrite flat_tabs_cons. cbn.
      repeat split; lia || done.
  - case_bool_decide as Hb.
    + exists [], (NGroup g), l. cbn. repeat split; lia || done.
    + destruct (IH (k - length (gn_body g))%nat ltac:(lia))
        as (pre & x & post & -> & Hr & ->).
      exists (NGroup g :: pre), x, post.
      rewrite flat_tabs_cons, length_app. cbn.
      repeat split; lia || done.
  - destruct (IH k ltac:(lia)) as (pre & x & post & -> & Hr & ->).
    exists (NFake :: pre), x, post. rewrite flat_tabs_cons. cbn.
    repeat split; lia || done.
Qed.

Lemma insert_after_flat_spec new l : ∀ k,
  (k < length (flat_tabs l))%nat →
  inserted_after k new l (insert_after_flat k new l).
Proof.
  induction l as [|n l IH]; intros k Hk; [cbn in Hk; lia|].
  rewrite flat_tabs_cons, length_app in Hk.
  destruct n as [t|g|]; cbn [insert_after_flat node_tabs length] in *.
  - destruct k as [|k].
    + exists [], (NTab t), l. cbn. repeat split; lia || done.
    + destruct (IH k ltac:(lia)) as (pre & x & post & -> & Hr & Hx).
      exists (NTab t :: pre), x, post. rewrite flat_tabs_cons. cbn.
      repeat split; try lia || done.
      destruct x; [by rewrite Hx| |done]. by rewrite Hx.
  - case_bool_decide as Hb.
    + exists [], (NGroup g), l. cbn. rewrite Nat.sub_0_r.
      repeat split; lia || done.
    + destruct (IH (k - length (gn_body g))%nat ltac:(lia))
        as (pre & x & post & -> & Hr & Hx).
      exists (NGroup g :: pre), x, post.
      rewrite flat_tabs_cons, length_app. cbn.
      repeat split; try lia || done.
      destruct x; [by rewrite Hx| |done]. rewrite Hx. cbn.
      by rewrite Nat.sub_add_distr.
  - destruct (IH k ltac:(lia)) as (pre & x & post & -> & Hr & Hx).
    exists (NFake :: pre), x, post. rewrite flat_tabs_cons. cbn.
    repeat split; try lia || done.
    destruct x; [by rewrite Hx| |done]. by rewrite Hx.
Qed.

Lemma flat_get_Some l i t :
  flat_get l i = Some t → 0 ≤ i ∧ (Z.to_nat i < length (flat_tabs l))%nat.
Proof.
  unfold flat_get. case_bool_decide as Hi; [|done].
  intros Hl%lookup_lt_Some. done.
Qed.

Lemma flat_get_in_range l i :
  0 ≤ i < Z.of_nat (length (flat_tabs l)) → is_Some (flat_get l i).
Proof.
  intros [? ?]. unfold flat_get. rewrite bool_decide_true by done.
  apply lookup_lt_is_Some. lia.
Qed.

(** C5. Where [Tabs.insertTab] puts a new tab: an ungrouped tab whose
    index is the number of rendered tab items goes to the end of the main
    list; an ungrouped tab whose index holds a rendered tab item goes
    before that item, or before the group around it; a grouped tab goes
    right after the tab item at [index - 1], and only when that item is
    tagged with the same group (and the group is rendered); in every
    other case nothing is inserted and a debounced rebuild is armed. *)
Theorem Tabs_insertTab_policy (NoGroup : Z) (tab : Tab) (st : State) :
  let l := mainList st in
  let count := Z.of_nat (length (flat_tabs l)) in
  let new := Tabs_createTab tab in
  let st' := Tabs_insertTab NoGroup tab st in
  (tab_groupId tab = NoGroup → tab_index tab = count →
     st' = set_mainList (l ++ [NTab new]) st)
  ∧ (tab_groupId tab = NoGroup → 0 ≤ tab_index tab < count →
       inserted_before_holder (Z.to_nat (tab_index tab)) (NTab new) l
                              (mainList st')
       ∧ timers st' = timers st)
  ∧ (tab_groupId tab ≠ NoGroup → neighbour_in_group tab l →
       inserted_after (Z.to_nat (tab_index tab - 1)) new l (mainList st')
       ∧ timers st' = timers st)
  ∧ (tab_groupId tab ≠ NoGroup → mainList st' ≠ l → neighbour_in_group tab l)
  ∧ ((tab_groupId tab = NoGroup ∧ (tab_index tab < 0 ∨ count < tab_index tab))
     ∨ (tab_groupId tab ≠ NoGroup ∧ ¬ neighbour_in_group tab l) →
       st' = Tabs_delayRebuild st
       ∧ mainList st' = l ∧ rebuild_scheduled st').
Proof.
  intros l count new st'. subst st'. unfold Tabs_insertTab. fold l.
  assert (∀ s, s = Tabs_delayRebuild st →
               s = Tabs_delayRebuild st ∧ mainList s = l ∧ rebuild_scheduled s)
    as Hfall.
  { intros s ->. split; [done|]. split; [done|].
    apply Tabs_delayRebuild_scheduled. }
  assert (tab_groupId tab ≠ NoGroup → ¬ neighbour_in_group tab l →
          (if has_group (tab_groupId tab) l
           then match flat_get l (tab_index tab - 1) with
                | Some previousTab =>
                    if bool_decide (tn_group previousTab = tab_groupId tab)
                    then set_mainList
                           (insert_after_flat (Z.to_nat (tab_index tab - 1))
                                              (Tabs_createTab tab) l) st
                    else Tabs_delayRebuild st
                | None => Tabs_delayRebuild st
                end
           else Tabs_delayRebuild st) = Tabs_delayRebuild st) as Hno.
  { intros Hg Hn. unfold neighbour_in_group in Hn.
    destruct (has_group (tab_groupId tab) l); [|done].
    destruct (flat_get l (tab_index tab - 1)) as [prev|]; [|done].
    case_bool_decide; [|done]. destruct Hn. eauto. }
  split; [|split; [|split; [|split]]].
  - intros Hg Hi. by rewrite !bool_decide_true.
  - intros Hg Hi.
    rewrite bool_decide_true, bool_decide_false, bool_decide_true
      by (done || lia).
    destruct (flat_get_in_range l (tab_index tab) ltac:(done)) as [ref ->].
    split; [|done]. cbn. apply insert_before_flat_spec. lia.
  - intros Hg (Hhas & prev & Hp & Heq).
    rewrite bool_decide_false, Hhas, Hp, bool_decide_true by done.
    split; [|done]. cbn. apply insert_after_flat_spec.
    by apply flat_get_Some in Hp as [_ ?].
  - intros Hg Hch. rewrite bool_decide_false in Hch by done.
    unfold neighbour_in_group.
    destruct (has_group (tab_groupId tab) l) eqn:Hhas; [|done].
    destruct (flat_get l (tab_index tab - 1)) as [prev|] eqn:Hp; [|done].
    case_bool_decide; [|done]. eauto.
  - intros [[Hg Hi]|[Hg Hn]]; apply Hfall.
    + rewrite bool_decide_true, bool_decide_false by (done || lia).
      destruct Hi as [Hneg|Hbig].
      * rewrite bool_decide_true by lia. unfold flat_get.
        by rewrite bool_decide_false by lia.
      * by rewrite bool_decide_false by lia.
    + rewrite bool_decide_false by done. by apply Hno.
Qed.

(** ** Events about a tab whose node is gone *)

Lemma flat_ids_map_tabs f l :
  (∀ t, tn_id (f t) = tn_id t) →
  tn_id <$> flat_tabs (map_tabs f l) = tn_id <$> flat_tabs l.
Proof.
  intros Hf. unfold map_tabs.
  induction l as [|n l IH]; [done|].
  rewrite fmap_cons, !flat_tabs_cons, !fmap_app, IH. f_equal.
  destruct n as [t|g|]; cbn; [by rewrite Hf| |done].
  rewrite <- list_fmap_compose. apply list_fmap_ext. intros ? t _. apply Hf.
Qed.

Lemma has_tab_map_tabs f id l :
  (∀ t, tn_id (f t) = tn_id t) → has_tab id (map_tabs f l) = has_tab id l.
Proof. intros Hf. unfold has_tab. by rewrite flat_ids_map_tabs. Qed.

(** C6, as the code has it.  A tab-updated event of the current window
    for a tab without a rendered node does nothing but arm a debounced
    rebuild.  A tab-activated event of the current window for such a tab
    clears the active marker of every tab item and does nothing else: no
    timer is touched. *)
Theorem missing_node_events (tabId : Z) (changeInfo : ChangeInfo) (tab : Tab)
    (a : ActiveInfo) (st : State) :
  (tab_windowId tab = WindowId st → has_tab tabId (mainList st) = false →
     Tabs_onUpdated tabId changeInfo tab st = Tabs_delayRebuild st
     ∧ mainList (Tabs_onUpdated tabId changeInfo tab st) = mainList st
     ∧ rebuild_scheduled (Tabs_onUpdated tabId changeInfo tab st))
  ∧ (ai_windowId a = WindowId st → has_tab (ai_tabId a) (mainList st) = false →
       mainList (Tabs_onActivated a st)
       = map_tabs (set_active false) (mainList st)
       ∧ timers (Tabs_onActivated a st) = timers st
       ∧ delayTimeoutId (Tabs_onActivated a st) = delayTimeoutId st).
Proof.
  split.
  - intros Hw Hno. unfold Tabs_onUpdated.
    rewrite bool_decide_false by (by intros []). rewrite Hno. cbn.
    split; [done|]. split; [done|]. apply Tabs_delayRebuild_scheduled.
  - intros Hw Hno. unfold Tabs_onActivated.
    rewrite bool_decide_true by done.
    rewrite has_tab_map_tabs by done. by rewrite Hno.
Qed.

(** ** Tab drop *)

Lemma index_from_spec id l : ∀ i,
  0 ≤ i →
  (index_from id i l = -1 ∨ i ≤ index_from id i l)
  ∧ (i ≤ index_from id i l →
     ∃ t, l !! Z.to_nat (index_from id i l - i) = Some t ∧ tn_id t = id).
Proof.
  induction l as [|t l IH]; intros i Hi; cbn.
  { split; [by left|lia]. }
  case_bool_decide as Ht.
  - split; [right; lia|]. intros _. exists t.
    by rewrite Z.sub_diag.
  - destruct (IH (i + 1) ltac:(lia)) as [Hor Hfound]. split; [lia|].
    intros Hle. destruct Hor as [Hm|Hge]; [lia|].
    destruct (Hfound Hge) as (t' & Hl & Hid). exists t'. split; [|done].
    replace (Z.to_nat (index_from id (i + 1) l - i))
      with (S (Z.to_nat (index_from id (i + 1) l - (i + 1)))) by lia.
    done.
Qed.

(** [indexOf]: [-1], or the position of a tab item with that id. *)
Lemma index_of_tab_spec id l :
  index_of_tab id l = -1
  ∨ (0 ≤ index_of_tab id l
     ∧ ∃ t, flat_tabs l !! Z.to_nat (index_of_tab id l) = Some t ∧ tn_id t = id).
Proof.
  unfold index_of_tab.
  destruct (index_from_spec id (flat_tabs l) 0 ltac:(done))
    as [[Hm|Hge] Hfound]; [by left|].
  right. split; [done|]. destruct (Hfound Hge) as (t & Hl & Hid).
  exists t. by rewrite Z.sub_0_r in Hl.
Qed.

(** A drop that is not rejected is handed to [DnD.moveTab] or
    [DnD.moveGroup] with the resolved drop target. *)
Lemma DnD_drop_dispatch NoGroup w api d z st :
  ref_exists (drag_ref d) (mainList st) = true →
  drag_ref d ≠ zone_target z →
  next_sibling (drag_ref d) (mainList st) ≠ Some (zone_target z) →
  DnD_drop NoGroup w api (Some d) z st
  = match d with
    | drag_group n => DnD_moveGroup NoGroup w api n (zone_target z) st
    | drag_tab n =>
        (Some (DnD_moveTab NoGroup w api n (zone_target z) st).1,
         (DnD_moveTab NoGroup w api n (zone_target z) st).2)
    end.
Proof.
  intros He Hs Hn. unfold DnD_drop. rewrite He. cbn [negb].
  by rewrite !bool_decide_false by done.
Qed.

(** C1, as the code has it.  A tab drop moves the node first and takes
    the target index from the flat order of the tree after that move.
    The first call is move-to-index.  If it is rejected nothing else is
    called.  Otherwise ungroup follows when the drop target is a group
    item or the tab now sits right after a group item at the top level;
    else group-with follows when the drop target sits in a group body,
    with the (non-zero) group tag of the drop target; else nothing
    follows.  In every case the sequence ends with [Tabs.build]. *)
Theorem DnD_moveTab_calls (NoGroup : Z) (w : World) (api : Host) (tabId : Z)
    (dropTarget : Ref) (st : State) :
  let l1 := tab_before dropTarget tabId (mainList st) in
  let newIndex := index_of_tab tabId l1 in
  let move := tabs_move tabId newIndex in
  let calls := (DnD_moveTab NoGroup w api tabId dropTarget st).2 in
  (DnD_moveTab NoGroup w api tabId dropTarget st).1
  = Tabs_build NoGroup w (set_mainList l1 st)
  ∧ (newIndex = -1
     ∨ (0 ≤ newIndex
        ∧ ∃ t, flat_tabs l1 !! Z.to_nat newIndex = Some t ∧ tn_id t = tabId))
  ∧ (api [] move = None → calls = [move; full_rebuild])
  ∧ (is_Some (api [] move) →
     (drop_on_group dropTarget || drop_exits_group dropTarget tabId l1 = true →
        calls = [move; tabs_ungroup [tabId]; full_rebuild])
     ∧ (drop_on_group dropTarget || drop_exits_group dropTarget tabId l1 = false →
          (∀ g, drop_joins_group dropTarget l1 = Some g → g ≠ 0 →
                calls = [move; tabs_group (Some g) [tabId]; full_rebuild])
          ∧ (drop_joins_group dropTarget l1 = None
             ∨ drop_joins_group dropTarget l1 = Some 0 →
               calls = [move; full_rebuild]))).
Proof.
  intros l1 newIndex move calls.
  split; [done|]. split; [apply index_of_tab_spec|].
  subst calls. unfold DnD_moveTab. fold l1. fold newIndex. cbn [snd].
  unfold tab_drop_calls, try_catch, note, await, mbind, Eff_bind, mret, Eff_ret.
  fold move. cbn [app fst snd].
  split.
  - intros ->. done.
  - intros [r Hr]. rewrite Hr.
    unfold drop_exits_group, drop_joins_group, drop_on_group.
    destruct dropTarget as [d|gid|]; cbn [negb andb orb].
    + destruct (Groups_isInGroup (RTab d) l1) eqn:Hin; cbn [negb andb orb].
      * split; [done|]. intros _. split.
        -- intros g -> Hg. rewrite bool_decide_true by done. run_calls.
        -- intros [->| ->]; [done|].
           by rewrite bool_decide_false by (by intros []).
      * split.
        -- intros ->. run_calls.
        -- intros ->. split; [done|]. done.
    + split; [|done]. intros _. run_calls.
    + destruct (Groups_isInGroup RFake l1); cbn [negb andb orb].
      * split; [done|]. intros _. split; [done|]. done.
      * split.
        -- intros ->. run_calls.
        -- intros ->. split; [done|]. done.
Qed.

(** ** Group drop *)

Lemma index_from_app_notin id A B : ∀ i,
  id ∉ tn_id <$> A →
  index_from id i (A ++ B) = index_from id (i + Z.of_nat (length A)) B.
Proof.
  induction A as [|t A IH]; intros i Hn; cbn.
  { by rewrite Z.add_0_r. }
  rewrite fmap_cons, not_elem_of_cons in Hn. destruct Hn as [Ht Hn].
  rewrite bool_decide_false by done. rewrite IH by done. f_equal. lia.
Qed.

Lemma index_from_found id B : ∀ i,
  id ∈ tn_id <$> B → i ≤ index_from id i B.
Proof.
  induction B as [|t B IH]; intros i Hin; cbn.
  { by apply elem_of_nil in Hin. }
  case_bool_decide as Ht; [lia|].
  rewrite fmap_cons in Hin. apply elem_of_cons in Hin as [Hin|Hin]; [done|].
  specialize (IH (i + 1) Hin). lia.
Qed.

Lemma find_group_split id l g :
  find_group id (group_nodes l) = Some g → ∃ pre post, l = pre ++ NGroup g :: post.
Proof.
  unfold group_nodes. induction l as [|n l IH]; [done|].
  destruct n as [t|g'|]; cbn.
  - intros (pre & post & ->)%IH. by exists (NTab t :: pre), post.
  - case_bool_decide.
    + intros [= ->]. by exists [], l.
    + intros (pre & post & ->)%IH. by exists (NGroup g' :: pre), post.
  - intros (pre & post & ->)%IH. by exists (NFake :: pre), post.
Qed.

(** With unique ids, a tab item of the dragged group is never before the
    group's first tab item. *)
Lemma own_tab_not_earlier l id gid g :
  NoDup (tn_id <$> flat_tabs l) →
  find_group gid (group_nodes l) = Some g →
  in_body id g = true →
  0 ≤ group_oldIndex gid l ≤ index_of_tab id l.
Proof.
  intros Hnd Hf Hin. unfold group_oldIndex, first_tab_index. rewrite Hf.
  unfold in_body in Hin. apply bool_decide_eq_true in Hin.
  destruct (find_group_split _ _ _ Hf) as (pre & post & ->).
  destruct (gn_body g) as [|t0 rest] eqn:Hb.
  { by apply elem_of_nil in Hin. }
  unfold index_of_tab.
  rewrite flat_tabs_app, flat_tabs_cons in *. cbn [node_tabs] in *.
  rewrite Hb in *. rewrite fmap_app in Hnd.
  apply NoDup_app in Hnd as (_ & Hdisj & _).
  assert (∀ x, x ∈ tn_id <$> t0 :: rest → x ∉ tn_id <$> flat_tabs pre) as Hout.
  { intros x Hx Hpre. apply (Hdisj x Hpre).
    rewrite fmap_app, elem_of_app. by left. }
  rewrite (index_from_app_notin (tn_id t0))
    by (apply Hout; rewrite fmap_cons; left).
  rewrite (index_from_app_notin id) by (by apply Hout).
  cbn [app index_from]. rewrite bool_decide_true by done.
  split; [lia|].
  apply (index_from_found id (t0 :: rest ++ flat_tabs post)).
  rewrite app_comm_cons, fmap_app, elem_of_app. by left.
Qed.

Lemma for_each_moves (api : Host) (targetIndex : Z) (tabIds : list Z) : ∀ h,
  (∀ h op, is_Some (api h op)) →
  for_each (λ tabId, await api (tabs_move tabId targetIndex)) tabIds h
  = (h ++ ((λ tabId, tabs_move tabId targetIndex) <$> tabIds), Some tt).
Proof.
  induction tabIds as [|t ids IH]; intros h Hok; cbn.
  { by rewrite app_nil_r. }
  unfold mbind, Eff_bind, await.
  destruct (Hok h (tabs_move t targetIndex)) as [r ->].
  rewrite IH by done. by rewrite <- (assoc_L (++)).
Qed.

(** C2, as the code has it.  Positions are the flat indexes, before the
    move, of the group's first tab item and of the drop target (its first
    tab item when it is a group; [-1] past the last item).  A group that
    moves to a strictly earlier position is moved by one direct
    group-move call.  A group that moves to a strictly later position or
    past the last item, when the drop target is not one of its own tab
    items, the registry knows the group and the host accepts every call,
    is taken apart and put together again: ungroup the members, move each
    to the target index, group them, and give the new group the
    collapsed flag, colour and title of the old one.  A group dropped at
    its own position causes no call.  The sequence always ends with
    [Tabs.build]. *)
Theorem DnD_moveGroup_calls (NoGroup : Z) (w : World) (api : Host)
    (groupId : Z) (dropTarget : Ref) (st : State) (g : GroupNode) :
  NoDup (tn_id <$> flat_tabs (mainList st)) →
  find_group groupId (group_nodes (mainList st)) = Some g →
  let oldIndex := group_oldIndex groupId (mainList st) in
  let newIndex := group_newIndex dropTarget (mainList st) in
  let tabIds := tn_id <$> gn_body g in
  let targetIndex :=
    if bool_decide (newIndex = -1) then newIndex else newIndex - 1 in
  let calls := (DnD_moveGroup NoGroup w api groupId dropTarget st).2 in
  (0 ≤ newIndex < oldIndex →
     calls = [tabGroups_move groupId newIndex; full_rebuild])
  ∧ (newIndex = -1 ∨ oldIndex < newIndex →
     is_Some (group_before dropTarget groupId (mainList st)) →
     (∀ h op, is_Some (api h op)) →
     ∀ info, (Groups_get w groupId (cache st)).2 = Some info →
     ∃ newGroupId,
       api ([tabs_ungroup tabIds]
            ++ ((λ tabId, tabs_move tabId targetIndex) <$> tabIds))
           (tabs_group None tabIds) = Some newGroupId
       ∧ calls = [tabs_ungroup tabIds]
                 ++ ((λ tabId, tabs_move tabId targetIndex) <$> tabIds)
                 ++ [tabs_group None tabIds;
                     tabGroups_update newGroupId (grp_collapsed info)
                                      (grp_color info) (grp_title info);
                     full_rebuild])
  ∧ (newIndex = oldIndex → 0 ≤ oldIndex → calls = [full_rebuild])
  ∧ last calls = Some full_rebuild.
Proof.
  intros Hnd Hf oldIndex newIndex tabIds targetIndex calls.
  subst calls. unfold DnD_moveGroup. rewrite Hf.
  fold oldIndex. fold newIndex. fold tabIds.
  assert (group_before dropTarget groupId (mainList st) = None →
          0 ≤ oldIndex ≤ newIndex) as Hthrow.
  { unfold group_before. rewrite Hf.
    destruct dropTarget as [id|gid|]; [|by case_bool_decide|done].
    destruct (in_body id g) eqn:Hin; [|by destruct (Groups_isInGroup _ _)].
    intros _. by apply (own_tab_not_earlier _ id groupId g). }
  split; [|split; [|split]].
  - intros [H0 Hlt].
    destruct (group_before dropTarget groupId (mainList st)) as [p|] eqn:Hb;
      [|specialize (Hthrow eq_refl); lia].
    rewrite !bool_decide_false by lia. cbn [orb].
    rewrite bool_decide_true by lia. cbn [snd].
    unfold try_catch, note, await, mbind, Eff_bind, mret, Eff_ret. run_calls.
  - intros Hlater [p Hb] Hok info Hinfo. rewrite Hb.
    assert (bool_decide (newIndex = -1) || bool_decide (oldIndex < newIndex)
            = true) as ->.
    { destruct Hlater; [rewrite bool_decide_true by done
                       |rewrite (bool_decide_true (oldIndex < _)) by done];
        by rewrite ?orb_true_r. }
    destruct (Groups_get w groupId (cache st)) as [c' gi]. cbn in Hinfo.
    subst gi. cbn [snd].
    destruct (Hok ([tabs_ungroup tabIds]
                   ++ ((λ tabId, tabs_move tabId targetIndex) <$> tabIds))
                  (tabs_group None tabIds)) as [newGroupId Hnew].
    exists newGroupId. split; [done|].
    unfold group_recreate_calls, try_catch, note, mbind, Eff_bind.
    unfold await at 1. cbn [app].
    destruct (Hok [] (tabs_ungroup tabIds)) as [r0 ->].
    fold targetIndex. rewrite for_each_moves by done.
    unfold await at 1. rewrite Hnew.
    unfold await, mret, Eff_ret.
    destruct (Hok (([tabs_ungroup tabIds]
                    ++ ((λ tabId, tabs_move tabId targetIndex) <$> tabIds))
                   ++ [tabs_group None tabIds])
                  (tabGroups_update newGroupId (grp_collapsed info)
                                    (grp_color info) (grp_title info)))
      as [r1 Hr1].
    rewrite Hr1. cbn [fst snd].
    by rewrite <- !(assoc_L (++)).
  - intros Heq Hold.
    destruct (group_before dropTarget groupId (mainList st)) as [p|]; [|done].
    by rewrite !bool_decide_false by lia.
  - destruct (group_before dropTarget groupId (mainList st)) as [p|]; [|done].
    destruct (bool_decide (newIndex = -1) || bool_decide (oldIndex < newIndex)).
    + destruct (Groups_get w groupId (cache st)) as [c' gi].
      cbn [snd]. unfold note, mbind, Eff_bind, group_recreate_calls, try_catch.
      cbn [fst snd]. by rewrite last_snoc.
    + case_bool_decide; [|done]. cbn [snd].
      unfold note, mbind, Eff_bind, try_catch. cbn [fst snd].
      by rewrite last_snoc.
Qed.

(** * The properties on the sample window *)

Lemma ex_world_consistent : host_consistent ex_world.
Proof.
  intros g grp. cbn. case_bool_decide as Hg; [|done].
  intros [= <-]. by rewrite Hg.
Qed.

Lemma ex_world_stale_consistent : host_consistent ex_world_stale.
Proof. by intros g grp. Qed.

Lemma Tabs_build_abort_or_replace_witness :
  (mainList (Tabs_build (-1) ex_world_stale ex_ungrouped)
   = mainList ex_ungrouped
   ∧ rebuild_scheduled (Tabs_build (-1) ex_world_stale ex_ungrouped))
  ∧ ∃ l, (build_loop (-1) ex_world (w_tabs ex_world) (cache ex_init)
                     [] None None).2 = Some l
         ∧ mainList (Tabs_build (-1) ex_world ex_init) = l
         ∧ timers (Tabs_build (-1) ex_world ex_init) = timers ex_init
         ∧ delayTimeoutId (Tabs_build (-1) ex_world ex_init)
           = delayTimeoutId ex_init
         ∧ flat_tabs l ≡ₚ Tabs_createTab <$> w_tabs ex_world.
Proof.
  split.
  - apply (Tabs_build_abort_or_replace (-1) ex_world_stale ex_ungrouped);
      [reflexivity|exact ex_world_stale_consistent|].
    apply Exists_cons_tl, Exists_cons_hd. by split.
  - apply (Tabs_build_abort_or_replace (-1) ex_world ex_init);
      [reflexivity|exact ex_world_consistent|].
    repeat (apply List.Forall_cons;
            [intros Hne [_ Hw]; (discriminate Hw || by destruct Hne)|]).
    apply List.Forall_nil.
Defined.

Lemma debounce_coalesces_burst_witness :
  (run (-1) (λ _, ex_world) ex_init (burst [2; 5]%nat)).2 = [407%nat]
  ∧ shows_window ex_world
      (run (-1) (λ _, ex_world) ex_init (burst [2; 5]%nat)).1
  ∧ pending (timers (run (-1) (λ _, ex_world) ex_init
                         (burst [2; 5]%nat)).1) = [].
Proof.
  assert (single_handle ex_init) as Hs.
  { intros p Hp. by apply elem_of_nil in Hp. }
  assert (Forall (λ g, g < 400)%nat [2; 5]%nat) as Hg.
  { repeat constructor; cbv; lia. }
  split.
  - apply (debounce_coalesces_burst (-1) (λ _, ex_world) ex_init [2; 5]%nat
             Hs Hg).
  - apply (debounce_coalesces_burst (-1) (λ _, ex_world) ex_init [2; 5]%nat
             Hs Hg).
    + reflexivity.
    + repeat (apply List.Forall_cons;
              [intros Hne [_ Hw]; (discriminate Hw || by destruct Hne)|]).
      apply List.Forall_nil.
Defined.

(** C4, as stated, fails for a burst that falls into a drag: the timer
    fires once, 400 ms after the last request, and [Tabs.build] returns
    at once, so no rebuild is executed and the tree does not show the
    tabs of the window. *)
Lemma burst_during_drag_rebuilds_nothing :
  single_handle ex_init_dragging
  ∧ Forall (λ g, g < 400)%nat [2; 5]%nat
  ∧ (run (-1) (λ _, ex_world) ex_init_dragging (burst [2; 5]%nat)).2
    = [407%nat]
  ∧ mainList (run (-1) (λ _, ex_world) ex_init_dragging
                  (burst [2; 5]%nat)).1 = []
  ∧ ¬ shows_window ex_world
        (run (-1) (λ _, ex_world) ex_init_dragging (burst [2; 5]%nat)).1.
Proof.
  assert (single_handle ex_init_dragging) as Hs.
  { intros p Hp. by apply elem_of_nil in Hp. }
  assert (Forall (λ g, g < rebuildDelay)%nat [2; 5]%nat) as Hg.
  { repeat constructor; cbv; lia. }
  split; [done|]. split; [done|].
  split; [exact (run_burst_fires (-1) (λ _, ex_world) ex_init_dragging
                   [2; 5]%nat Hs Hg)|].
  destruct (run_burst_state (-1) (λ _, ex_world) ex_init_dragging [2; 5]%nat
              Hs Hg) as (h & nh & Hst).
  assert (mainList (run (-1) (λ _, ex_world) ex_init_dragging
                        (burst [2; 5]%nat)).1 = []) as Hl.
  { rewrite Hst. by rewrite Tabs_build_dragging. }
  split; [done|].
  unfold shows_window. rewrite Hl. intros Hp.
  apply Permutation_nil in Hp. discriminate Hp.
Qed.

Lemma rebuild_lost_during_drag_witness :
  (step (-1) (λ _, ex_world) ex_dragging Tick).2 = [400%nat]
  ∧ mainList (step (-1) (λ _, ex_world) ex_dragging Tick).1
    = mainList ex_dragging
  ∧ dragging (step (-1) (λ _, ex_world) ex_dragging Tick).1 = true
  ∧ pending (timers (step (-1) (λ _, ex_world) ex_dragging Tick).1) = []
  ∧ (run (-1) (λ _, ex_world) (step (-1) (λ _, ex_world) ex_dragging Tick).1
         [Tick; TabDragEnd 4; Tick; Tick]).2 = [].
Proof.
  apply (rebuild_lost_during_drag (-1) (λ _, ex_world) ex_dragging 400%nat
           [Tick; TabDragEnd 4; Tick; Tick]).
  - reflexivity.
  - reflexivity.
  - cbv; lia.
  - repeat constructor; discriminate.
Defined.

Lemma group_drag_session_restores_witness :
  collapse_state
    (mainList (group_drag_session (-1) ex_world ok_host 7
                 [Enter (ZTab 1); Drop ZFake; Leave (ZTab 1)] ex_built))
  ≡ₚ collapse_state (mainList ex_built)
  ∧ Forall node_unmarked
      (mainList (group_drag_session (-1) ex_world ok_host 7
                   [Enter (ZTab 1); Drop ZFake; Leave (ZTab 1)] ex_built)).
Proof.
  assert (Forall (λ g, gn_mark g = false) (group_nodes (mainList ex_built)))
    as Hm by (repeat constructor).
  split;
    apply (group_drag_session_restores (-1) ex_world ok_host 7
             [Enter (ZTab 1); Drop ZFake; Leave (ZTab 1)] ex_built Hm).
Defined.

Lemma Groups_onRemoved_unwraps_witness :
  ∃ pre g post,
    mainList ex_built = pre ++ NGroup g :: post
    ∧ gn_id g = 7
    ∧ Forall (λ n, node_ref n ≠ RGroup 7) pre
    ∧ mainList (Groups_onRemoved ex_G1 ex_built)
      = pre ++ (NTab <$> gn_body g) ++ post
    ∧ flat_tabs (mainList (Groups_onRemoved ex_G1 ex_built))
      = flat_tabs (mainList ex_built)
    ∧ cache (Groups_onRemoved ex_G1 ex_built) = delete 7 (cache ex_built)
    ∧ timers (Groups_onRemoved ex_G1 ex_built) = timers ex_built
    ∧ delayTimeoutId (Groups_onRemoved ex_G1 ex_built)
      = delayTimeoutId ex_built.
Proof. apply (Groups_onRemoved_unwraps ex_G1 ex_built). reflexivity. Defined.


Lemma Tabs_insertTab_policy_witness :
  inserted_before_holder 1 (NTab (Tabs_createTab (ex_tab 5 1 (-1))))
    (mainList ex_built)
    (mainList (Tabs_insertTab (-1) (ex_tab 5 1 (-1)) ex_built))
  ∧ inserted_after 1 (Tabs_createTab (ex_tab 6 2 7)) (mainList ex_built)
      (mainList (Tabs_insertTab (-1) (ex_tab 6 2 7) ex_built))
  ∧ rebuild_scheduled (Tabs_insertTab (-1) (ex_tab 8 9 (-1)) ex_built).
Proof.
  split; [|split].
  - apply (Tabs_insertTab_policy (-1) (ex_tab 5 1 (-1)) ex_built);
      [reflexivity|cbv; split; [discriminate|reflexivity]].
  - apply (Tabs_insertTab_policy (-1) (ex_tab 6 2 7) ex_built);
      [discriminate|].
    split; [reflexivity|]. eexists. split; reflexivity.
  - apply (Tabs_insertTab_policy (-1) (ex_tab 8 9 (-1)) ex_built).
    left. split; [reflexivity|]. right. cbv. reflexivity.
Defined.

Lemma missing_node_events_witness :
  rebuild_scheduled
    (Tabs_onUpdated 99 (mkChangeInfo (Some "news") None None None)
                    (ex_tab 99 4 (-1)) ex_built)
  ∧ timers (Tabs_onActivated (mkActiveInfo 99 1) ex_built) = timers ex_built.
Proof.
  split.
  - apply (missing_node_events 99 (mkChangeInfo (Some "news") None None None)
             (ex_tab 99 4 (-1)) (mkActiveInfo 99 1) ex_built); reflexivity.
  - apply (missing_node_events 99 (mkChangeInfo (Some "news") None None None)
             (ex_tab 99 4 (-1)) (mkActiveInfo 99 1) ex_built); reflexivity.
Defined.

(** C6, as stated, fails for tab-activated: the window is the current
    one, the tab has no node, and no rebuild is scheduled. *)
Lemma onActivated_missing_node_schedules_nothing :
  ai_windowId (mkActiveInfo 99 1) = WindowId ex_built
  ∧ has_tab (ai_tabId (mkActiveInfo 99 1)) (mainList ex_built) = false
  ∧ ¬ rebuild_scheduled (Tabs_onActivated (mkActiveInfo 99 1) ex_built).
Proof.
  split; [reflexivity|]. split; [reflexivity|].
  unfold rebuild_scheduled. cbn. by intros ?%elem_of_nil.
Qed.

Lemma DnD_moveTab_calls_witness :
  (DnD_moveTab (-1) ex_world ok_host 4 (RGroup 7) ex_built).2
  = [tabs_move 4 1; tabs_ungroup [4]; full_rebuild].
Proof.
  apply (DnD_moveTab_calls (-1) ex_world ok_host 4 (RGroup 7) ex_built).
  - by eexists.
  - reflexivity.
Defined.

(** C1, as stated, fails on the order of the calls: dropping T4 on the
    header of G1 calls move-to-index first and ungroup second. *)
Lemma tab_drop_moves_before_it_ungroups :
  (DnD_drop (-1) ex_world ok_host (Some (drag_tab 4)) (ZHeader 7) ex_built).2
  = [tabs_move 4 1; tabs_ungroup [4]; full_rebuild]
  ∧ spec_tab_drop_calls 4 1 true None
    = [tabs_ungroup [4]; tabs_move 4 1; full_rebuild]
  ∧ (DnD_drop (-1) ex_world ok_host (Some (drag_tab 4)) (ZHeader 7) ex_built).2
    ≠ spec_tab_drop_calls 4 1 true None.
Proof. split; [reflexivity|]. split; [reflexivity|]. discriminate. Qed.

Lemma DnD_moveGroup_calls_witness :
  (DnD_moveGroup (-1) ex_world ok_host 7 (RTab 1) ex_built).2
  = [tabGroups_move 7 0; full_rebuild]
  ∧ ∃ newGroupId,
      ok_host ([tabs_ungroup [2; 3]] ++ [tabs_move 2 (-1); tabs_move 3 (-1)])
              (tabs_group None [2; 3]) = Some newGroupId
      ∧ (DnD_moveGroup (-1) ex_world ok_host 7 RFake
                       (DnD_insertFakeBottom ex_built)).2
        = [tabs_ungroup [2; 3]] ++ [tabs_move 2 (-1); tabs_move 3 (-1)]
          ++ [tabs_group None [2; 3];
              tabGroups_update newGroupId false "blue" "work"; full_rebuild].
Proof.
  assert (NoDup (tn_id <$> flat_tabs (mainList ex_built))) as Hnd.
  { apply (bool_decide_unpack _). by vm_compute. }
  assert (NoDup (tn_id <$> flat_tabs (mainList (DnD_insertFakeBottom ex_built))))
    as Hnd'.
  { apply (bool_decide_unpack _). by vm_compute. }
  split.
  - apply (proj1 (DnD_moveGroup_calls (-1) ex_world ok_host 7 (RTab 1) ex_built
             ex_G1_node
             Hnd eq_refl)).
    cbv. split; [discriminate|reflexivity].
  - apply (proj1 (proj2 (DnD_moveGroup_calls (-1) ex_world ok_host 7 RFake
             (DnD_insertFakeBottom ex_built)
             ex_G1_node
             Hnd' eq_refl)) (or_introl eq_refl)) with (info := ex_G1).
    + by eexists.
    + intros h op. unfold ok_host. destruct op; by eexists.
    + reflexivity.
Defined.

(** C2, as stated, fails at an equal position: dropping G1 on its own
    first tab item leaves old and new index equal and makes no call. *)
Lemma group_drop_at_own_position_makes_no_call :
  group_newIndex (RTab 2) (mainList ex_built)
  = group_oldIndex 7 (mainList ex_built)
  ∧ (DnD_drop (-1) ex_world ok_host (Some (drag_group 7)) (ZTab 2) ex_built).2
    = [full_rebuild]
  ∧ ¬ ∃ tabIds,
        tabs_ungroup tabIds
        ∈ (DnD_drop (-1) ex_world ok_host (Some (drag_group 7)) (ZTab 2)
                    ex_built).2.
Proof.
  split; [reflexivity|]. split; [reflexivity|].
  intros [tabIds Hin]. change (tabs_ungroup tabIds ∈ [full_rebuild]) in Hin.
  by apply list_elem_of_singleton in Hin.
Qed.

(** * Further properties of the reconciler *)

(** ** The debounce timer *)

Section Timer.

Variable NoGroup : Z.

Lemma tidy_build w st :
  pending (timers st) = [] → tidy (Tabs_build NoGroup w st).
Proof.
  intros Hp. unfold Tabs_build. destruct (dragging st); [by left|].
  destruct (build_loop NoGroup w (w_tabs w) _ [] None None) as [c' [l|]];
    [by left|].
  right. eexists. apply Tabs_delayRebuild_armed.
  intros p Hin. cbn in Hin. rewrite Hp in Hin. by apply elem_of_nil in Hin.
Qed.

Lemma tidy_tick w st : tidy st → tidy (tick NoGroup w st).1.
Proof.
  intros [Hp|[d Ha]].
  - left. by apply tick_quiet.
  - destruct (decide (S (now (timers st)) < d)%nat) as [Hlt|Hge].
    + right. exists d. by apply tick_idle.
    + unfold tick. rewrite Ha. cbn [pending fst].
      rewrite filter_cons_True
        by (unfold due; cbn; rewrite bool_decide_true; [done|lia]).
      rewrite filter_nil. cbn [fmap list_fmap foldl fst].
      rewrite bool_decide_true by (cbn; set_solver).
      unfold fire. apply tidy_build. cbn.
      by rewrite decide_False by (intros H; by apply H).
Qed.

Lemma tidy_step w st i : tidy st → tidy (step NoGroup w st i).1.
Proof.
  intros Ht. destruct i; cbn [step fst].
  - by apply tidy_tick.
  - right. eexists. apply Tabs_delayRebuild_armed.
    destruct Ht as [Hp|[d Ha]]; [|by eapply armed_single_handle].
    intros p Hin. rewrite Hp in Hin. by apply elem_of_nil in Hin.
  - unfold DnD_dragEnd, remove_fakeBottom, tidy, armed in *. cbn.
    by destruct (fakeBottom st).
  - unfold DnD_groupDragEnd, remove_fakeBottom, tidy, armed in *. cbn.
    by destruct (fakeBottom st).
Qed.

(** X1. Whatever the side panel is fed, at most one rebuild is ever
    pending, under the handle kept in [Tabs.delayTimeoutId]. *)
Theorem one_rebuild_pending (w : nat → World) (inputs : list Input) (st : State) :
  tidy st →
  tidy (run NoGroup w st inputs).1
  ∧ (length (pending (timers (run NoGroup w st inputs).1)) ≤ 1)%nat.
Proof.
  intros Ht.
  assert (tidy (run NoGroup w st inputs).1) as Hr.
  { revert st Ht. induction inputs as [|i inputs IH]; intros st Ht; [done|].
    rewrite run_cons. cbn [fst]. by apply IH, tidy_step. }
  split; [done|]. destruct Hr as [->|[d ->]]; cbn; lia.
Qed.

Lemma run_idle_state w n : ∀ st d,
  armed st d → (now (timers st) + n < d)%nat →
  mainList (run NoGroup w st (replicate n Tick)).1 = mainList st
  ∧ cache (run NoGroup w st (replicate n Tick)).1 = cache st
  ∧ dragging (run NoGroup w st (replicate n Tick)).1 = dragging st.
Proof.
  induction n as [|n IH]; intros st d Ha Hlt; [done|].
  cbn [replicate]. rewrite run_cons. cbn [fst step].
  destruct (tick_idle NoGroup (w (now (timers st))) st d Ha ltac:(lia))
    as (Ha1 & Hn1 & _).
  destruct (IH _ d Ha1 ltac:(lia)) as (-> & -> & ->).
  by rewrite tick_idle_state with (d := d) by (done || lia).
Qed.

Lemma Tabs_build_mainList_ext w a b :
  dragging a = dragging b → cache a = cache b → mainList a = mainList b →
  mainList (Tabs_build NoGroup w a) = mainList (Tabs_build NoGroup w b).
Proof.
  intros Hd Hc Hl. unfold Tabs_build. rewrite Hd. destruct (dragging b); [done|].
  cbn. rewrite Hc.
  by destruct (build_loop NoGroup w (w_tabs w) (cache b) [] None None)
    as [c' [l|]].
Qed.

Lemma run_until_due_build w st n :
  armed st (now (timers st) + S n) →
  mainList (run NoGroup w st (replicate (S n) Tick)).1
  = mainList (Tabs_build NoGroup (w (now (timers st) + n)%nat) st).
Proof.
  intros Ha. rewrite replicate_S_end, run_app. cbn [fst].
  destruct (run_idle NoGroup w n st _ Ha ltac:(lia)) as (Ha2 & Hn2 & _).
  destruct (run_idle_state w n st _ Ha ltac:(lia)) as (Hl2 & Hc2 & Hd2).
  set (st2 := (run NoGroup w st (replicate n Tick)).1) in *.
  rewrite run_cons. cbn [fst step run].
  unfold tick. rewrite Ha2. cbn [pending fst].
  rewrite filter_cons_True
    by (unfold due; cbn [snd]; rewrite bool_decide_true; [done|lia]).
  rewrite filter_nil. cbn [fmap list_fmap foldl fst].
  rewrite bool_decide_true by (cbn [timers set_timers pending]; set_solver).
  unfold fire. rewrite Hn2.
  by apply Tabs_build_mainList_ext.
Qed.

Lemma run_Request_state w st rest :
  (run NoGroup w st (Request :: rest)).1
  = (run NoGroup w (Tabs_delayRebuild st) rest).1.
Proof. by rewrite run_cons. Qed.

(** X2. One rebuild request followed by 400 ms of silence leaves the main
    list that a direct [Tabs.build] makes of what the host answers at the
    moment the timer fires. *)
Theorem request_installs_build (w : nat → World) (st : State) :
  single_handle st →
  mainList (run NoGroup w st (Request :: replicate rebuildDelay Tick)).1
  = mainList (Tabs_build NoGroup (w (now (timers st) + 399)%nat) st).
Proof.
  intros Hs. rewrite run_Request_state.
  destruct (Tabs_delayRebuild_armed st Hs) as [Ha Hn].
  rewrite <- Hn in Ha.
  etrans; [exact (run_until_due_build w (Tabs_delayRebuild st) 399 Ha)|].
  rewrite Hn. by apply Tabs_build_mainList_ext.
Qed.

End Timer.

(** ** What a full build installs *)

Section BuildShape.

Variable NoGroup : Z.
Variable w : World.

Lemma flat_tabs_append_at_end tn pre g :
  flat_tabs (alter (append_to_body tn) (length pre) (pre ++ [NGroup g]))
  = flat_tabs (pre ++ [NGroup g]) ++ [tn].
Proof.
  rewrite alter_app_r_alt by done. rewrite Nat.sub_diag. cbn.
  rewrite !flat_tabs_app. cbn. by rewrite !app_nil_r, (assoc_L (++)).
Qed.

Lemma build_loop_order tabs : ∀ c acc cur last c' l,
  build_loop NoGroup w tabs c acc cur last = (c', Some l) →
  (∀ g, last = Some g →
        cursor_at_end acc cur ∨ g ∉ tab_groupId <$> tabs) →
  last_not_back NoGroup last tabs →
  runs_unbroken NoGroup tabs →
  flat_tabs l = flat_tabs acc ++ (Tabs_createTab <$> tabs).
Proof.
  induction tabs as [|tab rest IH]; intros c acc cur last c' l; cbn.
  { intros [= <- <-] _ _ _. by rewrite app_nil_r. }
  intros Hb Hcur Hback Hruns.
  assert (runs_unbroken NoGroup rest) as Hruns'.
  { intros i j k ti tj tk Hlt Hi Hj Hk.
    apply (Hruns (S i) (S j) (S k)); [lia|done..]. }
  assert (last_not_back NoGroup last rest) as Hback'.
  { intros g j k tj tk Hl Hlt Hj Hk.
    apply (Hback g (S j) (S k)); [done|lia|done..]. }
  case_bool_decide as Hg.
  - case_bool_decide as Hl.
    + destruct (Groups_get w (tab_groupId tab) c) as [c1 [info|]]; [|done].
      apply IH in Hb; [| | |done].
      * rewrite Hb.
        rewrite (flat_tabs_append_at_end _ acc (Groups_createGroup info)).
        rewrite flat_tabs_app. cbn. by rewrite !app_nil_r, <- (assoc_L (++)).
      * intros g [= <-]. left. eexists acc, _.
        split; [|done].
        rewrite alter_app_r_alt by done. rewrite Nat.sub_diag. cbn.
        reflexivity.
      * intros g j k tj tk [= <-] Hlt Hj Hk Hu Heq.
        apply (Hruns 0%nat (S j) (S k) tab tj tk); [lia|done..| |]; [done|].
        by rewrite Hu.
    + destruct (Hcur _ Hl) as [(pre & g & -> & ->)|Hnot];
        [|destruct Hnot; apply elem_of_cons; by left].
      apply IH in Hb; [| |done..].
      * by rewrite Hb, flat_tabs_append_at_end, <- (assoc_L (++)).
      * intros g' Hl'. left. eexists pre, _.
        split; [|done].
        rewrite alter_app_r_alt by done. rewrite Nat.sub_diag. cbn.
        reflexivity.
  - apply IH in Hb; [| |done..].
    + rewrite Hb, flat_tabs_app. cbn. by rewrite <- (assoc_L (++)).
    + intros g Hl. right. intros (tk & Heq & Hin)%list_elem_of_fmap.
      apply list_elem_of_lookup in Hin as [k Hk].
      apply (Hback g 0%nat (S k) tab tk); try done; try lia.
Qed.

Lemma Tabs_build_installs (st : State) (l : list Node) :
  dragging st = false →
  (build_loop NoGroup w (w_tabs w) (cache st) [] None None).2 = Some l →
  mainList (Tabs_build NoGroup w st) = l.
Proof.
  intros Hd Hb. unfold Tabs_build. rewrite Hd. cbn.
  destruct (build_loop NoGroup w (w_tabs w) (cache st) [] None None)
    as [c' r].
  cbn in Hb. by subst r.
Qed.

(** X3. When no ungrouped tab of the window sits between two tabs of one
    group, a build that installs a tree installs the tabs in the order of
    the window. *)
Theorem Tabs_build_keeps_window_order (st : State) (l : list Node) :
  dragging st = false →
  runs_unbroken NoGroup (w_tabs w) →
  (build_loop NoGroup w (w_tabs w) (cache st) [] None None).2 = Some l →
  mainList (Tabs_build NoGroup w st) = l
  ∧ flat_tabs l = Tabs_createTab <$> w_tabs w.
Proof.
  intros Hd Hruns Hb. split; [by apply Tabs_build_installs|].
  destruct (build_loop NoGroup w (w_tabs w) (cache st) [] None None)
    as [c' r] eqn:Hloop.
  cbn in Hb. subst r.
  by apply build_loop_order in Hloop.
Qed.

End BuildShape.

Section BuildRegistry.

Variable NoGroup : Z.
Variable w : World.
Hypothesis Hhost : host_consistent w.

Lemma Groups_get_answer c g c' info :
  Groups_get w g c = (c', Some info) → c ⊆ c' ∧ c' !! g = Some info.
Proof.
  unfold Groups_get.
  destruct (c !! g) as [grp|] eqn:Hc; [by intros [= <- <-]|].
  destruct (w_group w g) as [grp|] eqn:Hg; [|done].
  intros [= <- <-]. apply Hhost in Hg as Hid. rewrite Hid. split.
  - by apply insert_subseteq.
  - by rewrite lookup_insert_eq.
Qed.

Lemma Groups_get_consistent c g c' r :
  cache_consistent c → Groups_get w g c = (c', r) →
  cache_consistent c' ∧ ∀ info, r = Some info → grp_id info = g.
Proof.
  intros Hc. unfold Groups_get.
  destruct (c !! g) as [grp|] eqn:Hl.
  { intros [= <- <-]. split; [done|]. intros info [= <-]. by apply Hc. }
  destruct (w_group w g) as [grp|] eqn:Hg; [|by intros [= <- <-]].
  intros [= <- <-]. split; [|intros info [= <-]; by apply Hhost].
  intros k g' Hk. destruct (decide (grp_id grp = k)) as [Heq|Hne].
  - rewrite <- Heq, lookup_insert_eq in Hk. congruence.
  - rewrite lookup_insert_ne in Hk by done. by apply Hc.
Qed.

Lemma build_loop_cache_grows tabs : ∀ c acc cur last cf r,
  build_loop NoGroup w tabs c acc cur last = (cf, r) → c ⊆ cf.
Proof.
  induction tabs as [|tab rest IH]; intros c acc cur last cf r; cbn.
  { by intros [= <- <-]. }
  case_bool_decide; [|by apply IH].
  case_bool_decide; [|destruct cur; by apply IH].
  destruct (Groups_get w (tab_groupId tab) c) as [c1 [info|]] eqn:Hget.
  - intros Hb%IH. apply Groups_get_answer in Hget as [Hsub _].
    by transitivity c1.
  - intros [= <- <-]. unfold Groups_get in Hget.
    destruct (c !! tab_groupId tab); [done|].
    destruct (w_group w (tab_groupId tab)); [done|]. by simplify_eq.
Qed.

Lemma build_loop_replay tabs : ∀ c acc cur last cf r,
  build_loop NoGroup w tabs c acc cur last = (cf, r) →
  build_loop NoGroup w tabs cf acc cur last = (cf, r).
Proof.
  induction tabs as [|tab rest IH]; intros c acc cur last cf r; cbn.
  { by intros [= <- <-]. }
  case_bool_decide; [|by apply IH].
  case_bool_decide; [|destruct cur; by apply IH].
  destruct (Groups_get w (tab_groupId tab) c) as [c1 [info|]] eqn:Hget.
  - intros Hb. apply Groups_get_answer in Hget as [_ Hin].
    pose proof (build_loop_cache_grows _ _ _ _ _ _ _ Hb) as Hsub.
    unfold Groups_get. rewrite (lookup_weaken _ _ _ _ Hin Hsub).
    by eapply IH.
  - intros [= <- <-]. unfold Groups_get in Hget.
    destruct (c !! tab_groupId tab) eqn:Hc; [done|].
    destruct (w_group w (tab_groupId tab)) eqn:Hg; [done|].
    simplify_eq. unfold Groups_get. by rewrite Hc, Hg.
Qed.

(** X4. Building twice in a row, with the host answering the same, gives
    the tree and the registry cache of building once. *)
Theorem Tabs_build_twice (st : State) :
  mainList (Tabs_build NoGroup w (Tabs_build NoGroup w st))
  = mainList (Tabs_build NoGroup w st)
  ∧ cache (Tabs_build NoGroup w (Tabs_build NoGroup w st))
    = cache (Tabs_build NoGroup w st).
Proof.
  destruct (dragging st) eqn:Hd.
  { by rewrite !(Tabs_build_dragging NoGroup w st). }
  assert (∃ cf r,
            build_loop NoGroup w (w_tabs w) (cache st) [] None None = (cf, r)
            ∧ Tabs_build NoGroup w st
              = match r with
                | Some l =>
                    set_mainList l
                      (set_cache cf (set_WindowId (w_windowId w) st))
                | None =>
                    Tabs_delayRebuild
                      (set_cache cf (set_WindowId (w_windowId w) st))
                end) as (cf & r & Hb & ->).
  { unfold Tabs_build. rewrite Hd. cbn.
    destruct (build_loop NoGroup w (w_tabs w) (cache st) [] None None)
      as [cf r]. exists cf, r. by destruct r. }
  apply build_loop_replay in Hb.
  destruct r as [l|]; unfold Tabs_build; cbn; rewrite Hd; cbn; by rewrite Hb.
Qed.

Lemma contained_append_to_body tab i g acc :
  acc !! i = Some (NGroup g) → gn_id g = tab_groupId tab →
  tab_groupId tab ≠ NoGroup →
  Forall (node_contained NoGroup) acc →
  Forall (node_contained NoGroup)
         (alter (append_to_body (Tabs_createTab tab)) i acc).
Proof.
  intros Hi Hid Hg Hall. apply Forall_lookup. intros j n Hj.
  destruct (decide (i = j)) as [->|Hne].
  - rewrite list_lookup_alter_eq, Hi in Hj. cbn in Hj. simplify_eq. cbn.
    pose proof (Forall_lookup_1 _ _ _ _ Hall Hi) as [_ Hbody].
    split; [by destruct (gn_body g)|].
    apply Forall_app. split; [done|]. by repeat constructor.
  - rewrite list_lookup_alter_ne in Hj by done.
    exact (Forall_lookup_1 _ _ _ _ Hall Hj).
Qed.

Lemma build_loop_contained tabs : ∀ c acc cur last c' l,
  build_loop NoGroup w tabs c acc cur last = (c', Some l) →
  cache_consistent c →
  (∀ g, last = Some g →
        ∃ i grp, cur = Some i ∧ acc !! i = Some (NGroup grp) ∧ gn_id grp = g) →
  Forall (node_contained NoGroup) acc →
  Forall (node_contained NoGroup) l.
Proof.
  induction tabs as [|tab rest IH]; intros c acc cur last c' l; cbn.
  { by intros [= <- <-]. }
  intros Hb Hc Hcur Hall.
  case_bool_decide as Hg.
  - case_bool_decide as Hl.
    + destruct (Groups_get w (tab_groupId tab) c) as [c1 [info|]] eqn:Hget;
        [|done].
      destruct (Groups_get_consistent _ _ _ _ Hc Hget) as [Hc1 Hid].
      specialize (Hid info eq_refl).
      assert ((acc ++ [NGroup (Groups_createGroup info)]) !! length acc
              = Some (NGroup (Groups_createGroup info))) as Hlen
        by (by rewrite lookup_app_r, Nat.sub_diag).
      eapply IH; [exact Hb|done| |].
      * intros g [= <-]. eexists _, _. split; [done|].
        rewrite list_lookup_alter_eq, Hlen. cbn. by split.
      * rewrite alter_app_r_alt by done. rewrite Nat.sub_diag. cbn.
        apply Forall_app. split; [done|]. repeat constructor; try done.
    + destruct (Hcur _ Hl) as (i & grp & -> & Hi & Hid).
      eapply IH; [exact Hb|done| |].
      * intros g Hl'. eexists i, _. split; [done|].
        rewrite list_lookup_alter_eq, Hi. cbn. split; [done|].
        rewrite Hl in Hl'. by simplify_eq.
      * by eapply contained_append_to_body.
  - eapply IH; [exact Hb|done| |].
    + intros g Hl. destruct (Hcur _ Hl) as (i & grp & -> & Hi & Hid).
      exists i, grp. split; [done|]. split; [|done].
      by apply lookup_app_l_Some.
    + apply Forall_app. split; [done|]. repeat constructor. cbn.
      by destruct (decide (tab_groupId tab = NoGroup)).
Qed.

End BuildRegistry.

(** X5. With a host that answers a group lookup with the group of that
    id and a registry that files every group under its own id, a build
    keeps the tree well-grouped: every tab item at the top level is
    tagged as ungrouped, every tab item inside a group item carries that
    group's id, and no group item is empty.  The registry stays filed by
    id. *)
Theorem Tabs_build_well_grouped (NoGroup : Z) (w : World) (st : State) :
  host_consistent w →
  cache_consistent (cache st) →
  Forall (node_contained NoGroup) (mainList st) →
  Forall (node_contained NoGroup) (mainList (Tabs_build NoGroup w st))
  ∧ cache_consistent (cache (Tabs_build NoGroup w st)).
Proof.
  intros Hhost Hc Hall. unfold Tabs_build. destruct (dragging st); [done|]. cbn.
  destruct (build_loop NoGroup w (w_tabs w) (cache st) [] None None)
    as [cf r] eqn:Hb.
  assert (cache_consistent cf) as Hcf.
  { clear Hall. revert Hb Hc. generalize (cache st) (@nil Node) (@None nat)
      (@None Z). induction (w_tabs w) as [|tab rest IH];
      intros c acc cur last; cbn.
    { by intros [= <- <-]. }
    case_bool_decide; [|by apply IH].
    case_bool_decide; [|destruct cur; by apply IH].
    destruct (Groups_get w (tab_groupId tab) c) as [c1 [info|]] eqn:Hget.
    - intros Hb Hc. eapply IH; [done|].
      by eapply Groups_get_consistent.
    - intros [= <- <-] Hc. by eapply Groups_get_consistent. }
  destruct r as [l|]; cbn; [|done]. split; [|done].
  by eapply build_loop_contained.
Qed.


(** ** The flat order under the tree operations *)

Lemma flat_tabs_map_tabs f l : flat_tabs (map_tabs f l) = f <$> flat_tabs l.
Proof.
  unfold map_tabs. induction l as [|n l IH]; [done|].
  rewrite fmap_cons, !flat_tabs_cons, fmap_app, IH. by destruct n.
Qed.

Lemma alter_tab_in_app id f b rest :
  alter_tab_in id f (b ++ rest)
  = if bool_decide (id ∈ tn_id <$> b) then alter_tab_in id f b ++ rest
    else b ++ alter_tab_in id f rest.
Proof.
  induction b as [|t b IH]; cbn.
  { rewrite bool_decide_false; [done|]. by intros ?%elem_of_nil. }
  destruct (decide (tn_id t = id)) as [Ht|Ht].
  - rewrite !(bool_decide_true _ Ht).
    rewrite bool_decide_true; [done|]. apply elem_of_cons. by left.
  - rewrite !(bool_decide_false _ Ht), IH.
    destruct (decide (id ∈ tn_id <$> b)) as [Hb|Hb].
    + rewrite (bool_decide_true _ Hb).
      rewrite bool_decide_true; [done|]. apply elem_of_cons. by right.
    + rewrite (bool_decide_false _ Hb).
      rewrite bool_decide_false; [done|].
      by intros [?|?]%elem_of_cons.
Qed.

Lemma flat_tabs_alter_tab id f l :
  flat_tabs (alter_tab id f l) = alter_tab_in id f (flat_tabs l).
Proof.
  induction l as [|n l IH]; [done|].
  destruct n as [t|g|]; cbn [alter_tab].
  - rewrite flat_tabs_cons. cbn [node_tabs app alter_tab_in].
    case_bool_decide; [done|]. by rewrite flat_tabs_cons, IH.
  - rewrite (flat_tabs_cons (NGroup g)), alter_tab_in_app. cbn [node_tabs].
    case_bool_decide; [done|]. by rewrite flat_tabs_cons, IH.
  - by rewrite !flat_tabs_cons, IH.
Qed.

Lemma remove_tab_in_app id b rest :
  remove_tab_in id (b ++ rest)
  = if bool_decide (id ∈ tn_id <$> b) then remove_tab_in id b ++ rest
    else b ++ remove_tab_in id rest.
Proof.
  induction b as [|t b IH]; cbn.
  { rewrite bool_decide_false; [done|]. by intros ?%elem_of_nil. }
  destruct (decide (tn_id t = id)) as [Ht|Ht].
  - rewrite !(bool_decide_true _ Ht).
    rewrite bool_decide_true; [done|]. apply elem_of_cons. by left.
  - rewrite !(bool_decide_false _ Ht), IH.
    destruct (decide (id ∈ tn_id <$> b)) as [Hb|Hb].
    + rewrite (bool_decide_true _ Hb).
      rewrite bool_decide_true; [done|]. apply elem_of_cons. by right.
    + rewrite (bool_decide_false _ Hb).
      rewrite bool_decide_false; [done|].
      by intros [?|?]%elem_of_cons.
Qed.

Lemma flat_tabs_remove_tab id l :
  flat_tabs (remove_tab id l) = remove_tab_in id (flat_tabs l).
Proof.
  induction l as [|n l IH]; [done|].
  destruct n as [t|g|]; cbn [remove_tab].
  - rewrite flat_tabs_cons. cbn [node_tabs app remove_tab_in].
    case_bool_decide; [done|]. by rewrite flat_tabs_cons, IH.
  - rewrite (flat_tabs_cons (NGroup g)), remove_tab_in_app. cbn [node_tabs].
    case_bool_decide; [done|]. by rewrite flat_tabs_cons, IH.
  - by rewrite !flat_tabs_cons, IH.
Qed.

Lemma remove_tab_in_absent id b :
  id ∉ tn_id <$> b → remove_tab_in id b = b.
Proof.
  induction b as [|t b IH]; [done|]. cbn.
  rewrite not_elem_of_cons. intros [Hne Hb].
  rewrite bool_decide_false by done. by rewrite IH.
Qed.

Lemma remove_tab_absent id l : has_tab id l = false → remove_tab id l = l.
Proof.
  unfold has_tab. rewrite bool_decide_eq_false.
  induction l as [|n l IH]; [done|].
  rewrite flat_tabs_cons, fmap_app, elem_of_app. intros Hn.
  destruct n as [t|g|]; cbn [remove_tab node_tabs] in *.
  - rewrite bool_decide_false; [f_equal; tauto|].
    intros Heq. apply Hn. left. rewrite <- Heq. by left.
  - rewrite bool_decide_false by tauto. f_equal. tauto.
  - f_equal. tauto.
Qed.

Lemma remove_tab_in_gone id b :
  NoDup (tn_id <$> b) → id ∉ tn_id <$> remove_tab_in id b.
Proof.
  induction b as [|t b IH]; cbn.
  { intros _. by intros ?%elem_of_nil. }
  rewrite NoDup_cons. intros [Ht Hnd]. case_bool_decide as Heq.
  - by rewrite <- Heq.
  - rewrite fmap_cons, not_elem_of_cons. split; [done|]. by apply IH.
Qed.

Lemma remove_tab_in_filter id b :
  NoDup (tn_id <$> b) →
  remove_tab_in id b = filter (λ t, tn_id t ≠ id) b.
Proof.
  induction b as [|t b IH]; [done|]. cbn [fmap list_fmap remove_tab_in].
  rewrite NoDup_cons. intros [Ht Hnd]. case_bool_decide as Heq.
  - rewrite filter_cons_False by (by intros H; apply H).
    rewrite <- remove_tab_in_absent with (id := id) at 1; [by apply IH|].
    by rewrite <- Heq.
  - rewrite filter_cons_True by done. by rewrite IH.
Qed.

Lemma group_ids_remove_tab id l :
  gn_id <$> group_nodes (remove_tab id l) = gn_id <$> group_nodes l.
Proof.
  unfold group_nodes. induction l as [|n l IH]; [done|].
  destruct n as [t|g|]; cbn [remove_tab].
  - case_bool_decide; cbn; [done|exact IH].
  - case_bool_decide; cbn; [done|]. by rewrite IH.
  - exact IH.
Qed.

(** X6. A tab-removed event takes the first tab item with that id out of
    the flat order and touches nothing else: every group item stays (an
    emptied one too) and no rebuild is scheduled.  With unique ids no
    item with that id is left.  For a tab that has no node the event
    changes nothing. *)
Theorem Tabs_onTabRemoved_effect (tabId : Z) (st : State) :
  flat_tabs (mainList (Tabs_onTabRemoved tabId st))
  = remove_tab_in tabId (flat_tabs (mainList st))
  ∧ gn_id <$> group_nodes (mainList (Tabs_onTabRemoved tabId st))
    = gn_id <$> group_nodes (mainList st)
  ∧ timers (Tabs_onTabRemoved tabId st) = timers st
  ∧ delayTimeoutId (Tabs_onTabRemoved tabId st) = delayTimeoutId st
  ∧ (NoDup (tn_id <$> flat_tabs (mainList st)) →
     has_tab tabId (mainList (Tabs_onTabRemoved tabId st)) = false)
  ∧ (has_tab tabId (mainList st) = false → Tabs_onTabRemoved tabId st = st).
Proof.
  unfold Tabs_onTabRemoved. cbn.
  split; [apply flat_tabs_remove_tab|].
  split; [apply group_ids_remove_tab|].
  split; [done|]. split; [done|]. split.
  - intros Hnd. unfold has_tab. rewrite bool_decide_eq_false.
    rewrite flat_tabs_remove_tab. by apply remove_tab_in_gone.
  - intros Hno. rewrite remove_tab_absent by done. by destruct st.
Qed.

(** X7. Removing a tab by its event from a freshly built tree leaves the
    flat order that a build from the host's window without that tab
    installs. *)
Theorem removal_agrees_with_rebuild (NoGroup : Z) (w : World) (tabId : Z)
    (st st2 : State) (l l2 : list Node) :
  dragging st = false → dragging st2 = false →
  NoDup (tab_id <$> w_tabs w) →
  runs_unbroken NoGroup (w_tabs w) →
  runs_unbroken NoGroup (w_tabs (world_without tabId w)) →
  (build_loop NoGroup w (w_tabs w) (cache st) [] None None).2 = Some l →
  (build_loop NoGroup (world_without tabId w)
              (w_tabs (world_without tabId w)) (cache st2) [] None None).2
  = Some l2 →
  flat_tabs (mainList (Tabs_onTabRemoved tabId (Tabs_build NoGroup w st)))
  = flat_tabs (mainList (Tabs_build NoGroup (world_without tabId w) st2)).
Proof.
  intros Hd Hd2 Hnd Hr Hr2 Hb Hb2.
  pose proof (Tabs_build_installs NoGroup w st l Hd Hb) as Hm.
  pose proof (Tabs_build_installs NoGroup (world_without tabId w)
                st2 l2 Hd2 Hb2) as Hm2.
  assert (flat_tabs l = Tabs_createTab <$> w_tabs w) as Hl.
  { destruct (build_loop NoGroup w (w_tabs w) (cache st) [] None None)
      as [c' r] eqn:Hloop.
    cbn in Hb. subst r. by apply build_loop_order in Hloop. }
  assert (flat_tabs l2 = Tabs_createTab <$> w_tabs (world_without tabId w))
    as Hl2.
  { destruct (build_loop NoGroup (world_without tabId w) _ (cache st2)
                         [] None None) as [c' r] eqn:Hloop.
    cbn in Hb2. subst r. by apply build_loop_order in Hloop. }
  unfold Tabs_onTabRemoved. cbn [mainList set_mainList].
  rewrite Hm, Hm2, flat_tabs_remove_tab, Hl, Hl2. cbn [world_without w_tabs].
  rewrite remove_tab_in_filter
    by (by rewrite <- list_fmap_compose).
  clear. induction (w_tabs w) as [|tab tabs IH]; [done|].
  rewrite fmap_cons, !filter_cons. cbn [Tabs_createTab tn_id].
  repeat case_decide; try done; by rewrite ?fmap_cons, IH.
Qed.

(** ** Incremental insertion *)

Lemma flat_insert_after new l : ∀ k,
  (k < length (flat_tabs l))%nat →
  flat_tabs (insert_after_flat k new l) = placed_at (S k) new (flat_tabs l).
Proof.
  unfold placed_at.
  induction l as [|n l IH]; intros k Hk; [cbn in Hk; lia|].
  rewrite flat_tabs_cons in Hk. rewrite length_app in Hk.
  destruct n as [t|g|]; cbn [insert_after_flat node_tabs length] in *.
  - destruct k as [|k'].
    + rewrite !flat_tabs_cons. cbn. by rewrite take_0, drop_0.
    + rewrite !flat_tabs_cons. cbn [node_tabs app take drop].
      rewrite IH by lia. done.
  - case_bool_decide as Hlt.
    + rewrite !flat_tabs_cons. cbn [node_tabs gn_body set_body].
      rewrite take_app_le, drop_app_le by lia.
      by rewrite <- !app_assoc.
    + rewrite !flat_tabs_cons. cbn [node_tabs].
      rewrite IH by lia.
      rewrite take_app_ge, drop_app_ge by lia.
      rewrite <- app_assoc.
      by replace (S k - length (gn_body g))%nat
        with (S (k - length (gn_body g))) by lia.
  - rewrite !flat_tabs_cons. cbn [node_tabs app]. apply IH. lia.
Qed.

Lemma flat_insert_before new l : ∀ k,
  (k < length (flat_tabs l))%nat →
  flat_tabs (insert_before_flat k (NTab new) l)
  = placed_at (holder_start k l) new (flat_tabs l).
Proof.
  unfold placed_at.
  induction l as [|n l IH]; intros k Hk; [cbn in Hk; lia|].
  rewrite flat_tabs_cons in Hk. rewrite length_app in Hk.
  destruct n as [t|g|];
    cbn [insert_before_flat holder_start node_tabs length] in *.
  - destruct k as [|k'].
    + by rewrite !flat_tabs_cons.
    + rewrite !flat_tabs_cons. cbn [node_tabs app take drop].
      rewrite IH by lia. done.
  - case_bool_decide as Hlt.
    + by rewrite !flat_tabs_cons.
    + rewrite !flat_tabs_cons. cbn [node_tabs].
      rewrite IH by lia.
      rewrite take_app_ge, drop_app_ge by lia.
      rewrite <- app_assoc.
      by replace (length (gn_body g) + holder_start (k - length (gn_body g)) l
                  - length (gn_body g))%nat
        with (holder_start (k - length (gn_body g)) l) by lia.
  - rewrite !flat_tabs_cons. cbn [node_tabs app]. apply IH. lia.
Qed.

Lemma holder_start_le l : ∀ k, (k < length (flat_tabs l))%nat →
  (holder_start k l ≤ k)%nat.
Proof.
  induction l as [|n l IH]; intros k Hk; [cbn; lia|].
  rewrite flat_tabs_cons, length_app in Hk.
  destruct n as [t|g|]; cbn [holder_start node_tabs length] in *.
  - destruct k as [|k']; [lia|]. specialize (IH k'). lia.
  - case_bool_decide; [lia|].
    specialize (IH (k - length (gn_body g))%nat). lia.
  - apply IH. lia.
Qed.

Lemma holder_start_boundary x post : ∀ pre,
  node_tabs x ≠ [] →
  holder_start (length (flat_tabs pre)) (pre ++ x :: post)
  = length (flat_tabs pre).
Proof.
  intros pre Hx. induction pre as [|n pre IH].
  - cbn. destruct x as [t|g|]; cbn in *; [done| |done].
    rewrite bool_decide_true; [done|].
    destruct (gn_body g); [done|cbn; lia].
  - rewrite flat_tabs_cons, length_app.
    destruct n as [t|g|]; cbn [app holder_start node_tabs length].
    + cbn. by rewrite IH.
    + rewrite bool_decide_false by lia.
      replace (length (gn_body g) + length (flat_tabs pre)
               - length (gn_body g))%nat
        with (length (flat_tabs pre)) by lia.
      by rewrite IH.
    + exact IH.
Qed.

Lemma has_tab_placed_at i new F :
  tn_id new ∈ tn_id <$> placed_at i new F.
Proof.
  unfold placed_at. rewrite fmap_app, fmap_cons, elem_of_app.
  right. apply elem_of_cons. by left.
Qed.

(** X8. Where an incrementally inserted tab lands in the flat order.  A
    grouped tab whose predecessor carries its group lands exactly at its
    index.  An ungrouped tab with index equal to the number of tab items
    lands last.  An ungrouped tab with a smaller index lands where the
    top-level child holding the item at that index begins: at the index
    when that item starts a top-level child, before it otherwise. *)
Theorem Tabs_insertTab_flat_position (NoGroup : Z) (tabInfo : Tab) (st : State) :
  let F := flat_tabs (mainList st) in
  let F' := flat_tabs (mainList (Tabs_insertTab NoGroup tabInfo st)) in
  let new := Tabs_createTab tabInfo in
  (tab_groupId tabInfo ≠ NoGroup →
   has_group (tab_groupId tabInfo) (mainList st) = true →
   ∀ previousTab, flat_get (mainList st) (tab_index tabInfo - 1) = Some previousTab →
   tn_group previousTab = tab_groupId tabInfo →
   F' = placed_at (Z.to_nat (tab_index tabInfo)) new F)
  ∧ (tab_groupId tabInfo = NoGroup →
     tab_index tabInfo = Z.of_nat (length F) →
     F' = F ++ [new])
  ∧ (tab_groupId tabInfo = NoGroup →
     0 ≤ tab_index tabInfo < Z.of_nat (length F) →
     let k := Z.to_nat (tab_index tabInfo) in
     F' = placed_at (holder_start k (mainList st)) new F
     ∧ (holder_start k (mainList st) ≤ k)%nat
     ∧ ∀ pre x post, mainList st = pre ++ x :: post →
         length (flat_tabs pre) = k → node_tabs x ≠ [] →
         holder_start k (mainList st) = k).
Proof.
  intros F F' new. subst F F' new. unfold Tabs_insertTab.
  split; [|split].
  - intros Hg Hhas previousTab Hprev Hsame.
    rewrite bool_decide_false by done. rewrite Hhas, Hprev.
    rewrite bool_decide_true by done. cbn [mainList set_mainList].
    unfold flat_get in Hprev. case_bool_decide as Hnn; [|done].
    apply lookup_lt_Some in Hprev.
    rewrite flat_insert_after by done.
    by replace (S (Z.to_nat (tab_index tabInfo - 1)))
      with (Z.to_nat (tab_index tabInfo)) by lia.
  - intros Hg Hidx. rewrite bool_decide_true by done.
    cbn zeta. rewrite bool_decide_true by done. cbn [mainList set_mainList].
    by rewrite flat_tabs_app.
  - intros Hg [Hnn Hlt]. rewrite bool_decide_true by done.
    cbn zeta. rewrite bool_decide_false by lia.
    rewrite bool_decide_true by done.
    assert (Z.to_nat (tab_index tabInfo) < length (flat_tabs (mainList st)))%nat
      as Hk by lia.
    unfold flat_get. rewrite bool_decide_true by done.
    destruct (lookup_lt_is_Some_2 _ _ Hk) as [referenceTab ->].
    cbn [mainList set_mainList].
    split; [by apply flat_insert_before|].
    split; [by apply holder_start_le|].
    intros pre x post Hl Hpre Hx. rewrite Hl, <- Hpre.
    by apply holder_start_boundary.
Qed.

Lemma Tabs_insertTab_mainList_ext (NoGroup : Z) tab st1 st2 :
  mainList st1 = mainList st2 →
  mainList (Tabs_insertTab NoGroup tab st1)
  = mainList (Tabs_insertTab NoGroup tab st2).
Proof.
  intros Heq. unfold Tabs_insertTab. rewrite Heq.
  repeat (case_bool_decide || case_match); done.
Qed.

Lemma Tabs_delayRebuild_frame st :
  WindowId (Tabs_delayRebuild st) = WindowId st
  ∧ mainList (Tabs_delayRebuild st) = mainList st
  ∧ cache (Tabs_delayRebuild st) = cache st
  ∧ dragging (Tabs_delayRebuild st) = dragging st.
Proof. done. Qed.

Lemma Tabs_insertTab_outcome (NoGroup : Z) tab st :
  WindowId (Tabs_insertTab NoGroup tab st) = WindowId st
  ∧ (Tabs_insertTab NoGroup tab st = Tabs_delayRebuild st
     ∨ has_tab (tab_id tab) (mainList (Tabs_insertTab NoGroup tab st)) = true).
Proof.
  assert (∀ F : list TabNode, tab_id tab ∈ tn_id <$> F →
               bool_decide (tab_id tab ∈ tn_id <$> F) = true) as Hin.
  { intros F HF. by rewrite bool_decide_true. }
  unfold Tabs_insertTab, has_tab.
  case_bool_decide as Hg; cbn zeta.
  - case_bool_decide as Hend.
    + split; [done|]. right. cbn [mainList set_mainList]. apply Hin.
      rewrite flat_tabs_app, fmap_app, elem_of_app. right.
      apply list_elem_of_singleton. done.
    + case_bool_decide as Hlt; [|by split; [|left]].
      destruct (flat_get (mainList st) (tab_index tab)) as [ref|] eqn:Href;
        [|by split; [|left]].
      split; [done|]. right. cbn [mainList set_mainList]. apply Hin.
      unfold flat_get in Href. case_bool_decide; [|done].
      apply lookup_lt_Some in Href.
      rewrite flat_insert_before by done.
      apply (has_tab_placed_at _ (Tabs_createTab tab)).
  - destruct (has_group (tab_groupId tab) (mainList st));
      [|by split; [|left]].
    destruct (flat_get (mainList st) (tab_index tab - 1)) as [prev|] eqn:Hprev;
      [|by split; [|left]].
    case_bool_decide as Hsame; [|by split; [|left]].
    split; [done|]. right. cbn [mainList set_mainList]. apply Hin.
    unfold flat_get in Hprev. case_bool_decide; [|done].
    apply lookup_lt_Some in Hprev.
    rewrite flat_insert_after by done.
    apply (has_tab_placed_at _ (Tabs_createTab tab)).
Qed.

(** X9. Tab-created never renders a tab twice: delivering the same event
    again leaves the main list as the first delivery left it, and an
    event for another window changes nothing. *)
Theorem Tabs_onCreated_no_duplicate (NoGroup : Z) (tab : Tab) (st : State) :
  mainList (Tabs_onCreated NoGroup tab (Tabs_onCreated NoGroup tab st))
  = mainList (Tabs_onCreated NoGroup tab st)
  ∧ (tab_windowId tab ≠ WindowId st → Tabs_onCreated NoGroup tab st = st).
Proof.
  split.
  2:{ intros Hw. unfold Tabs_onCreated. by rewrite bool_decide_false. }
  unfold Tabs_onCreated at 2 3.
  case_bool_decide as Hw; [|by unfold Tabs_onCreated; rewrite bool_decide_false].
  destruct (has_tab (tab_id tab) (mainList st)) eqn:Hhas.
  { unfold Tabs_onCreated. by rewrite bool_decide_true, Hhas. }
  destruct (Tabs_insertTab_outcome NoGroup tab st) as [Hwin [Hfall|Hin]].
  - rewrite Hfall. unfold Tabs_onCreated.
    destruct (Tabs_delayRebuild_frame st) as (-> & Hm & _).
    rewrite bool_decide_true by done. rewrite Hm, Hhas.
    rewrite (Tabs_insertTab_mainList_ext NoGroup tab _ st Hm).
    by rewrite Hfall.
  - unfold Tabs_onCreated. rewrite Hwin, bool_decide_true by done.
    by rewrite Hin.
Qed.

(** ** Handlers that patch nodes in place *)

Lemma alter_tab_in_ids id f b :
  (∀ t, tn_id (f t) = tn_id t) →
  tn_id <$> alter_tab_in id f b = tn_id <$> b.
Proof.
  intros Hf. induction b as [|t b IH]; [done|]. cbn.
  case_bool_decide; cbn; by rewrite ?Hf, ?IH.
Qed.

Lemma skeleton_map_tabs f l :
  (∀ t, tn_id (f t) = tn_id t) → skeleton (map_tabs f l) = skeleton l.
Proof.
  intros Hf. unfold skeleton, map_tabs. rewrite <- list_fmap_compose.
  apply list_fmap_ext. intros _ [t|g|] _; cbn; [by rewrite Hf| |done].
  f_equal. rewrite <- list_fmap_compose. apply list_fmap_ext.
  intros _ t _. apply Hf.
Qed.

Lemma skeleton_alter_tab id f l :
  (∀ t, tn_id (f t) = tn_id t) → skeleton (alter_tab id f l) = skeleton l.
Proof.
  intros Hf. unfold skeleton. induction l as [|n l IH]; [done|].
  destruct n as [t|g|]; cbn [alter_tab].
  - case_bool_decide; cbn; [by rewrite Hf|]. by f_equal.
  - case_bool_decide; cbn; [by rewrite alter_tab_in_ids|]. by f_equal.
  - cbn. by f_equal.
Qed.

Lemma skeleton_alter_group id f l :
  (∀ g, gn_id (f g) = gn_id g ∧ gn_body (f g) = gn_body g) →
  skeleton (alter_group id f l) = skeleton l.
Proof.
  intros Hf. unfold skeleton. induction l as [|n l IH]; [done|].
  destruct n as [t|g|]; cbn [alter_group].
  - cbn. by f_equal.
  - case_bool_decide; cbn; [|by f_equal].
    destruct (Hf g) as [-> ->]. done.
  - cbn. by f_equal.
Qed.

Lemma alter_tab_in_absent id f b :
  id ∉ tn_id <$> b → alter_tab_in id f b = b.
Proof.
  induction b as [|t b IH]; [done|]. cbn.
  rewrite not_elem_of_cons. intros [Hne Hb].
  rewrite bool_decide_false by done. by rewrite IH.
Qed.

Lemma active_after_activation id L : ∀ base i t,
  0 ≤ base →
  alter_tab_in id (set_active true) (set_active false <$> L) !! i = Some t →
  (tn_active t = true ↔ base + Z.of_nat i = index_from id base L).
Proof.
  induction L as [|a L IH]; intros base i t Hbase; cbn; [done|].
  assert (∀ j u, (set_active false <$> L) !! j = Some u → tn_active u = false)
    as Hoff.
  { intros j u. rewrite list_lookup_fmap.
    destruct (L !! j); intros [= <-]. done. }
  destruct (decide (tn_id a = id)) as [Ha|Ha].
  - rewrite !(bool_decide_true _ Ha).
    destruct i as [|i']; cbn.
    + intros [= <-]. cbn. split; [lia|done].
    + intros Hu. rewrite (Hoff _ _ Hu). split; [done|lia].
  - rewrite !(bool_decide_false _ Ha).
    destruct i as [|i']; cbn.
    + intros [= <-]. cbn.
      destruct (index_from_spec id L (base + 1) ltac:(lia)) as [[?|?] _];
        split; (done || lia).
    + intros Hu.
      rewrite (IH (base + 1) i' t ltac:(lia) Hu). split; lia.
Qed.

(** X10. After a tab-activated event of the current window exactly one
    tab item is marked active, the first one carrying the activated id
    (none when no item carries it); apart from the mark every tab item
    is as it was, and no node is added, removed or moved. *)
Theorem Tabs_onActivated_single_active (a : ActiveInfo) (st : State) :
  ai_windowId a = WindowId st →
  let l' := mainList (Tabs_onActivated a st) in
  skeleton l' = skeleton (mainList st)
  ∧ set_active false <$> flat_tabs l'
    = set_active false <$> flat_tabs (mainList st)
  ∧ ∀ i t, flat_tabs l' !! i = Some t →
      (tn_active t = true
       ↔ Z.of_nat i = index_of_tab (ai_tabId a) (mainList st)).
Proof.
  intros Hw l'.
  assert (flat_tabs l'
          = alter_tab_in (ai_tabId a) (set_active true)
              (set_active false <$> flat_tabs (mainList st))) as Hflat.
  { subst l'. unfold Tabs_onActivated. rewrite bool_decide_true by done.
    cbn zeta.
    destruct (has_tab _ _) eqn:Hhas; cbn [mainList set_mainList].
    - by rewrite flat_tabs_alter_tab, flat_tabs_map_tabs.
    - unfold has_tab in Hhas. apply bool_decide_eq_false in Hhas.
      rewrite flat_tabs_map_tabs in Hhas |- *.
      by rewrite alter_tab_in_absent. }
  split; [|split].
  - subst l'. unfold Tabs_onActivated. rewrite bool_decide_true by done.
    cbn zeta. destruct (has_tab _ _); cbn [mainList set_mainList];
      rewrite ?skeleton_alter_tab by done; by apply skeleton_map_tabs.
  - rewrite Hflat. clear.
    induction (flat_tabs (mainList st)) as [|t F IH]; [done|]. cbn.
    case_bool_decide; cbn; [|by rewrite IH].
    f_equal. rewrite <- list_fmap_compose. by apply list_fmap_ext.
  - intros i t. rewrite Hflat. intros Ht.
    rewrite (active_after_activation _ _ 0 i t ltac:(lia) Ht).
    unfold index_of_tab. split; lia.
Qed.

(** X11. The handlers that patch a node in place (tab-updated,
    tab-activated, group-updated) never add, remove or move a node: the
    top-level children and the tab ids each holds stay as they were,
    whatever the event says. *)
Theorem patch_handlers_keep_structure (st : State) :
  (∀ tabId changeInfo tab,
     skeleton (mainList (Tabs_onUpdated tabId changeInfo tab st))
     = skeleton (mainList st))
  ∧ (∀ a, skeleton (mainList (Tabs_onActivated a st)) = skeleton (mainList st))
  ∧ (∀ group, skeleton (mainList (Groups_onUpdated group st))
              = skeleton (mainList st)).
Proof.
  split; [|split].
  - intros tabId changeInfo tab. unfold Tabs_onUpdated, Tabs_updateGroup.
    case_bool_decide; [done|].
    destruct (has_tab tabId (mainList st)); cbn [negb]; [|done].
    destruct (truthy (ci_title changeInfo)
              || truthy (ci_url changeInfo) && truthy (Some (tab_title tab)));
      destruct (ci_pinned changeInfo), (ci_groupId changeInfo);
      cbn [mainList set_mainList];
      rewrite ?(proj1 (proj2 (Tabs_delayRebuild_frame _)));
      cbn [mainList set_mainList];
      by rewrite ?skeleton_alter_tab.
  - intros a. unfold Tabs_onActivated. case_bool_decide; [|done].
    cbn zeta. destruct (has_tab _ _); cbn [mainList set_mainList];
      rewrite ?skeleton_alter_tab by done; by apply skeleton_map_tabs.
  - intros group. unfold Groups_onUpdated. cbn zeta.
    case_bool_decide; [done|].
    destruct (has_group _ _); cbn [negb mainList set_mainList set_cache];
      [|done].
    by apply skeleton_alter_group.
Qed.

(** ** The group registry and the group-updated handler *)

Lemma find_group_alter_group id f l :
  (∀ g, gn_id (f g) = gn_id g) →
  find_group id (group_nodes (alter_group id f l))
  = f <$> find_group id (group_nodes l).
Proof.
  intros Hf. unfold group_nodes. induction l as [|n l IH]; [done|].
  destruct n as [t|g|]; cbn [alter_group]; [exact IH| |exact IH].
  destruct (decide (gn_id g = id)) as [Hg|Hg].
  - rewrite (bool_decide_true _ Hg). cbn.
    rewrite Hf, !(bool_decide_true _ Hg). done.
  - rewrite (bool_decide_false _ Hg). cbn.
    rewrite !(bool_decide_false _ Hg). exact IH.
Qed.

Lemma has_group_find_group id l :
  has_group id l = true → is_Some (find_group id (group_nodes l)).
Proof.
  unfold has_group. rewrite bool_decide_eq_true.
  induction (group_nodes l) as [|g gs IH]; cbn.
  { by intros ?%elem_of_nil. }
  intros Hin. case_bool_decide as Hg; [by eexists|].
  apply elem_of_cons in Hin as [Hin|Hin]; [done|]. by apply IH.
Qed.

Lemma find_group_has_group id l g :
  find_group id (group_nodes l) = Some g → has_group id l = true.
Proof.
  unfold has_group. rewrite bool_decide_eq_true.
  induction (group_nodes l) as [|x gs IH]; [done|]. cbn.
  case_bool_decide as Hx.
  - intros _. apply elem_of_cons. by left.
  - intros Hf. apply elem_of_cons. right. by apply IH.
Qed.

Lemma Groups_updateTitle_not_empty title : Groups_updateTitle title ≠ "".
Proof.
  unfold Groups_updateTitle. cbn zeta. case_bool_decide as Hlen; [done|].
  intros Heq. apply Hlen. by rewrite Heq.
Qed.

(** X12. After a group-updated event of the current window whose group
    has a node, the registry answers with the event's group without
    asking the host, and the first node of that id shows the group's
    color, its collapsed state and, as label, its title without the
    white space around it, or a zero-width space when nothing is left;
    the label is never empty.  The marks and the tab items of the node
    are untouched and no rebuild is scheduled. *)
Theorem Groups_onUpdated_mirrors (group : Group) (st : State) (g : GroupNode) :
  grp_windowId group = WindowId st →
  find_group (grp_id group) (group_nodes (mainList st)) = Some g →
  let st' := Groups_onUpdated group st in
  (∀ w, Groups_get w (grp_id group) (cache st') = (cache st', Some group))
  ∧ find_group (grp_id group) (group_nodes (mainList st'))
    = Some (mkGroupNode (gn_id g) (grp_color group)
                        (Groups_updateTitle (grp_title group))
                        (grp_collapsed group) (gn_mark g) (gn_header g)
                        (gn_body g))
  ∧ Groups_updateTitle (grp_title group) ≠ ""
  ∧ (String_trim (grp_title group) ≠ "" →
     Groups_updateTitle (grp_title group) = String_trim (grp_title group))
  ∧ (String_trim (grp_title group) = "" →
     Groups_updateTitle (grp_title group) = zero_width_space)
  ∧ timers st' = timers st
  ∧ delayTimeoutId st' = delayTimeoutId st.
Proof.
  intros Hw Hg st'. subst st'. unfold Groups_onUpdated. cbn zeta.
  rewrite bool_decide_false by (cbn; by intros H; apply H).
  cbn [mainList set_cache].
  rewrite (find_group_has_group _ _ _ Hg). cbn [negb].
  split; [|split; [|split; [|split; [|split]]]].
  - intros w. unfold Groups_get. cbn. by rewrite lookup_insert_eq.
  - cbn [mainList set_mainList].
    rewrite find_group_alter_group by done. by rewrite Hg.
  - apply Groups_updateTitle_not_empty.
  - intros Hne. unfold Groups_updateTitle. cbn zeta.
    rewrite bool_decide_false; [done|].
    intros Hlen. apply Hne. by destruct (String_trim (grp_title group)).
  - intros Heq. unfold Groups_updateTitle. cbn zeta. by rewrite Heq.
  - done.
Qed.

Lemma cache_consistent_insert c group :
  cache_consistent c → cache_consistent (<[grp_id group := group]> c).
Proof.
  intros Hc k g. destruct (decide (grp_id group = k)) as [<-|Hne].
  - rewrite lookup_insert_eq. by intros [= <-].
  - rewrite lookup_insert_ne by done. apply Hc.
Qed.

Lemma Groups_init_lookup allGroups : ∀ (c : gmap Z Group) k,
  foldl (λ c group, <[grp_id group := group]> c) c allGroups !! k
  = match last (filter (λ g, grp_id g = k) allGroups) with
    | Some g => Some g
    | None => c !! k
    end.
Proof.
  induction allGroups as [|g gs IH]; intros c k; [done|].
  cbn [foldl]. rewrite IH, filter_cons.
  destruct (decide (grp_id g = k)) as [Hg|Hg].
  - destruct (filter _ gs) as [|g' gs'] eqn:Hf.
    + cbn. by rewrite <- Hg, lookup_insert_eq.
    + rewrite last_cons_cons.
      destruct (last (g' :: gs')) eqn:E; [done|]. by apply last_None in E.
  - destruct (last _); [done|]. by rewrite lookup_insert_ne.
Qed.

(** X13. The registry files every group under its own id: starting the
    registry establishes this, and group-created, group-updated,
    group-removed and group-moved events keep it. *)
Theorem registry_keys_match (st : State) (group : Group) :
  (∀ allGroups, cache_consistent (cache (Groups_init allGroups st)))
  ∧ (cache_consistent (cache st) →
     cache_consistent (cache (Groups_onCreated group st))
     ∧ cache_consistent (cache (Groups_onUpdated group st))
     ∧ cache_consistent (cache (Groups_onRemoved group st))
     ∧ cache_consistent (cache (Groups_onMoved group st))).
Proof.
  split.
  - intros allGroups k g. unfold Groups_init. cbn [cache set_cache].
    rewrite Groups_init_lookup, lookup_empty.
    destruct (last _) as [g'|] eqn:Hlast; [|done]. intros [= ->].
    apply last_Some_elem_of in Hlast.
    by apply list_elem_of_filter in Hlast as [? _].
  - intros Hc. repeat split.
    + by apply cache_consistent_insert.
    + unfold Groups_onUpdated. cbn zeta.
      case_bool_decide; [by apply cache_consistent_insert|].
      destruct (negb _); by apply cache_consistent_insert.
    + unfold Groups_onRemoved. cbn zeta.
      destruct (has_group _ _); cbn [cache set_cache set_mainList];
        intros k g [_ Hg]%lookup_delete_Some; by apply Hc.
    + unfold Groups_onMoved. case_bool_decide; [|done].
      by rewrite (proj1 (proj2 (proj2 (Tabs_delayRebuild_frame st)))).
Qed.

(** X14. What a lookup finds after a registry event.  After
    group-created or group-updated the registry answers with that group
    without asking the host; after group-removed it has no entry and
    answers what the host answers, nothing when the host throws; every
    event leaves the entries of the other ids as they were.  After
    start-up an id answers with the last of the queried groups carrying
    it. *)
Theorem registry_lookup_after_event (st : State) (group : Group) :
  (∀ w, Groups_get w (grp_id group) (cache (Groups_onCreated group st))
        = (cache (Groups_onCreated group st), Some group))
  ∧ (∀ w, Groups_get w (grp_id group) (cache (Groups_onUpdated group st))
          = (cache (Groups_onUpdated group st), Some group))
  ∧ cache (Groups_onRemoved group st) !! grp_id group = None
  ∧ (∀ w, w_group w (grp_id group) = None →
          Groups_get w (grp_id group) (cache (Groups_onRemoved group st))
          = (cache (Groups_onRemoved group st), None))
  ∧ (∀ k, k ≠ grp_id group →
          cache (Groups_onCreated group st) !! k = cache st !! k
          ∧ cache (Groups_onUpdated group st) !! k = cache st !! k
          ∧ cache (Groups_onRemoved group st) !! k = cache st !! k)
  ∧ (∀ allGroups k,
       cache (Groups_init allGroups st) !! k
       = last (filter (λ g, grp_id g = k) allGroups)).
Proof.
  assert (cache (Groups_onUpdated group st)
          = <[grp_id group := group]> (cache st)) as Hupd.
  { unfold Groups_onUpdated. cbn zeta. case_bool_decide; [done|].
    by destruct (negb _). }
  assert (cache (Groups_onRemoved group st)
          = delete (grp_id group) (cache st)) as Hrem.
  { unfold Groups_onRemoved. cbn zeta. by destruct (has_group _ _). }
  rewrite Hupd, Hrem. unfold Groups_onCreated, Groups_get. cbn [cache set_cache].
  repeat split.
  - intros w. by rewrite lookup_insert_eq.
  - intros w. by rewrite lookup_insert_eq.
  - by rewrite lookup_delete_eq.
  - intros w Hw. by rewrite lookup_delete_eq, Hw.
  - by rewrite lookup_insert_ne.
  - by rewrite lookup_insert_ne.
  - by rewrite lookup_delete_ne.
  - intros allGroups k. unfold Groups_init. cbn [cache set_cache].
    rewrite Groups_init_lookup, lookup_empty. by destruct (last _).
Qed.

(** ** The move a drop makes in the tree *)

Lemma find_tab_perm id L t :
  find_tab id L = Some t → tn_id t = id ∧ t :: remove_tab_in id L ≡ₚ L.
Proof.
  induction L as [|x L IH]; [done|]. cbn.
  case_bool_decide as Hx; [by intros [= <-]|].
  intros [Hid Hp]%IH. split; [done|].
  rewrite <- Hp at 2. apply Permutation_swap.
Qed.

Lemma has_tab_find_tab id l :
  has_tab id l = true → is_Some (find_tab id (flat_tabs l)).
Proof.
  unfold has_tab. rewrite bool_decide_eq_true.
  induction (flat_tabs l) as [|t F IH]; cbn.
  { by intros ?%elem_of_nil. }
  intros Hin. case_bool_decide as Ht; [by eexists|].
  apply elem_of_cons in Hin as [Hin|Hin]; [done|]. by apply IH.
Qed.

Lemma insert_in_body_perm id t b :
  id ∈ tn_id <$> b → insert_in_body id t b ≡ₚ t :: b.
Proof.
  induction b as [|x b IH]; cbn.
  { by intros ?%elem_of_nil. }
  intros Hin. case_bool_decide as Hx; [done|].
  apply elem_of_cons in Hin as [Hin|Hin]; [done|].
  rewrite IH by done. apply Permutation_swap.
Qed.

Lemma ref_exists_tail target n rest :
  node_ref n ≠ target →
  match n, target with
  | NGroup g, RTab id => in_body id g = false
  | _, _ => True
  end →
  ref_exists target (n :: rest) = true → ref_exists target rest = true.
Proof.
  intros Hne Hbody.
  destruct target as [id|gid|]; cbn [ref_exists];
    unfold has_tab, has_group, group_nodes;
    rewrite ?bool_decide_eq_true.
  - rewrite flat_tabs_cons, fmap_app, elem_of_app. intros [Hin|Hin]; [|done].
    destruct n as [x|g|]; cbn in Hin.
    + apply list_elem_of_singleton in Hin. by subst.
    + unfold in_body in Hbody. by apply bool_decide_eq_false in Hbody.
    + by apply elem_of_nil in Hin.
  - destruct n as [x|g|]; cbn; [done| |done].
    intros [Hin|Hin]%elem_of_cons; [|done]. cbn in Hne. by subst.
  - destruct n as [x|g|]; cbn; done.
Qed.

Lemma flat_insert_tab_before target t l :
  ref_exists target l = true →
  flat_tabs (insert_tab_before target t l) ≡ₚ t :: flat_tabs l.
Proof.
  induction l as [|n l IH]; intros Hex.
  { destruct target; cbn in Hex; try done;
      unfold has_tab, has_group in Hex; apply bool_decide_eq_true in Hex;
      by apply elem_of_nil in Hex. }
  cbn [insert_tab_before]. case_bool_decide as Hn; [done|].
  assert (match n, target with
          | NGroup g, RTab id => in_body id g = false
          | _, _ => True
          end →
          flat_tabs (n :: insert_tab_before target t l)
          ≡ₚ t :: flat_tabs (n :: l)) as Hrec.
  { intros Hbody. rewrite !flat_tabs_cons.
    rewrite IH by (by eapply ref_exists_tail).
    symmetry. apply Permutation_middle. }
  destruct n as [x|g|], target as [id|gid|]; try (by apply Hrec).
  destruct (in_body id g) eqn:Hin; [|by apply Hrec].
  rewrite !flat_tabs_cons. cbn [node_tabs set_body gn_body].
  unfold in_body in Hin. apply bool_decide_eq_true in Hin.
  by rewrite insert_in_body_perm.
Qed.

Lemma group_ids_insert_tab_before target t l :
  gn_id <$> group_nodes (insert_tab_before target t l)
  = gn_id <$> group_nodes l.
Proof.
  unfold group_nodes. induction l as [|n l IH]; [done|].
  cbn [insert_tab_before]. case_bool_decide as Hn; [done|].
  destruct n as [x|g|], target as [id|gid|]; cbn; rewrite ?IH; try done.
  destruct (in_body id g); cbn; by rewrite ?IH.
Qed.

Lemma remove_tab_in_keeps id d L :
  d ≠ id → d ∈ tn_id <$> L → d ∈ tn_id <$> remove_tab_in id L.
Proof.
  intros Hne. induction L as [|x L IH]; [done|]. cbn.
  intros [Hd|Hd]%elem_of_cons; case_bool_decide as Hx.
  - congruence.
  - apply elem_of_cons. by left.
  - done.
  - apply elem_of_cons. right. by apply IH.
Qed.

Lemma ref_exists_remove_tab target tabId l :
  target ≠ RTab tabId → ref_exists target l = true →
  ref_exists target (remove_tab tabId l) = true.
Proof.
  intros Hne. destruct target as [d|gid|]; cbn [ref_exists].
  - unfold has_tab. rewrite !bool_decide_eq_true, flat_tabs_remove_tab.
    apply remove_tab_in_keeps. congruence.
  - unfold has_group. by rewrite group_ids_remove_tab.
  - induction l as [|n l IH]; [done|].
    destruct n as [x|g|]; cbn [remove_tab]; [| |done].
    + case_bool_decide; cbn; [done|exact IH].
    + case_bool_decide; cbn; [done|exact IH].
Qed.

(** X15. The move a drop makes in the tree before it calls the host
    neither loses nor duplicates a node.  For a tab dropped on an
    existing target other than itself the tab items are the same up to
    order, the group items are the same in the same order, and the tab
    is found again, so the index sent to the host is not -1.  A group
    dropped on an existing target other than itself either stays among
    the children of the main list, which are then the same up to order,
    or goes into the body of another group; it does the latter exactly
    when the drop target is a tab item in the body of another group. *)
Theorem drop_move_keeps_nodes (target : Ref) (l : list Node) :
  ref_exists target l = true →
  (∀ tabId, target ≠ RTab tabId →
     flat_tabs (tab_before target tabId l) ≡ₚ flat_tabs l
     ∧ gn_id <$> group_nodes (tab_before target tabId l)
       = gn_id <$> group_nodes l
     ∧ (has_tab tabId l = true →
        0 ≤ index_of_tab tabId (tab_before target tabId l)))
  ∧ (∀ groupId l1, target ≠ RGroup groupId →
       group_before target groupId l = Some (placed l1) → l1 ≡ₚ l)
  ∧ (∀ groupId g, find_group groupId (group_nodes l) = Some g →
       (group_before target groupId l = Some nested
        ↔ ∃ id, target = RTab id ∧ in_body id g = false
                ∧ Groups_isInGroup target l = true)).
Proof.
  intros Hex. split; [|split].
  - intros tabId Hne. unfold tab_before.
    destruct (find_tab tabId (flat_tabs l)) as [t|] eqn:Hfind.
    + destruct (find_tab_perm _ _ _ Hfind) as [Hid Hperm].
      assert (flat_tabs (insert_tab_before target t (remove_tab tabId l))
              ≡ₚ flat_tabs l) as Hflat.
      { rewrite flat_insert_tab_before
          by (by apply ref_exists_remove_tab).
        by rewrite flat_tabs_remove_tab. }
      split; [done|]. split.
      * by rewrite group_ids_insert_tab_before, group_ids_remove_tab.
      * intros Hhas. unfold index_of_tab. apply index_from_found.
        rewrite Hflat. unfold has_tab in Hhas.
        by apply bool_decide_eq_true in Hhas.
    + split; [done|]. split; [done|]. intros Hhas.
      apply has_tab_find_tab in Hhas as [t Ht]. congruence.
  - intros groupId l1 Hne Hb. by eapply group_before_perm.
  - intros groupId g Hg. unfold group_before. rewrite Hg.
    destruct target as [id|gid|].
    + destruct (in_body id g) eqn:Hown.
      { split; [done|]. intros (id' & [= <-] & Hno & _). congruence. }
      destruct (Groups_isInGroup (RTab id) l) eqn:Hin.
      * split; [|done]. intros _. by exists id.
      * split; [done|]. intros (id' & [= <-] & _ & Hyes). congruence.
    + split; [by case_bool_decide|]. by intros (id & ? & _).
    + split; [done|]. by intros (id & ? & _).
Qed.

(** ** What a drop asks of the host *)

Lemma host_calls_only_ret {A} (a : A) : host_calls_only (mret a).
Proof.
  intros h. exists []. split; [by rewrite app_nil_r|]. by intros ?%elem_of_nil.
Qed.

Lemma host_calls_only_throw {A} : host_calls_only (@throw A).
Proof.
  intros h. exists []. split; [by rewrite app_nil_r|]. by intros ?%elem_of_nil.
Qed.

Lemma host_calls_only_await api op :
  op ≠ full_rebuild → host_calls_only (await api op).
Proof.
  intros Hop h. exists [op]. split; [done|].
  by intros ?%list_elem_of_singleton.
Qed.

Lemma host_calls_only_bind {A B} (m : Eff A) (k : A → Eff B) :
  host_calls_only m → (∀ a, host_calls_only (k a)) →
  host_calls_only (m ≫= k).
Proof.
  intros Hm Hk h. unfold mbind, Eff_bind.
  destruct (Hm h) as (ops & Hops & Hno).
  destruct (m h) as [h' [a|]]; cbn in Hops; subst h'.
  - destruct (Hk a (h ++ ops)) as (ops' & Hops' & Hno').
    exists (ops ++ ops'). rewrite Hops', app_assoc. split; [done|].
    rewrite elem_of_app. tauto.
  - by exists ops.
Qed.

Lemma host_calls_only_try_catch (m : Eff unit) :
  host_calls_only m → host_calls_only (try_catch m).
Proof. intros Hm h. exact (Hm h). Qed.

Lemma host_calls_only_for_each {A} (f : A → Eff Z) l :
  (∀ a, host_calls_only (f a)) → host_calls_only (for_each f l).
Proof.
  intros Hf. induction l as [|a l IH]; cbn [for_each].
  - apply host_calls_only_ret.
  - apply host_calls_only_bind; [apply Hf|]. by intros _.
Qed.

Lemma then_rebuild (m : Eff unit) :
  host_calls_only m →
  ∃ calls, ((try_catch m ;; note full_rebuild) []).1 = calls ++ [full_rebuild]
           ∧ full_rebuild ∉ calls.
Proof.
  intros Hm. destruct (Hm []) as (ops & Hops & Hno).
  exists ops. split; [|done].
  unfold mbind, Eff_bind, try_catch, note. cbn. by rewrite Hops.
Qed.

Local Ltac host_calls :=
  repeat match goal with
         | |- host_calls_only (mret _) => apply host_calls_only_ret
         | |- host_calls_only throw => apply host_calls_only_throw
         | |- host_calls_only (await _ _) =>
             apply host_calls_only_await; discriminate
         | |- host_calls_only (try_catch _) => apply host_calls_only_try_catch
         | |- host_calls_only (for_each _ _) =>
             apply host_calls_only_for_each; intros ?
         | |- host_calls_only (_ ≫= _) =>
             apply host_calls_only_bind; [|intros ?]
         | |- host_calls_only (if ?b then _ else _) => destruct b
         | |- host_calls_only (match ?o with Some _ => _ | None => _ end) =>
             destruct o
         end.

(** X16. [DnD.drop] either ignores the drop, changing nothing and
    calling nothing, or it hands the drop on and then the calls end with
    exactly one rebuild, the last step, whatever the host answers.  It
    ignores the drop exactly when there is no drag payload, the dragged
    element is gone, it is dropped on itself, or the drop target is
    already its next sibling. *)
Theorem DnD_drop_ignores_or_rebuilds (NoGroup : Z) (w : World) (api : Host)
    (d : option DragId) (z : Zone) (st : State) :
  (drop_ignored d z (mainList st) →
   DnD_drop NoGroup w api d z st = (Some st, []))
  ∧ (¬ drop_ignored d z (mainList st) →
     ∃ calls, (DnD_drop NoGroup w api d z st).2 = calls ++ [full_rebuild]
              ∧ full_rebuild ∉ calls).
Proof.
  unfold drop_ignored, DnD_drop. destruct d as [d|]; [|by split].
  destruct (ref_exists (drag_ref d) (mainList st)) eqn:Hex; cbn [negb].
  2:{ split; [done|]. intros Hn. destruct Hn. by left. }
  destruct (decide (drag_ref d = zone_target z)) as [Hs|Hs].
  { rewrite (bool_decide_true _ Hs). cbn [orb]. split; [done|].
    intros Hn. destruct Hn. right. by left. }
  rewrite (bool_decide_false _ Hs). cbn [orb].
  destruct (decide (next_sibling (drag_ref d) (mainList st)
                    = Some (zone_target z))) as [Hn|Hn].
  { rewrite (bool_decide_true _ Hn). split; [done|].
    intros Hi. destruct Hi. right. by right. }
  rewrite (bool_decide_false _ Hn).
  split; [by intros [?|[?|?]]|]. intros _.
  destruct d as [n|n]; cbn [snd].
  - unfold DnD_moveTab, tab_drop_calls. cbn [snd].
    apply then_rebuild. host_calls.
  - unfold DnD_moveGroup. cbn zeta.
    assert (∃ calls, [full_rebuild] = calls ++ [full_rebuild]
                     ∧ full_rebuild ∉ calls) as Hbare.
    { exists []. split; [done|]. by intros ?%elem_of_nil. }
    destruct (group_before _ _ _) as [p|]; [|done].
    destruct (_ || _).
    + destruct (Groups_get _ _ _) as [c' groupInfo]. cbn [snd].
      unfold group_recreate_calls. apply then_rebuild. host_calls.
    + case_bool_decide; cbn [snd]; [|done].
      apply then_rebuild. host_calls.
Qed.

(** ** A tab drag that ends without a drop *)

Lemma erase_cons n l : erase (n :: l) = erase [n] ++ erase l.
Proof. unfold erase. cbn. by rewrite app_nil_r. Qed.

Lemma erase_app l1 l2 : erase (l1 ++ l2) = erase l1 ++ erase l2.
Proof. unfold erase. apply bind_app. Qed.

Lemma erase_clean l : Forall node_clean l → erase l = l.
Proof.
  induction 1 as [|n l Hn _ IH]; [done|].
  rewrite erase_cons, IH. destruct n as [t|g|]; cbn in *; [| |done].
  - destruct Hn as (? & ? & ?). destruct t; cbn in *. by simplify_eq.
  - destruct Hn as (Hz & Ho & Hb).
    destruct g as [i c ti co m [hd hc hz ho] body]; cbn in *. simplify_eq.
    do 3 f_equal. unfold erase_group. cbn. f_equal.
    induction Hb as [|t b (? & ? & ?) _ IHb]; [done|]. cbn. rewrite IHb.
    f_equal. destruct t; cbn in *. by simplify_eq.
Qed.

Lemma erase_tab_alter_in id f b :
  (∀ t, erase_tab (f t) = erase_tab t) →
  erase_tab <$> alter_tab_in id f b = erase_tab <$> b.
Proof.
  intros Hf. induction b as [|t b IH]; [done|]. cbn.
  case_bool_decide; cbn; by rewrite ?Hf, ?IH.
Qed.

Lemma erase_alter_tab id f l :
  (∀ t, erase_tab (f t) = erase_tab t) → erase (alter_tab id f l) = erase l.
Proof.
  intros Hf. induction l as [|n l IH]; [done|].
  destruct n as [t|g|]; cbn [alter_tab].
  - case_bool_decide.
    + rewrite erase_cons, (erase_cons (NTab t)). cbn. by rewrite Hf.
    + by rewrite erase_cons, (erase_cons (NTab t)), IH.
  - case_bool_decide.
    + rewrite erase_cons, (erase_cons (NGroup g)). cbn.
      unfold erase_group. cbn. by rewrite erase_tab_alter_in.
    + by rewrite erase_cons, (erase_cons (NGroup g)), IH.
  - by rewrite erase_cons, (erase_cons NFake), IH.
Qed.

Lemma erase_alter_group id f l :
  (∀ g, erase_group (f g) = erase_group g) →
  erase (alter_group id f l) = erase l.
Proof.
  intros Hf. induction l as [|n l IH]; [done|].
  destruct n as [t|g|]; cbn [alter_group].
  - by rewrite erase_cons, (erase_cons (NTab t)), IH.
  - case_bool_decide.
    + rewrite erase_cons, (erase_cons (NGroup g)). cbn. by rewrite Hf.
    + by rewrite erase_cons, (erase_cons (NGroup g)), IH.
  - by rewrite erase_cons, (erase_cons NFake), IH.
Qed.

Lemma erase_map_tabs f l :
  (∀ t, erase_tab (f t) = erase_tab t) → erase (map_tabs f l) = erase l.
Proof.
  intros Hf. unfold map_tabs. induction l as [|n l IH]; [done|].
  rewrite fmap_cons, erase_cons, (erase_cons n), IH. f_equal.
  destruct n as [t|g|]; cbn; [by rewrite Hf| |done].
  assert (erase_tab <$> (f <$> gn_body g) = erase_tab <$> gn_body g) as Hb.
  { rewrite <- list_fmap_compose. apply list_fmap_ext. intros _ t _. apply Hf. }
  unfold erase_group. cbn. by rewrite Hb.
Qed.

Lemma erase_map_groups f l :
  (∀ g, erase_group (f g) = erase_group g) → erase (map_groups f l) = erase l.
Proof.
  intros Hf. unfold map_groups. induction l as [|n l IH]; [done|].
  rewrite fmap_cons, erase_cons, (erase_cons n), IH. f_equal.
  destruct n as [t|g|]; cbn; [done| |done]. by rewrite Hf.
Qed.

Lemma erase_without_fake l : erase (without_fake l) = erase l.
Proof.
  unfold without_fake. induction l as [|n l IH]; [done|].
  rewrite filter_cons. destruct n as [t|g|]; cbn [is_fake].
  - rewrite decide_True by done.
    by rewrite erase_cons, (erase_cons (NTab t)), IH.
  - rewrite decide_True by done.
    by rewrite erase_cons, (erase_cons (NGroup g)), IH.
  - rewrite decide_False by done. by rewrite (erase_cons NFake), IH.
Qed.

Lemma erase_add_drop_zone l : erase (add_drop_zone l) = erase l.
Proof.
  unfold add_drop_zone. rewrite erase_map_groups by done.
  by apply erase_map_tabs.
Qed.

Lemma erase_strip_zones l : erase (strip_zones l) = erase l.
Proof.
  unfold strip_zones. rewrite erase_map_groups by done.
  by apply erase_map_tabs.
Qed.

Lemma flat_tabs_map_groups f l :
  (∀ g, gn_body (f g) = gn_body g) → flat_tabs (map_groups f l) = flat_tabs l.
Proof.
  intros Hf. unfold map_groups. induction l as [|n l IH]; [done|].
  rewrite fmap_cons, !flat_tabs_cons, IH. f_equal.
  destruct n; cbn; by rewrite ?Hf.
Qed.

Lemma flat_tabs_alter_group id f l :
  (∀ g, gn_body (f g) = gn_body g) →
  flat_tabs (alter_group id f l) = flat_tabs l.
Proof.
  intros Hf. induction l as [|n l IH]; [done|].
  destruct n as [t|g|]; cbn [alter_group].
  - by rewrite !flat_tabs_cons, IH.
  - case_bool_decide.
    + rewrite !flat_tabs_cons. cbn. by rewrite Hf.
    + by rewrite !flat_tabs_cons, IH.
  - by rewrite !flat_tabs_cons, IH.
Qed.

Lemma flat_tabs_without_fake l : flat_tabs (without_fake l) = flat_tabs l.
Proof.
  unfold without_fake. induction l as [|n l IH]; [done|].
  rewrite filter_cons. destruct n as [t|g|]; cbn [is_fake].
  - rewrite decide_True by done. by rewrite !flat_tabs_cons, IH.
  - rewrite decide_True by done. by rewrite !flat_tabs_cons, IH.
  - rewrite decide_False by done. by rewrite flat_tabs_cons, IH.
Qed.

Lemma only_dragged_start tabId F :
  Forall tab_clean F →
  only_dragged tabId
    ((λ t, set_tab_marks (tn_dragging t) true (tn_drag_over t) t)
       <$> alter_tab_in tabId
             (λ t, set_tab_marks true (tn_drop_zone t) (tn_drag_over t) t) F).
Proof.
  unfold only_dragged.
  induction 1 as [|t F (Hd & _ & _) HF IH]; [done|]. cbn.
  destruct (decide (tn_id t = tabId)) as [Ht|Ht].
  - rewrite (bool_decide_true _ Ht). cbn. rewrite (bool_decide_true _ Ht).
    constructor; [done|]. apply Forall_fmap.
    eapply Forall_impl; [exact HF|]. by intros x (? & _ & _).
  - rewrite (bool_decide_false _ Ht). cbn. rewrite (bool_decide_false _ Ht).
    by constructor.
Qed.

Lemma only_dragged_alter tabId id g L :
  (∀ t, tn_id (g t) = tn_id t ∧ tn_dragging (g t) = tn_dragging t) →
  only_dragged tabId L → only_dragged tabId (alter_tab_in id g L).
Proof.
  intros Hg. unfold only_dragged.
  induction L as [|t L IH]; [done|]. cbn.
  destruct (Hg t) as [Hgi Hgd].
  destruct (decide (tn_id t = id)) as [Hid|Hid];
    [rewrite (bool_decide_true _ Hid)|rewrite (bool_decide_false _ Hid)];
    cbn; rewrite ?Hgi;
    (destruct (decide (tn_id t = tabId)) as [Ht|Ht];
     [rewrite !(bool_decide_true _ Ht)|rewrite !(bool_decide_false _ Ht)]);
    intros [Hhd Htl]%Forall_cons; constructor; cbn in *; try done.
  - by rewrite Hgd.
  - clear -Hg Htl. induction L as [|x L IHL]; [done|]. cbn.
    apply Forall_cons in Htl as [Hx Htl].
    case_bool_decide; constructor; try done;
      [by rewrite (proj2 (Hg x))|by apply IHL].
  - by apply IH.
Qed.

Lemma clean_after_strip Y :
  Forall (λ t, tn_dragging t = false) (flat_tabs Y) →
  Forall node_clean (without_fake (strip_zones Y)).
Proof.
  unfold without_fake, strip_zones, map_groups, map_tabs.
  induction Y as [|n Y IH]; [constructor|].
  rewrite flat_tabs_cons, Forall_app. intros [Hn HY].
  rewrite !fmap_cons, filter_cons.
  destruct n as [t|g|]; cbn [is_fake].
  - rewrite decide_True by done. constructor; [|by apply IH].
    cbn in *. by apply Forall_cons in Hn as [-> _].
  - rewrite decide_True by done. constructor; [|by apply IH].
    cbn in *. split; [done|]. split; [done|].
    apply Forall_fmap. eapply Forall_impl; [exact Hn|].
    intros x Hx. by repeat split.
  - rewrite decide_False by done. by apply IH.
Qed.

Lemma hover_keeps tabId l0 z b st :
  is_Some (fakeBottom st) ∧ dragging st = true
  ∧ erase (mainList st) = erase l0
  ∧ only_dragged tabId (flat_tabs (mainList st)) →
  is_Some (fakeBottom (set_over b z st)) ∧ dragging (set_over b z st) = true
  ∧ erase (mainList (set_over b z st)) = erase l0
  ∧ only_dragged tabId (flat_tabs (mainList (set_over b z st)))
  ∧ WindowId (set_over b z st) = WindowId st
  ∧ cache (set_over b z st) = cache st
  ∧ timers (set_over b z st) = timers st.
Proof.
  intros (Hf & Hd & He & Ho).
  destruct z as [id|gid|]; cbn [set_over].
  - cbn [mainList set_mainList fakeBottom dragging].
    split; [done|]. split; [done|].
    split; [by rewrite erase_alter_tab|].
    split; [|done].
    rewrite flat_tabs_alter_tab. by apply only_dragged_alter.
  - cbn [mainList set_mainList fakeBottom dragging].
    split; [done|]. split; [done|].
    split; [by rewrite erase_alter_group|].
    split; [|done].
    by rewrite flat_tabs_alter_group.
  - destruct Hf as [o Hf]. rewrite Hf. cbn. by eauto 10.
Qed.

(** X17. A tab drag over a tree free of drag classes that ends without a
    drop leaves the main list exactly as it was, wherever the pointer
    went in between: after drag-start and its frame callback the session
    flag is set, and drag-end clears it and takes away every class the
    session put on and the synthetic drop zone.  The window id, the
    registry and the timers are not touched. *)
Theorem tab_drag_without_drop_restores (NoGroup : Z) (w : World) (api : Host)
    (tabId : Z) (steps : list DragStep) (st : State) :
  Forall node_clean (mainList st) →
  Forall is_hover steps →
  let st' := tab_drag_session NoGroup w api tabId steps st in
  dragging (DnD_dragStart_frame (DnD_dragStart tabId st)) = true
  ∧ mainList st' = mainList st
  ∧ dragging st' = false
  ∧ WindowId st' = WindowId st
  ∧ cache st' = cache st
  ∧ timers st' = timers st.
Proof.
  intros Hclean Hsteps st'. split; [done|].
  set (mid := DnD_dragStart_frame (DnD_dragStart tabId st)).
  assert (is_Some (fakeBottom mid) ∧ dragging mid = true
          ∧ erase (mainList mid) = erase (mainList st)
          ∧ only_dragged tabId (flat_tabs (mainList mid))
          ∧ WindowId mid = WindowId st ∧ cache mid = cache st
          ∧ timers mid = timers st) as Hmid.
  { subst mid.
    unfold DnD_dragStart_frame, DnD_insertFakeBottom, DnD_dragStart.
    cbn [mainList set_mainList set_fakeBottom set_dragging fakeBottom
         dragging WindowId cache timers].
    split; [by destruct (fakeBottom st); eauto|]. split; [done|].
    split.
    { rewrite erase_app, erase_without_fake, erase_add_drop_zone.
      rewrite erase_alter_tab by done. cbn. by rewrite app_nil_r. }
    split; [|done].
    rewrite flat_tabs_app, flat_tabs_without_fake. cbn. rewrite app_nil_r.
    unfold add_drop_zone.
    rewrite flat_tabs_map_groups, flat_tabs_map_tabs, flat_tabs_alter_tab
      by done.
    apply only_dragged_start.
    clear -Hclean. induction Hclean as [|n l Hn _ IH]; [constructor|].
    rewrite flat_tabs_cons. apply Forall_app. split; [|done].
    destruct n as [t|g|]; cbn in *; [by constructor|tauto|done]. }
  assert (∀ s,
    is_Some (fakeBottom s) ∧ dragging s = true
    ∧ erase (mainList s) = erase (mainList st)
    ∧ only_dragged tabId (flat_tabs (mainList s))
    ∧ WindowId s = WindowId st ∧ cache s = cache st ∧ timers s = timers st →
    let e := foldl (tab_drag_step NoGroup w api tabId) s steps in
    is_Some (fakeBottom e) ∧ dragging e = true
    ∧ erase (mainList e) = erase (mainList st)
    ∧ only_dragged tabId (flat_tabs (mainList e))
    ∧ WindowId e = WindowId st ∧ cache e = cache st ∧ timers e = timers st)
    as Hfold.
  { clear Hmid. induction Hsteps as [|x xs Hx _ IH]; intros s Hs; [done|].
    cbn [foldl]. apply IH.
    destruct Hs as (Hf & Hd & He & Ho & Hw & Hc & Ht).
    destruct x as [z|z|z]; [| |done];
      cbn [tab_drag_step]; unfold DnD_dragEnter, DnD_dragLeave.
    - destruct (hover_keeps tabId (mainList st) z true s
                  (conj Hf (conj Hd (conj He Ho))))
        as (? & ? & ? & ? & -> & -> & ->); done.
    - destruct (hover_keeps tabId (mainList st) z false s
                  (conj Hf (conj Hd (conj He Ho))))
        as (? & ? & ? & ? & -> & -> & ->); done. }
  specialize (Hfold mid Hmid). cbn zeta in Hfold.
  subst st'. unfold tab_drag_session. fold mid.
  set (e := foldl (tab_drag_step NoGroup w api tabId) mid steps) in *.
  destruct Hfold as ([o Hf] & Hd & He & Ho & Hw & Hc & Ht).
  unfold DnD_dragEnd, remove_fakeBottom.
  cbn [mainList set_mainList set_dragging fakeBottom].
  rewrite Hf.
  cbn [mainList set_mainList set_fakeBottom set_dragging fakeBottom
       dragging WindowId cache timers].
  split; [|done].
  rewrite <- (erase_clean (mainList st)) by done.
  rewrite <- He.
  rewrite <- (erase_alter_tab tabId
    (λ t, set_tab_marks false (tn_drop_zone t) (tn_drag_over t) t) (mainList e))
    by done.
  rewrite <- erase_strip_zones, <- erase_without_fake.
  symmetry. apply erase_clean, clean_after_strip.
  by rewrite flat_tabs_alter_tab.
Qed.

(** ** The close entries of the menus *)

Lemma close_ids_showCloseConfirm ids :
  close_ids (ContextMenu_showCloseConfirm ids) = ids.
Proof. unfold ContextMenu_showCloseConfirm. by case_bool_decide. Qed.

Lemma find_live_elem tabId tabs sel :
  find_live tabId tabs = Some sel → sel ∈ tabs ∧ tab_id sel = tabId.
Proof.
  induction tabs as [|tab tabs IH]; [done|]. cbn.
  case_bool_decide as Ht.
  - intros [= <-]. split; [by left|done].
  - intros [Hin Hid]%IH. split; [by right|done].
Qed.

Lemma NoDup_fmap_eq {A B} (f : A → B) (l : list A) x y :
  NoDup (f <$> l) → x ∈ l → y ∈ l → f x = f y → x = y.
Proof.
  intros Hnd [i Hi]%list_elem_of_lookup [j Hj]%list_elem_of_lookup Hf.
  assert (i = j) as ->.
  { eapply NoDup_lookup; [exact Hnd| |];
      rewrite list_lookup_fmap; [by rewrite Hi|by rewrite Hj, Hf]. }
  congruence.
Qed.

Lemma filter_split_three {A} (P Q R : A → Prop)
    `{∀ x, Decision (P x)} `{∀ x, Decision (Q x)} `{∀ x, Decision (R x)}
    (l : list A) :
  (∀ x, x ∈ l → (P x ↔ Q x ∨ R x) ∧ ¬ (Q x ∧ R x)) →
  filter P l ≡ₚ filter Q l ++ filter R l.
Proof.
  induction l as [|x l IH]; intros Hl; [done|].
  assert (filter P l ≡ₚ filter Q l ++ filter R l) as IH'.
  { apply IH. intros y Hy. apply Hl. by right. }
  destruct (Hl x ltac:(by left)) as [Hiff Hdisj].
  rewrite !filter_cons.
  destruct (decide (Q x)) as [HQ|HQ], (decide (R x)) as [HR|HR].
  - tauto.
  - rewrite decide_True by tauto. cbn. by rewrite IH'.
  - rewrite decide_True by tauto. rewrite IH'. apply Permutation_middle.
  - rewrite decide_False by tauto. done.
Qed.

(** X18. With the positions and ids of the live query distinct and the
    focused tab among them, close-others closes exactly the tabs that
    close-left and close-right close between them, each once. *)
Theorem close_others_is_left_and_right (focused : TabNode) (tabs : list Tab)
    (sel : Tab) :
  tn_id focused ≠ 0 →
  find_live (tn_id focused) tabs = Some sel →
  NoDup (tab_id <$> tabs) →
  NoDup (tab_index <$> tabs) →
  ∃ others left right,
    ContextMenu_closeOthers (Some focused) tabs = Some others
    ∧ ContextMenu_closeLeft (Some focused) tabs = Some left
    ∧ ContextMenu_closeRight (Some focused) tabs = Some right
    ∧ close_ids others ≡ₚ close_ids left ++ close_ids right.
Proof.
  intros Hid Hsel Hids Hidx.
  unfold ContextMenu_closeOthers, ContextMenu_closeLeft, ContextMenu_closeRight.
  cbn [ContextMenu_stepOne fmap option_fmap option_map].
  rewrite bool_decide_false by done. rewrite Hsel.
  eexists _, _, _. repeat split.
  rewrite !close_ids_showCloseConfirm, <- fmap_app.
  apply fmap_Permutation, filter_split_three.
  destruct (find_live_elem _ _ _ Hsel) as [Hin Hselid].
  intros tab Htab. split; [|lia].
  assert (tab_id tab = tn_id focused ↔ tab_index tab = tab_index sel) as Hsame.
  { split; intros Heq.
    - f_equal. apply (NoDup_fmap_eq tab_id tabs); try done. congruence.
    - rewrite <- Hselid. f_equal.
      by apply (NoDup_fmap_eq tab_index tabs). }
  split.
  - intros [Hne Hpin].
    destruct (Z.lt_trichotomy (tab_index tab) (tab_index sel))
      as [?|[?|?]]; tauto.
  - intros [[Hlt Hpin]|[Hlt Hpin]]; (split; [|done]);
      intros Heq%Hsame; lia.
Qed.

Lemma ids_of_one_tab tabs sel :
  NoDup (tab_id <$> tabs) → sel ∈ tabs →
  tab_id <$> filter (λ tab, tab_id tab = tab_id sel) tabs = [tab_id sel].
Proof.
  intros Hnd Hin.
  assert (NoDup (tab_id <$> filter (λ tab, tab_id tab = tab_id sel) tabs))
    as Hnd'.
  { eapply sublist_NoDup; [exact Hnd|apply fmap_sublist, sublist_filter]. }
  assert (∀ id, id ∈ tab_id <$> filter (λ tab, tab_id tab = tab_id sel) tabs
                → id = tab_id sel) as Hall.
  { intros id (tab & -> & [? _]%list_elem_of_filter)%list_elem_of_fmap. done. }
  assert (tab_id sel ∈ tab_id <$> filter (λ tab, tab_id tab = tab_id sel) tabs)
    as Hsel.
  { apply list_elem_of_fmap. exists sel. split; [done|].
    by apply list_elem_of_filter. }
  destruct (tab_id <$> filter _ tabs) as [|a [|b rest]].
  - by apply elem_of_nil in Hsel.
  - f_equal. apply Hall. by left.
  - apply NoDup_cons in Hnd' as [Hab _]. destruct Hab.
    rewrite (Hall a) by (by left).
    rewrite <- (Hall b) by (right; by left). by left.
Qed.

(** X19. Closing a group, from the tab menu or from the close icon of
    the group, removes every live tab tagged with the group at once and
    asks no confirmation however many they are.  With the positions and
    ids of the live query distinct, the focused tab live in its group and
    no tab of the group pinned, these are exactly the tabs that
    close-above-in-group and close-below-in-group close between them,
    and the focused tab. *)
Theorem group_close_is_above_self_below (NoGroup : Z) (focused : TabNode)
    (tabs : list Tab) (sel : Tab) :
  tn_id focused ≠ 0 →
  tn_group focused ≠ NoGroup →
  find_live (tn_id focused) tabs = Some sel →
  tab_groupId sel = tn_group focused →
  NoDup (tab_id <$> tabs) →
  NoDup (tab_index <$> tabs) →
  (∀ tab, tab ∈ tabs → tab_groupId tab = tn_group focused →
          tab_pinned tab = false) →
  ∃ ids above below,
    ContextMenu_closeGroupByTabMenu NoGroup (Some focused) tabs
    = Some (tabs_remove ids)
    ∧ Groups_onCloseClick (tn_group focused) tabs = Some (tabs_remove ids)
    ∧ ContextMenu_closeGroupAbove NoGroup (Some focused) tabs = Some above
    ∧ ContextMenu_closeGroupBelow NoGroup (Some focused) tabs = Some below
    ∧ ids ≡ₚ close_ids above ++ tn_id focused :: close_ids below.
Proof.
  intros Hid Hg Hsel Hselg Hids Hidx Hpin.
  destruct (find_live_elem _ _ _ Hsel) as [Hin Hselid].
  unfold ContextMenu_closeGroupByTabMenu, Groups_onCloseClick,
    ContextMenu_closeGroupAbove, ContextMenu_closeGroupBelow. cbn zeta.
  rewrite !(bool_decide_false (tn_id focused = 0)) by done.
  rewrite !(bool_decide_false (tn_group focused = NoGroup)) by done.
  rewrite Hsel.
  assert (tn_id focused
          ∈ tab_id <$> filter (λ tab, tab_groupId tab = tn_group focused) tabs)
    as Hmem.
  { apply list_elem_of_fmap. exists sel. split; [done|].
    by apply list_elem_of_filter. }
  rewrite bool_decide_true.
  2:{ destruct (tab_id <$> filter _ tabs); [by apply elem_of_nil in Hmem|].
      cbn. lia. }
  eexists _, _, _. repeat split.
  rewrite !close_ids_showCloseConfirm.
  assert (∀ tab, tab ∈ tabs →
            (tab_id tab = tn_id focused ↔ tab_index tab = tab_index sel))
    as Hsame.
  { intros tab Htab. split; intros Heq.
    - f_equal. apply (NoDup_fmap_eq tab_id tabs); try done. congruence.
    - rewrite <- Hselid. f_equal.
      by apply (NoDup_fmap_eq tab_index tabs). }
  match goal with
  | |- _ ≡ₚ ?A ++ _ :: ?B =>
      transitivity
        (A ++ (tab_id <$> filter (λ tab, tab_id tab = tab_id sel) tabs) ++ B);
        [|by rewrite ids_of_one_tab, Hselid by done]
  end.
  rewrite <- !fmap_app. apply fmap_Permutation.
  rewrite (filter_split_three _
             (λ tab, tab_groupId tab = tn_group focused
                     ∧ tab_index tab < tab_index sel ∧ tab_pinned tab = false)
             (λ tab, tab_groupId tab = tn_group focused
                     ∧ tab_index sel ≤ tab_index tab)).
  2:{ intros tab Htab. split; [|lia]. specialize (Hpin tab Htab).
      destruct (Z.lt_ge_cases (tab_index tab) (tab_index sel)); tauto. }
  apply Permutation_app_head.
  apply filter_split_three.
  intros tab Htab. specialize (Hsame tab Htab). specialize (Hpin tab Htab).
  rewrite Hselid. split.
  - split.
    + intros [Hgrp Hle].
      destruct (decide (tab_index tab = tab_index sel)) as [He|He];
        [left; tauto|right]. split; [done|]. split; [lia|tauto].
    + intros [He|(Hgrp & Hlt & _)]; [|split; [done|lia]].
      apply Hsame in He as Hi. split; [|lia].
      assert (tab = sel) as ->; [|done].
      apply (NoDup_fmap_eq tab_id tabs); try done. congruence.
  - intros [He%Hsame ?]. lia.
Qed.

(** ** What a tab-updated event patches *)

Lemma alter_tab_in_twice id f g b :
  (∀ t, tn_id (g t) = tn_id t) →
  alter_tab_in id f (alter_tab_in id g b) = alter_tab_in id (f ∘ g) b.
Proof.
  intros Hg. induction b as [|t b IH]; [done|]. cbn.
  destruct (decide (tn_id t = id)) as [Ht|Ht].
  - rewrite !(bool_decide_true _ Ht). cbn. rewrite Hg.
    by rewrite (bool_decide_true _ Ht).
  - rewrite !(bool_decide_false _ Ht). cbn.
    by rewrite (bool_decide_false _ Ht), IH.
Qed.

Lemma alter_tab_in_ext id f g b :
  (∀ t, f t = g t) → alter_tab_in id f b = alter_tab_in id g b.
Proof.
  intros Hfg. induction b as [|t b IH]; [done|]. cbn.
  case_bool_decide; by rewrite ?Hfg, ?IH.
Qed.

Lemma alter_tab_in_id id b : alter_tab_in id (λ t, t) b = b.
Proof.
  induction b as [|t b IH]; [done|]. cbn. case_bool_decide; by rewrite ?IH.
Qed.

(** X20. A tab-updated event of the current window for a tab that has a
    node changes the first tab item with that id and no other: its
    title when the event carries a title (or a url, the tab having a
    title), its pin when the event carries one, its group tag when the
    event carries a group id.  A rebuild is scheduled when the event
    carries a group id, and only then. *)
Theorem Tabs_onUpdated_patches_one (tabId : Z) (changeInfo : ChangeInfo)
    (tab : Tab) (st : State) :
  tab_windowId tab = WindowId st →
  has_tab tabId (mainList st) = true →
  let st' := Tabs_onUpdated tabId changeInfo tab st in
  flat_tabs (mainList st')
  = alter_tab_in tabId (onUpdated_patch changeInfo tab) (flat_tabs (mainList st))
  ∧ (is_Some (ci_groupId changeInfo) → rebuild_scheduled st')
  ∧ (ci_groupId changeInfo = None →
     timers st' = timers st ∧ delayTimeoutId st' = delayTimeoutId st).
Proof.
  intros Hw Hhas st'. subst st'. unfold Tabs_onUpdated, Tabs_updateGroup.
  rewrite bool_decide_false by (by intros H; apply H).
  rewrite Hhas. cbn [negb]. cbn zeta.
  split; [|split].
  - unfold onUpdated_patch.
    destruct (truthy (ci_title changeInfo)
              || truthy (ci_url changeInfo) && truthy (Some (tab_title tab)));
      destruct (ci_pinned changeInfo) as [p|],
               (ci_groupId changeInfo) as [g|];
      rewrite ?(proj1 (proj2 (Tabs_delayRebuild_frame _)));
      cbn [mainList set_mainList default];
      rewrite ?flat_tabs_alter_tab;
      rewrite ?alter_tab_in_twice by done;
      rewrite ?alter_tab_in_twice by done;
      try (apply alter_tab_in_ext; by intros []).
    rewrite <- (alter_tab_in_id tabId (flat_tabs (mainList st))) at 1.
    apply alter_tab_in_ext. by intros [].
  - intros [g Hgid]. rewrite Hgid. apply Tabs_delayRebuild_scheduled.
  - intros ->. by destruct (_ || _), (ci_pinned changeInfo).
Qed.

(** * The further properties on the sample window *)

Local Ltac runs_unbroken_by_cases :=
  let i := fresh "i" in
  let j := fresh "j" in
  let k := fresh "k" in
  intros i j k ? ? ? ? ? ? ? ? ?;
  destruct i as [|[|[|[|i]]]]; destruct j as [|[|[|[|j]]]];
    destruct k as [|[|[|[|k]]]]; cbn in *; simplify_eq; lia || done.

Lemma ex_runs_unbroken : runs_unbroken (-1) (w_tabs ex_world).
Proof. runs_unbroken_by_cases. Qed.

Lemma ex_runs_unbroken_without :
  runs_unbroken (-1) (w_tabs (world_without 2 ex_world)).
Proof.
  replace (w_tabs (world_without 2 ex_world))
    with [ex_tab 1 0 (-1); ex_tab 3 2 7; ex_tab 4 3 (-1)]
    by (by vm_compute).
  runs_unbroken_by_cases.
Qed.

Lemma ex_built_clean : Forall node_clean (mainList ex_built).
Proof. repeat constructor. Qed.

Lemma ex_ids_distinct : NoDup (tab_id <$> w_tabs ex_world).
Proof. apply (bool_decide_unpack _). by vm_compute. Qed.

Lemma ex_positions_distinct : NoDup (tab_index <$> w_tabs ex_world).
Proof. apply (bool_decide_unpack _). by vm_compute. Qed.

Lemma one_rebuild_pending_witness :
  tidy (run (-1) (λ _, ex_world) ex_init [Request; Tick; Request]).1
  ∧ (length (pending (timers
       (run (-1) (λ _, ex_world) ex_init [Request; Tick; Request]).1)) ≤ 1)%nat.
Proof.
  apply (one_rebuild_pending (-1) (λ _, ex_world) [Request; Tick; Request]
           ex_init).
  left. reflexivity.
Defined.

Lemma request_installs_build_witness :
  mainList (run (-1) (λ _, ex_world) ex_init
                (Request :: replicate rebuildDelay Tick)).1
  = mainList (Tabs_build (-1) ex_world ex_init).
Proof.
  apply (request_installs_build (-1) (λ _, ex_world) ex_init).
  intros p Hp. by apply elem_of_nil in Hp.
Defined.

Lemma Tabs_build_keeps_window_order_witness :
  mainList (Tabs_build (-1) ex_world ex_init) = mainList ex_built
  ∧ flat_tabs (mainList ex_built) = Tabs_createTab <$> w_tabs ex_world.
Proof.
  apply (Tabs_build_keeps_window_order (-1) ex_world ex_init
           (mainList ex_built)).
  - reflexivity.
  - exact ex_runs_unbroken.
  - reflexivity.
Defined.

Lemma Tabs_build_twice_witness :
  mainList (Tabs_build (-1) ex_world (Tabs_build (-1) ex_world ex_init))
  = mainList (Tabs_build (-1) ex_world ex_init)
  ∧ cache (Tabs_build (-1) ex_world (Tabs_build (-1) ex_world ex_init))
    = cache (Tabs_build (-1) ex_world ex_init).
Proof.
  exact (Tabs_build_twice (-1) ex_world ex_world_consistent ex_init).
Defined.

Lemma Tabs_build_well_grouped_witness :
  Forall (node_contained (-1)) (mainList (Tabs_build (-1) ex_world ex_init))
  ∧ cache_consistent (cache (Tabs_build (-1) ex_world ex_init)).
Proof.
  apply (Tabs_build_well_grouped (-1) ex_world ex_init).
  - exact ex_world_consistent.
  - intros k g Hk. cbn in Hk. by rewrite lookup_empty in Hk.
  - apply List.Forall_nil.
Defined.

Lemma Tabs_onTabRemoved_effect_witness :
  has_tab 2 (mainList (Tabs_onTabRemoved 2 ex_built)) = false
  ∧ Tabs_onTabRemoved 99 ex_built = ex_built.
Proof.
  split.
  - apply (Tabs_onTabRemoved_effect 2 ex_built).
    apply (bool_decide_unpack _). by vm_compute.
  - apply (Tabs_onTabRemoved_effect 99 ex_built). reflexivity.
Defined.

Lemma removal_agrees_with_rebuild_witness :
  flat_tabs (mainList (Tabs_onTabRemoved 2 (Tabs_build (-1) ex_world ex_init)))
  = flat_tabs (mainList (Tabs_build (-1) (world_without 2 ex_world) ex_init)).
Proof.
  apply (removal_agrees_with_rebuild (-1) ex_world 2 ex_init ex_init
           (mainList ex_built)
           (mainList (Tabs_build (-1) (world_without 2 ex_world) ex_init))).
  - reflexivity.
  - reflexivity.
  - exact ex_ids_distinct.
  - exact ex_runs_unbroken.
  - exact ex_runs_unbroken_without.
  - reflexivity.
  - reflexivity.
Defined.

Lemma Tabs_onCreated_no_duplicate_witness :
  mainList (Tabs_onCreated (-1) (ex_tab 5 1 (-1))
              (Tabs_onCreated (-1) (ex_tab 5 1 (-1)) ex_built))
  = mainList (Tabs_onCreated (-1) (ex_tab 5 1 (-1)) ex_built)
  ∧ Tabs_onCreated (-1) (mkTab 5 2 1 (-1) false false "tab") ex_built
    = ex_built.
Proof.
  split.
  - apply (Tabs_onCreated_no_duplicate (-1) (ex_tab 5 1 (-1)) ex_built).
  - apply (Tabs_onCreated_no_duplicate (-1)
             (mkTab 5 2 1 (-1) false false "tab") ex_built).
    discriminate.
Defined.

Lemma Tabs_insertTab_flat_position_witness :
  flat_tabs (mainList (Tabs_insertTab (-1) (ex_tab 6 2 7) ex_built))
  = placed_at 2 (Tabs_createTab (ex_tab 6 2 7)) (flat_tabs (mainList ex_built))
  ∧ flat_tabs (mainList (Tabs_insertTab (-1) (ex_tab 5 2 (-1)) ex_built))
    = placed_at 1 (Tabs_createTab (ex_tab 5 2 (-1)))
                (flat_tabs (mainList ex_built)).
Proof.
  split.
  - apply (proj1 (Tabs_insertTab_flat_position (-1) (ex_tab 6 2 7) ex_built))
      with (previousTab := Tabs_createTab (ex_tab 2 1 7)).
    + discriminate.
    + reflexivity.
    + reflexivity.
    + reflexivity.
  - apply (proj2 (proj2
             (Tabs_insertTab_flat_position (-1) (ex_tab 5 2 (-1)) ex_built))).
    + reflexivity.
    + cbv. split; [discriminate|reflexivity].
Defined.

Lemma Tabs_onActivated_single_active_witness :
  skeleton (mainList (Tabs_onActivated (mkActiveInfo 3 1) ex_built))
  = skeleton (mainList ex_built).
Proof.
  apply (Tabs_onActivated_single_active (mkActiveInfo 3 1) ex_built).
  reflexivity.
Defined.

Lemma Groups_onUpdated_mirrors_witness :
  find_group 7 (group_nodes (mainList
    (Groups_onUpdated (mkGroup 7 1 "  play " "red" true) ex_built)))
  = Some (mkGroupNode 7 "red" "play" true false
                      (mkHeader false false false false) (gn_body ex_G1_node))
  ∧ find_group 7 (group_nodes (mainList
      (Groups_onUpdated (mkGroup 7 1 " " "red" true) ex_built)))
    = Some (mkGroupNode 7 "red" zero_width_space true false
                        (mkHeader false false false false)
                        (gn_body ex_G1_node)).
Proof.
  split.
  - apply (Groups_onUpdated_mirrors (mkGroup 7 1 "  play " "red" true)
             ex_built ex_G1_node); reflexivity.
  - apply (Groups_onUpdated_mirrors (mkGroup 7 1 " " "red" true)
             ex_built ex_G1_node); reflexivity.
Defined.

Lemma registry_keys_match_witness :
  cache_consistent (cache (Groups_onCreated ex_G1 ex_init))
  ∧ cache_consistent (cache (Groups_onUpdated ex_G1 ex_init))
  ∧ cache_consistent (cache (Groups_onRemoved ex_G1 ex_init))
  ∧ cache_consistent (cache (Groups_onMoved ex_G1 ex_init)).
Proof.
  apply (registry_keys_match ex_init ex_G1).
  intros k g Hk. cbn in Hk. by rewrite lookup_empty in Hk.
Defined.

Lemma registry_lookup_after_event_witness :
  Groups_get ex_world_stale (grp_id ex_G1)
             (cache (Groups_onRemoved ex_G1 ex_built))
  = (cache (Groups_onRemoved ex_G1 ex_built), None).
Proof.
  apply (registry_lookup_after_event ex_built ex_G1). reflexivity.
Defined.

Lemma tab_drag_without_drop_restores_witness :
  mainList (tab_drag_session (-1) ex_world ok_host 2
              [Enter (ZTab 1); Leave (ZTab 1); Enter ZFake] ex_built)
  = mainList ex_built.
Proof.
  apply (tab_drag_without_drop_restores (-1) ex_world ok_host 2
           [Enter (ZTab 1); Leave (ZTab 1); Enter ZFake] ex_built).
  - exact ex_built_clean.
  - repeat constructor.
Defined.

Lemma DnD_drop_ignores_or_rebuilds_witness :
  DnD_drop (-1) ex_world ok_host (Some (drag_tab 4)) (ZTab 4) ex_built
  = (Some ex_built, [])
  ∧ ∃ calls,
      (DnD_drop (-1) ex_world ok_host (Some (drag_tab 4)) (ZHeader 7)
                ex_built).2 = calls ++ [full_rebuild]
      ∧ full_rebuild ∉ calls.
Proof.
  split.
  - apply (DnD_drop_ignores_or_rebuilds (-1) ex_world ok_host
             (Some (drag_tab 4)) (ZTab 4) ex_built).
    right. left. reflexivity.
  - apply (DnD_drop_ignores_or_rebuilds (-1) ex_world ok_host
             (Some (drag_tab 4)) (ZHeader 7) ex_built).
    intros [H|[H|H]]; discriminate H.
Defined.

Lemma drop_move_keeps_nodes_witness :
  0 ≤ index_of_tab 4 (tab_before (RGroup 7) 4 (mainList ex_built))
  ∧ insert_node_before (RTab 1) (NGroup ex_G1_node)
                       (remove_group 7 (mainList ex_built))
    ≡ₚ mainList ex_built.
Proof.
  split.
  - apply (proj1 (drop_move_keeps_nodes (RGroup 7) (mainList ex_built)
                    eq_refl) 4).
    + discriminate.
    + reflexivity.
  - apply (proj1 (proj2 (drop_move_keeps_nodes (RTab 1) (mainList ex_built)
                           eq_refl)) 7).
    + discriminate.
    + reflexivity.
Defined.

Lemma close_others_is_left_and_right_witness :
  ∃ others left right,
    ContextMenu_closeOthers (Some (Tabs_createTab (ex_tab 2 1 7)))
                            (w_tabs ex_world) = Some others
    ∧ ContextMenu_closeLeft (Some (Tabs_createTab (ex_tab 2 1 7)))
                            (w_tabs ex_world) = Some left
    ∧ ContextMenu_closeRight (Some (Tabs_createTab (ex_tab 2 1 7)))
                             (w_tabs ex_world) = Some right
    ∧ close_ids others ≡ₚ close_ids left ++ close_ids right.
Proof.
  apply (close_others_is_left_and_right (Tabs_createTab (ex_tab 2 1 7))
           (w_tabs ex_world) (ex_tab 2 1 7)).
  - discriminate.
  - reflexivity.
  - exact ex_ids_distinct.
  - exact ex_positions_distinct.
Defined.

Lemma group_close_is_above_self_below_witness :
  ∃ ids above below,
    ContextMenu_closeGroupByTabMenu (-1) (Some (Tabs_createTab (ex_tab 2 1 7)))
                                    (w_tabs ex_world)
    = Some (tabs_remove ids)
    ∧ Groups_onCloseClick (tn_group (Tabs_createTab (ex_tab 2 1 7)))
                          (w_tabs ex_world)
      = Some (tabs_remove ids)
    ∧ ContextMenu_closeGroupAbove (-1) (Some (Tabs_createTab (ex_tab 2 1 7)))
                                  (w_tabs ex_world) = Some above
    ∧ ContextMenu_closeGroupBelow (-1) (Some (Tabs_createTab (ex_tab 2 1 7)))
                                  (w_tabs ex_world) = Some below
    ∧ ids ≡ₚ close_ids above
             ++ tn_id (Tabs_createTab (ex_tab 2 1 7)) :: close_ids below.
Proof.
  apply (group_close_is_above_self_below (-1) (Tabs_createTab (ex_tab 2 1 7))
           (w_tabs ex_world) (ex_tab 2 1 7)).
  - discriminate.
  - discriminate.
  - reflexivity.
  - reflexivity.
  - exact ex_ids_distinct.
  - exact ex_positions_distinct.
  - intros tab Hin _.
    repeat (apply elem_of_cons in Hin as [->|Hin]; [reflexivity|]).
    by apply elem_of_nil in Hin.
Defined.

Lemma Tabs_onUpdated_patches_one_witness :
  flat_tabs (mainList
    (Tabs_onUpdated 2 (mkChangeInfo (Some "news") None (Some true) None)
                    (mkTab 2 1 1 7 true false "news") ex_built))
  = alter_tab_in 2
      (onUpdated_patch (mkChangeInfo (Some "news") None (Some true) None)
                       (mkTab 2 1 1 7 true false "news"))
      (flat_tabs (mainList ex_built)).
Proof.
  apply (Tabs_onUpdated_patches_one 2
           (mkChangeInfo (Some "news") None (Some true) None)
           (mkTab 2 1 1 7 true false "news") ex_built); reflexivity.
Defined.
